(** * Analytics pipeline of the social-media dashboard: a shallow embedding

    The development follows the Python sources of the FastAPI application:

    - [PyStr]          Python [str] values and the string and [re] primitives
                       the processors call;
    - [PyVal]          the arguments of the processors, float arithmetic
                       and [round];
    - [Sentiment]      [sentiment_processor.py]: [preprocess_text],
                       [_fallback_sentiment], [generate_sentiment_report];
    - [Emotion]        [emotion_processor.py]: the lexicons, [preprocess_text],
                       [predict_emotion], [generate_emotion_report];
    - [Recommendation] [recommendation_processor.py]: the rule engines, the
                       priority sort, [_generate_insights] as far as it
                       returns or raises, [_calculate_performance_score]
                       and [generate_recommendations];
    - [Activity]       [data_processor.py]: [get_peak_activity_hours];
    - [Normal]         the characters of a normalized text and the inputs
                       on which the normalization is idempotent;
    - [Insights]       [recommendation_processor.py]: the top topic of
                       [_generate_insights];
    - [Collections]    [collections.Counter] and [most_common];
    - [SentimentFrame] [sentiment_processor.py]: [get_word_frequency] and
                       the word clouds of the report;
    - [EmotionFrame]   [emotion_processor.py]: [analyze_dataframe],
                       [get_word_frequency] and the word clouds;
    - [Engagement]     the engagement per label of the two reports;
    - [Posts]          [data_processor.py]: [extract_hashtags],
                       [get_top_hashtags], [get_tweet_id_from_permalink],
                       [get_basic_statistics];
    - [Endpoint]       [main.py]: [get_recommendations];
    - [Json]           [data_processor.py]: [convert_types];
    - [TopicPillar]    [topic_pillar_processor.py]: [preprocess_text].

    Modelling decisions, once and for all:

    - a Python [str] is the list of its code points ([list Z]);
    - a Python float is a binary64 number and is modelled by its value, a
      rational ([Q]); every operation on floats returns the binary64 number
      nearest to the exact result, ties to even, and [round(x, n)] goes
      through the nearest decimal with [n] places; infinities and NaN, which
      the processors can only meet on numbers beyond the binary64 range,
      are not modelled;
    - a call that can raise returns an [option], [None] for the exception;
    - a [dict] whose iteration order matters (the lexicons, the emoji table)
      is an association list in insertion order; a [dict] that is only looked
      up (a label distribution) is a [gmap];
    - the Unicode character database consulted by [str.lower] and by the
      regular-expression class [\w] is not part of the repository: it is a
      parameter [ucd] of every function that needs it. *)

From Stdlib Require Import ZArith QArith Qround Qabs Qpower.
From Stdlib Require Import List String Ascii Bool Lia Lqa.
From Stdlib Require Import Sorting.Sorted Sorting.Permutation.
From stdpp Require Import gmap strings pretty.
Import ListNotations.

Local Open Scope Z_scope.

(* ===================================================================== *)
(** * Python strings                                                      *)
(* ===================================================================== *)

Module PyStr.

(** A Python [str]: the sequence of its code points. *)
Definition pystr : Type := list Z.

(** A string literal of the source, as code points. *)
Definition py (s : string) : pystr :=
  List.map (fun a => Z.of_N (N_of_ascii a)) (list_ascii_of_string s).

(** The part of the Unicode character database the code consults:
    [u_lower c] is the lower-case mapping of code point [c] (what
    [chr(c).lower()] gives), [u_alnum c] is [chr(c).isalnum()];
    [u_cased c] and [u_case_ignorable c] are the properties Cased and
    Case_Ignorable of [c], which [str.lower] consults around a capital
    sigma. *)
Record ucd : Type :=
  { u_lower : Z -> list Z;
    u_alnum : Z -> bool;
    u_cased : Z -> bool;
    u_case_ignorable : Z -> bool }.

(** [str.isspace] of one code point; the regular-expression class [\s],
    [str.split()] and [str.strip()] use the same set. *)
Definition is_space (c : Z) : bool :=
  ((9 <=? c) && (c <=? 13)) || ((28 <=? c) && (c <=? 32))
  || (c =? 133) || (c =? 160) || (c =? 5760)
  || ((8192 <=? c) && (c <=? 8202)) || (c =? 8232) || (c =? 8233)
  || (c =? 8239) || (c =? 8287) || (c =? 12288).

(** The class [\w] of a [str] pattern: alphanumeric or underscore. *)
Definition is_word (db : ucd) (c : Z) : bool := u_alnum db c || (c =? 95).

(** The first character of [t] that is not case-ignorable. *)
Fixpoint skip_ignorable (db : ucd) (t : pystr) : option Z :=
  match t with
  | [] => None
  | c :: r => if u_case_ignorable db c then skip_ignorable db r else Some c
  end.

(** The context Final_Sigma of a capital sigma that stands between
    [before], read backwards, and [after]: a cased character before it and
    none after it, case-ignorable characters skipped. *)
Definition final_sigma (db : ucd) (before after : pystr) : bool :=
  match skip_ignorable db before with
  | Some c =>
    u_cased db c
    && match skip_ignorable db after with
       | Some d => negb (u_cased db d)
       | None => true
       end
  | None => false
  end.

(** [text.lower()]: code point by code point, but for the capital sigma
    (U+03A3), whose lower case is the final sigma (U+03C2) in the context
    Final_Sigma and the sigma (U+03C3) elsewhere. [before] is the text
    already read, backwards. *)
Fixpoint lower_from (db : ucd) (before t : pystr) : pystr :=
  match t with
  | [] => []
  | c :: r =>
    (if c =? 931 then [if final_sigma db before r then 962 else 963]
     else u_lower db c)
    ++ lower_from db (c :: before) r
  end.

Definition lower (db : ucd) (t : pystr) : pystr := lower_from db [] t.

(** The database restricted to Basic Latin. *)
Definition is_ascii (c : Z) : bool := (0 <=? c) && (c <? 128).
Definition ascii_upper (c : Z) : bool := (65 <=? c) && (c <=? 90).
Definition ascii_lower (c : Z) : Z := if ascii_upper c then c + 32 else c.
Definition ascii_alnum (c : Z) : bool :=
  ((48 <=? c) && (c <=? 57)) || ((65 <=? c) && (c <=? 90))
  || ((97 <=? c) && (c <=? 122)).

(** A database agrees with Basic Latin when it maps and classifies the
    128 ASCII code points the way Unicode does. *)
Definition ascii_exact (db : ucd) : bool :=
  forallb (fun c => bool_decide (u_lower db c = [ascii_lower c])
                    && Bool.eqb (u_alnum db c) (ascii_alnum c))
          (List.map Z.of_nat (seq 0 128)).

(** A fragment of the database: Basic Latin, the Latin-1 Supplement
    (capitals U+00C0..U+00DE but the sign U+00D7, 32 below their lower
    case; the letters, superscripts and fractions that are alphanumeric),
    the Greek letters U+0391..U+03CB (capitals up to U+03AB, 32 below
    their lower case) and the Cherokee letters (capitals U+13A0..U+13F5,
    whose lower case is U+AB70..U+ABBF and U+13F8..U+13FD). Other code
    points are left unclassified: the fragment is only used on texts made
    of the code points it covers and of symbols, which have no case and
    are not alphanumeric. *)
Definition cherokee_lower (c : Z) : option Z :=
  if (5024 <=? c) && (c <=? 5103) then Some (c + 38864)
  else if (5104 <=? c) && (c <=? 5109) then Some (c + 8)
  else None.

Definition latin1_upper (c : Z) : bool :=
  (192 <=? c) && (c <=? 222) && negb (c =? 215).

Definition latin1_alnum (c : Z) : bool :=
  (c =? 170) || (c =? 178) || (c =? 179) || (c =? 181) || (c =? 185)
  || (c =? 186) || ((188 <=? c) && (c <=? 190))
  || ((192 <=? c) && (c <=? 255) && negb (c =? 215) && negb (c =? 247)).

Definition greek_letter (c : Z) : bool :=
  (913 <=? c) && (c <=? 971) && negb (c =? 930).

Definition greek_upper (c : Z) : bool := greek_letter c && (c <=? 939).

Definition cherokee_letter (c : Z) : bool :=
  ((5024 <=? c) && (c <=? 5109)) || ((5112 <=? c) && (c <=? 5117))
  || ((43888 <=? c) && (c <=? 43967)).

Definition ucd_fragment : ucd :=
  {| u_lower := fun c => match cherokee_lower c with
                         | Some d => [d]
                         | None => if latin1_upper c || greek_upper c
                                   then [c + 32]
                                   else [ascii_lower c]
                         end;
     u_alnum := fun c => ascii_alnum c || latin1_alnum c || greek_letter c
                         || cherokee_letter c;
     u_cased := fun c => ((65 <=? c) && (c <=? 90))
                         || ((97 <=? c) && (c <=? 122))
                         || (c =? 170) || (c =? 181) || (c =? 186)
                         || ((192 <=? c) && (c <=? 255)
                             && negb (c =? 215) && negb (c =? 247))
                         || greek_letter c || cherokee_letter c;
     u_case_ignorable :=
       fun c => (c =? 39) || (c =? 46) || (c =? 58) || (c =? 94)
                || (c =? 96) || (c =? 168) || (c =? 173) || (c =? 175)
                || (c =? 180) || (c =? 183) || (c =? 184) |}.

(** [t.startswith(p)] *)
Fixpoint starts_with (p t : pystr) : bool :=
  match p, t with
  | [], _ => true
  | a :: p', b :: t' => (a =? b) && starts_with p' t'
  | _ :: _, [] => false
  end.

(** [w in t] on strings: [w] occurs as a substring of [t]. *)
Fixpoint contains (w t : pystr) : bool :=
  starts_with w t ||
  match t with
  | [] => false
  | _ :: t' => contains w t'
  end.

(** Length of the longest prefix of [t] whose code points satisfy [p]. *)
Fixpoint run_len (p : Z -> bool) (t : pystr) : nat :=
  match t with
  | c :: r => if p c then S (run_len p r) else O
  | [] => O
  end.

(** [re.sub(pattern, repl, t)] for a pattern that never matches the empty
    string. [m u] describes the match of the pattern at the start of [u]:
    [Some (n, r)] when it matches the first [n] code points of [u] and the
    replacement for that match is [r]. The scan goes left to right; after a
    match it resumes behind the matched text. [skip] counts the code points
    of the current match still to be passed over. *)
Fixpoint sub_from (m : pystr -> option (nat * pystr)) (skip : nat)
         (t : pystr) : pystr :=
  match t with
  | [] => []
  | c :: r =>
    match skip with
    | S k => sub_from m k r
    | O =>
      match m t with
      | Some (S n, repl) => repl ++ sub_from m n r
      | _ => c :: sub_from m O r
      end
    end
  end.

Definition re_sub (m : pystr -> option (nat * pystr)) (t : pystr) : pystr :=
  sub_from m O t.

(** [t.replace(old, new)] *)
Definition replace (old new t : pystr) : pystr :=
  match old with
  | [] => new ++ flat_map (fun c => c :: new) t
  | _ :: _ =>
    re_sub (fun u => if starts_with old u then Some (length old, new)
                     else None) t
  end.

(** [t.lstrip()], [t.rstrip()], [t.strip()] *)
Fixpoint lstrip (t : pystr) : pystr :=
  match t with
  | c :: r => if is_space c then lstrip r else t
  | [] => []
  end.

Fixpoint rstrip (t : pystr) : pystr :=
  match t with
  | [] => []
  | c :: r =>
    match rstrip r with
    | [] => if is_space c then [] else [c]
    | r' => c :: r'
    end
  end.

Definition strip (t : pystr) : pystr := rstrip (lstrip t).

(** [t.split()]: the maximal runs of non-whitespace code points.
    A non-whitespace code point either starts a word of its own (at the end
    of the text or before whitespace) or extends the word that follows. *)
Definition word_ends (r : pystr) : bool :=
  match r with
  | [] => true
  | d :: _ => is_space d
  end.

Definition push_char (c : Z) (ends : bool) (ws : list pystr) : list pystr :=
  if ends then [c] :: ws
  else match ws with
       | w :: ws' => (c :: w) :: ws'
       | [] => [[c]]
       end.

Fixpoint split (t : pystr) : list pystr :=
  match t with
  | [] => []
  | c :: r => if is_space c then split r
              else push_char c (word_ends r) (split r)
  end.

(** [' '.join(ws)] *)
Fixpoint join (ws : list pystr) : pystr :=
  match ws with
  | [] => []
  | [w] => w
  | w :: ws' => w ++ 32 :: join ws'
  end.

(** A word: not empty, no whitespace in it. *)
Definition word (w : pystr) : Prop :=
  w <> [] /\ Forall (fun c => is_space c = false) w.

End PyStr.

Import PyStr.

(* ===================================================================== *)
(** * Python values, dictionaries and numbers                             *)
(* ===================================================================== *)

Module PyVal.

(** A cell of the text column handed to [preprocess_text], as pandas
    reads it from the reply files: a string, [None], or the float NaN that
    stands for a missing value. *)
Inductive pyval : Type :=
| PyNone
| PyNaN
| PyStr (s : pystr).

(** [pd.isna(v)] *)
Definition isna (v : pyval) : bool :=
  match v with
  | PyNone | PyNaN => true
  | PyStr _ => false
  end.

(** [v == ''] *)
Definition is_empty_str (v : pyval) : bool :=
  match v with
  | PyStr [] => true
  | _ => false
  end.

(** [str(v)] *)
Definition str (v : pyval) : pystr :=
  match v with
  | PyNone => py "None"
  | PyNaN => py "nan"
  | PyStr s => s
  end.

(** An argument of [preprocess_text] of any kind: a cell of a text column;
    a list of two or more cells; or another object that [pd.isna] takes for
    a scalar that is not missing (a number, a boolean, a tuple), given by
    the text that [str()] returns for it. *)
Inductive pyarg : Type :=
| Cell (v : pyval)
| Items (first second : pyval) (rest : list pyval)
| Other (repr : pystr).

(** A dictionary display [{k1: v1, k2: v2, ...}]: keys keep the position
    of their first occurrence and the value of their last one. *)
Fixpoint dict_set {V : Type} (k : pystr) (v : V) (d : list (pystr * V))
  : list (pystr * V) :=
  match d with
  | [] => [(k, v)]
  | (k', v') :: d' =>
    if bool_decide (k = k') then (k, v) :: d' else (k', v') :: dict_set k v d'
  end.

Definition dict_display {V : Type} (items : list (pystr * V))
  : list (pystr * V) :=
  fold_left (fun d kv => dict_set (fst kv) (snd kv) d) items [].

(** Rounding of a rational to the nearest integer, ties to even. *)
Definition round_half_even (y : Q) : Z :=
  let f := Qfloor y in
  match Qcompare (y - inject_Z f) (1 # 2) with
  | Lt => f
  | Gt => f + 1
  | Eq => if Z.even f then f else f + 1
  end.

(** The integer [e] with [2^e <= |x| < 2^(e+1)], for [x] other than 0. *)
Definition ilog2 (x : Q) : Z :=
  let k := Z.log2 (Z.abs (Qnum x)) - Z.log2 (Zpos (Qden x)) in
  if Qle_bool (2 ^ k) (Qabs x) then k else k - 1.

(** The exponent of the last place of the binary64 significand of [x]:
    53 bits, and 2^-1074 throughout the subnormal range. *)
Definition ulp_exponent (x : Q) : Z := Z.max (ilog2 x - 52) (-1074).

(** The float nearest to [x], ties to the even significand. *)
Definition to_float (x : Q) : Q :=
  let e := ulp_exponent x in
  Qred (inject_Z (round_half_even (x / 2 ^ e)) * 2 ^ e).

(** [a + b], [a - b], [a * b] and [a / b] on floats. On two [int]s,
    [a / b] is the float nearest to the quotient. *)
Definition fadd (a b : Q) : Q := to_float (a + b).
Definition fsub (a b : Q) : Q := to_float (a - b).
Definition fmul (a b : Q) : Q := to_float (a * b).
Definition fdiv (a b : Q) : Q := to_float (a / b).

(** [round(x, ndigits)] on a float: the decimal with [ndigits] places
    nearest to the value of [x], ties to even, and then the float nearest
    to that decimal. *)
Definition py_round (x : Q) (ndigits : nat) : Q :=
  let scale := inject_Z (10 ^ Z.of_nat ndigits) in
  to_float (inject_Z (round_half_even (x * scale)) / scale).

(** [max(a, b)] and [min(a, b)]: the first argument wins a tie. *)
Definition py_max (a b : Q) : Q := if Qle_bool b a then a else b.
Definition py_min (a b : Q) : Q := if Qle_bool a b then a else b.

(** [min(100, max(0, x))] *)
Definition clamp (x : Q) : Q := py_min 100 (py_max 0 x).

End PyVal.

Import PyVal.

(* ===================================================================== *)
(** * Regular expressions shared by the text processors                   *)
(* ===================================================================== *)

Module Patterns.

(** A literal prefix followed by one or more code points of a class; the
    replacement is computed from the text matched by the class. *)
Definition lit_then_run (lit : pystr) (p : Z -> bool)
           (repl : pystr -> pystr) (u : pystr) : option (nat * pystr) :=
  if starts_with lit u then
    let rest := skipn (length lit) u in
    match run_len p rest with
    | O => None
    | S n => Some ((length lit + S n)%nat, repl (firstn (S n) rest))
    end
  else None.

Definition erase : pystr -> pystr := fun _ => [].
Definition blank : pystr -> pystr := fun _ => [32].

(** [@\w+] *)
Definition mention (db : ucd) : pystr -> option (nat * pystr) :=
  lit_then_run (py "@") (is_word db) erase.

(** [([a-z])([A-Z])] replaced by [\1 \2] *)
Definition camel (u : pystr) : option (nat * pystr) :=
  match u with
  | a :: b :: _ =>
    if ((97 <=? a) && (a <=? 122)) && ((65 <=? b) && (b <=? 90))
    then Some (2%nat, [a; 32; b]) else None
  | _ => None
  end.

(** [process_hashtag]: the replacement function of [#(\w+)] *)
Definition process_hashtag (db : ucd) (hashtag : pystr) : pystr :=
  let camel_split := re_sub camel hashtag in
  lower db camel_split.

(** [#(\w+)] *)
Definition hashtag (db : ucd) : pystr -> option (nat * pystr) :=
  lit_then_run (py "#") (is_word db) (process_hashtag db).

(** The character class of [emoji_pattern]. *)
Definition in_emoji_range (c : Z) : bool :=
  ((0x1F600 <=? c) && (c <=? 0x1F64F))
  || ((0x1F300 <=? c) && (c <=? 0x1F5FF))
  || ((0x1F680 <=? c) && (c <=? 0x1F6FF))
  || ((0x1F1E0 <=? c) && (c <=? 0x1F1FF))
  || ((0x2702 <=? c) && (c <=? 0x27B0))
  || ((0x24C2 <=? c) && (c <=? 0x1F251)).

(** [emoji_pattern], replaced by one space *)
Definition emoji_pattern : pystr -> option (nat * pystr) :=
  lit_then_run [] in_emoji_range blank.

(** [(.)\1{3,}] replaced by [\1\1]; the dot does not match a newline. *)
Definition repeated (u : pystr) : option (nat * pystr) :=
  match u with
  | c :: r =>
    if negb (c =? 10) && (3 <=? run_len (Z.eqb c) r)%nat
    then Some (S (run_len (Z.eqb c) r), [c; c]) else None
  | [] => None
  end.

(** [[^\w\s]] replaced by one space *)
Definition special (db : ucd) (u : pystr) : option (nat * pystr) :=
  match u with
  | c :: _ => if negb (is_word db c) && negb (is_space c)
              then Some (1%nat, [32]) else None
  | [] => None
  end.

(** [\s+] replaced by one space *)
Definition whitespace : pystr -> option (nat * pystr) :=
  lit_then_run [] is_space blank.

End Patterns.

(* ===================================================================== *)
(** * sentiment_processor.py                                              *)
(* ===================================================================== *)

Module Sentiment.

Import Patterns.

(** [emoji_dict] of [preprocess_text] *)
Definition emoji_entries : list (list Z * string) :=
  [([128522], "senang"); ([128546], "sedih"); ([128545], "marah"); ([128525], "suka");
   ([128077], "bagus"); ([128078], "jelek"); ([10084;65039], "suka"); ([128148], "kecewa");
   ([128514], "lucu"); ([128557], "menangis"); ([128293], "bagus"); ([128175], "bagus");
   ([128512], "senang"); ([128515], "senang"); ([128516], "senang"); ([128513], "senang");
   ([128591], "terima_kasih"); ([128076], "oke"); ([9989], "benar"); ([10060], "salah");
   ([128184], "mahal"); ([128176], "murah"); ([128246], "sinyal"); ([128225], "internet");
   ([128683], "tidak"); ([9889], "cepat"); ([128012], "lambat")].

Definition emoji_dict : list (pystr * pystr) :=
  dict_display (List.map (fun kv => (fst kv, py (snd kv))) emoji_entries).

(** [for emoji, replacement in emoji_dict.items():
       text = text.replace(emoji, f' {replacement} ')] *)
Definition convert_emoji (dict : list (pystr * pystr)) (text : pystr) : pystr :=
  fold_left (fun text kv => replace (fst kv) (32 :: snd kv ++ [32]) text)
            dict text.

(** The alternation of single characters in the URL patterns:
    [[a-zA-Z]|[0-9]|[$-_@.&+]|[!*\\(\\),]]. Its last alternative,
    [%[0-9a-fA-F][0-9a-fA-F]], only matches code points that the class
    [$-_] already accepts one by one, so that the repeated group matches
    exactly the maximal run of these characters. *)
Definition url_char (c : Z) : bool :=
  ((97 <=? c) && (c <=? 122)) || ((65 <=? c) && (c <=? 90))
  || ((48 <=? c) && (c <=? 57))
  || ((36 <=? c) && (c <=? 95)) || (c =? 64) || (c =? 46) || (c =? 38)
  || (c =? 43)
  || (c =? 33) || (c =? 42) || (c =? 92) || (c =? 40) || (c =? 41)
  || (c =? 44).

(** [http[s]?://(...)+]: the optional [s] is tried first. *)
Definition url_http (u : pystr) : option (nat * pystr) :=
  match lit_then_run (py "https://") url_char erase u with
  | Some r => Some r
  | None => lit_then_run (py "http://") url_char erase u
  end.

(** [www\.(...)+] *)
Definition url_www : pystr -> option (nat * pystr) :=
  lit_then_run (py "www.") url_char erase.

(** [stopwords_id]. Two commas are missing in the source, where Python
    joins the adjacent literals into one word. *)
Definition stopwords_id : list string :=
  ["yang"; "dan"; "di"; "dengan"; "untuk"; "pada"; "adalah"; "ini"; "itu";
   "dari"; "ke"; "tidak"; "atau"; "juga"; "akan"; "telah"; "dapat"; "ada";
   "dalam"; "saya"; "kamu"; "dia"; "mereka"; "kami"; "sudah"; "belum";
   "masih"; "sangat"; "sekali"; "hanya"; "bisa"; "mau"; "ingin"; "perlu";
   "harus"; "kak"; "ka"; "gan"; "sis"; "bro"; "min"; "admin"; "cs"; "halo";
   "hai"; "selamat"; "pagi"; "siang"; "sore"; "malam"; "mohon"; "tolong";
   "cek"; "thanks"; "thx"; "makasih"; "terimakasih"; "makasi"; "terima";
   "kasih"; "ya"; "yah"; "iya"; "ok"; "oke"; "dong"; "nala"; "pau";
   ("vioni" ++ "deh"); "nih"; "sih"; "loh"; "wkwk"; "hehe"; "hihi"; "nya";
   "kok"; "indihome"; "kakak"; "jadi"; ("atas" ++ "kontol"); "anjing";
   "bangsat"; "bajingan"; "memek"; "pepek"; "kampret"; "goblok"; "tolol";
   "tai"; "brengsek"; "jancuk"; "keparat"; "sialan"; "perek"; "sundal";
   "lonte"; "pelacur"; "babi"; "ajg"; "anjng"; "anj"]%string.

Definition stopwords : list pystr := List.map py stopwords_id.

(** [word not in stopwords_id and len(word) > 2] *)
Definition keep_word (word : pystr) : bool :=
  negb (bool_decide (word ∈ stopwords)) && (2 <? length word)%nat.

(** Steps 1 to 9 of [preprocess_text], on a string. *)
Definition clean (db : ucd) (text : pystr) : pystr :=
  let text := convert_emoji emoji_dict text in
  let text := re_sub url_http text in
  let text := re_sub url_www text in
  let text := re_sub (mention db) text in
  let text := re_sub (hashtag db) text in
  let text := re_sub emoji_pattern text in
  let text := lower db text in
  let text := re_sub repeated text in
  let text := re_sub (special db) text in
  strip (re_sub whitespace text).

(** Step 10: stopword removal. *)
Definition remove_stopwords (text : pystr) : pystr :=
  let words := split text in
  let filtered_words := List.filter keep_word words in
  join filtered_words.

(** [SentimentProcessor.preprocess_text] *)
Definition preprocess_text (db : ucd) (text : pyval) : pystr :=
  if isna text || is_empty_str text then []
  else remove_stopwords (clean db (str text)).

(** [SentimentProcessor.preprocess_text] on an argument of any kind;
    [None] when the call raises. On a list [pd.isna(text)] is an array
    with one boolean per item, and the truth value that [or] takes of an
    array of two or more items raises [ValueError]. On another object
    [pd.isna(text)] and [text == ''] are both false. *)
Definition preprocess_any (db : ucd) (text : pyarg) : option pystr :=
  match text with
  | Cell v => Some (preprocess_text db v)
  | Items _ _ _ => None
  | Other repr => Some (remove_stopwords (clean db repr))
  end.

(** The word lists of [_fallback_sentiment] *)
Definition positive_words : list string :=
  ["bagus"; "baik"; "senang"; "puas"; "cepat"; "lancar"; "mantap"; "oke";
   "terima kasih"; "thanks"; "good"; "fast"; "smooth"; "great"; "sukses";
   "mantul"; "keren"; "top"; "recommended"; "hebat"; "memuaskan"]%string.

Definition negative_words : list string :=
  ["lambat"; "lemot"; "jelek"; "buruk"; "kecewa"; "marah"; "kesal";
   "gangguan"; "error"; "rusak"; "masalah"; "complain"; "komplain"; "bad";
   "slow"; "worst"; "terrible"; "parah"; "payah"; "down"; "los"; "mati";
   "putus"; "lag"; "kaga"; "gak jalan"; "ga bisa"; "kendala"; "keluhan";
   "mengecewakan"; "zonk"; "lelet"; "anjlok"]%string.

(** [sum(1 for word in words if word in text_lower)] *)
Definition count_found (words : list string) (text_lower : pystr) : nat :=
  length (List.filter (fun word => contains (py word) text_lower) words).

(** [SentimentProcessor._fallback_sentiment] *)
Definition _fallback_sentiment (db : ucd) (text : pystr) : string :=
  let text_lower := lower db text in
  let pos_count := count_found positive_words text_lower in
  let neg_count := count_found negative_words text_lower in
  if (pos_count <? neg_count)%nat then "negative"
  else if (neg_count <? pos_count)%nat then "positive"
  else "neutral".

End Sentiment.

(* ===================================================================== *)
(** * emotion_processor.py                                                *)
(* ===================================================================== *)

Module Emotion.

Import Patterns.

(** The word lists of [emotion_lexicons], in the order of the source. *)
Definition joy_words : list string :=
  ["senang"; "gembira"; "bahagia"; "suka"; "riang"; "ceria"; "sumringah";
   "girang"; "sukacita"; "bergembira"; "bersuka"; "riang gembira"; "puas";
   "memuaskan"; "terpuaskan"; "satisfying"; "satisfied"; "content"; "lega";
   "tenang"; "nyaman"; "aman"; "damai"; "tenteram"; "mantap"; "mantul";
   "mantab"; "josss"; "jos"; "joss"; "juara"; "super"; "bagus"; "keren";
   "hebat"; "top"; "terbaik"; "maksimal"; "optimal"; "excellent"; "good";
   "great"; "awesome"; "fantastic"; "wonderful"; "amazing"; "outstanding";
   "brilliant"; "superb"; "magnificent"; "sukses"; "berhasil"; "success";
   "successful"; "winning"; "win"; "berjaya"; "menang"; "lancar"; "mulus";
   "sempurna"; "perfect"; "cepat"; "kilat"; "instant"; "responsif"; "fast";
   "quick"; "rapid"; "efisien"; "smooth"; "lancar jaya"; "terima kasih";
   "terimakasih"; "makasih"; "thanks"; "thank you"; "appreciate"; "grateful";
   "syukur"; "alhamdulillah"; "terima"; "recommended"; "recommend";
   "terpercaya"; "trusted"; "reliable"; "worth it"; "worthed"; "oke banget";
   "ok banget"; "cocok"; "unggul"; "superior"; "terdepan"; "nomor satu";
   "no 1"; "number one"; "profesional"; "berkualitas"; "kualitas"; "quality";
   "premium"; "seneng"; "happy"; "happiness"; "cheerful"; "joyful";
   "delighted"; "seru"; "asik"; "asyik"; "menyenangkan"; "fun"; "enjoyable";
   "love"; "suka banget"; "cinta"; "favorit"; "favorite"; "fav";
   "terfavorit"; "kesukaan"; "idola"; "kagum"; "mengagumkan"; "impressive";
   "impressed"; "inspiring"; "memukau"; "menakjubkan"; "spektakuler";
   "spectacular"; "stabil"; "stable"; "konsisten"; "consistent"; "terjamin";
   "solid"; "kuat"; "tangguh"; "handal"]%string.

Definition anger_words : list string :=
  ["marah"; "angry"; "anger"; "rage"; "furious"; "mad"; "murka"; "geram";
   "mengamuk"; "berang"; "gusar"; "kesal"; "jengkel"; "dongkol"; "sebal";
   "sebel"; "annoyed"; "annoying"; "menyebalkan"; "menjengkelkan";
   "irritated"; "upset"; "gondok"; "gemes"; "geregetan"; "bete"; "bt";
   "benci"; "hate"; "hatred"; "muak"; "jijay"; "antipati"; "tidak suka";
   "ga suka"; "gak suka"; "nggak suka"; "bangsat"; "sialan"; "kampret";
   "brengsek"; "keparat"; "bajingan"; "fuck"; "shit"; "damn"; "hell";
   "asshole"; "bitch"; "anjing"; "anjir"; "anjay"; "anjrit"; "anj"; "ajg";
   "anjg"; "goblok"; "tolol"; "bodoh"; "idiot"; "stupid"; "dungu"; "bego";
   "tai"; "kontol"; "memek"; "pepek"; "jancuk"; "jancok";
   "tidak profesional"; "ga profesional"; "gak profesional";
   "kurang profesional"; "unprofessional"; "amatir"; "amateur"; "asal";
   "sembarangan"; "acak"; "ngaco"; "kacau"; "chaos"; "payah"; "parah";
   "teruk"; "jelek banget"; "buruk sekali"; "worst"; "terrible"; "horrible";
   "awful"; "disgusting"; "menyebalkan"; "mengecewakan"; "disappointing";
   "protes"; "complain"; "komplain"; "keluhkan"; "report"; "laporkan";
   "somasi"; "tuntut"; "gugat"; "boikot"; "boycott"; "blacklist"; "batalkan";
   "cancel"; "unsubscribe"; "berhenti"; "stop"; "jangan lagi"; "kapok";
   "curang"; "tipu"; "bohong"; "penipuan"; "scam"; "fraud"; "nipu"; "menipu";
   "penipu"; "pembohong"; "liar"; "hoax"]%string.

Definition sadness_words : list string :=
  ["sedih"; "sad"; "sadness"; "sorrow"; "grief"; "unhappy"; "duka"; "pilu";
   "nelangsa"; "sendu"; "murung"; "gloomy"; "kecewa"; "disappointed";
   "disappointing"; "mengecewakan"; "zonk"; "gagal"; "failure"; "failed";
   "fail"; "hancur"; "broken"; "terpuruk"; "jatuh"; "down"; "depresi";
   "depressed"; "depression"; "hopeless"; "putus asa"; "frustasi";
   "frustrated"; "frustrasi"; "stress"; "tertekan"; "galau"; "bingung";
   "confused"; "lost"; "tersesat"; "ragu"; "doubt"; "uncertain";
   "tidak yakin"; "menyesal"; "regret"; "rugi"; "loss"; "sia sia"; "percuma";
   "sayang"; "kasihan"; "pity"; "pathetic"; "menyedihkan"; "capek"; "lelah";
   "tired"; "exhausted"; "burnout"; "jenuh"; "bosan"; "bored"; "boring";
   "membosankan"; "penat"; "letih"; "lemas"; "lemah"; "weak"; "menyerah";
   "give up"; "resign"; "pasrah"; "tamat"; "berakhir"; "end"; "ending";
   "selesai sudah"; "habis"; "rindu"; "miss"; "missing"; "hilang";
   "kehilangan"; "lost"; "pergi"; "gone"; "ditinggal"; "abandoned";
   "menderita"; "suffering"; "sakit"; "pain"; "painful"; "tersiksa";
   "torture"; "sengsara"; "misery"; "miserable"; "tragis"; "tragic";
   "tragedy"; "tragedi"; "naas"; "malang"; "sial"; "unlucky"; "nasib buruk"]%string.

Definition fear_words : list string :=
  ["takut"; "fear"; "scared"; "afraid"; "frightened"; "terrified"; "ngeri";
   "seram"; "menakutkan"; "scary"; "spooky"; "creepy"; "khawatir"; "worried";
   "worry"; "concern"; "concerned"; "cemas"; "anxious"; "anxiety"; "gelisah";
   "resah"; "risau"; "was was"; "was-was"; "waswas"; "hawatir"; "panik";
   "panic"; "kalut"; "kacau"; "bingung panik"; "deg degan"; "deg-degan";
   "tegang"; "tense"; "nervous"; "grogi"; "gugup"; "gemetar"; "trembling";
   "bahaya"; "dangerous"; "danger"; "berbahaya"; "unsafe"; "berisiko";
   "risky"; "risk"; "rawan"; "rawan bahaya"; "ancaman"; "threat";
   "mengancam"; "threatening"; "tidak aman"; "ga aman"; "gak aman";
   "insecure"; "rawan"; "rentan"; "vulnerable"; "lemah"; "horor"; "horror";
   "menyeramkan"; "mengerikan"; "horrifying"; "menakutkan"; "frightening";
   "terrifying"; "trauma"; "traumatic"; "fobia"; "phobia"; "nightmare";
   "mimpi buruk"; "ketakutan"; "paranoid"; "paranoia"; "ragu takut";
   "takut takut"; "was was"; "jangan jangan"; "mudah mudahan tidak";
   "semoga tidak"; "hopefully not"; "shock"; "shocked"; "kaget takut";
   "terkejut takut"; "oh no"; "oh tidak"; "aduh"; "ampun"; "tolong";
   "jangan sampai"; "mudah mudahan aman"; "hati hati"; "waspada"; "alert";
   "awas"; "careful"; "be careful"]%string.

Definition surprise_words : list string :=
  ["kaget"; "terkejut"; "surprised"; "surprise"; "shocking"; "shocked";
   "shock"; "mengejutkan"; "mencengangkan"; "heran"; "terheran"; "wonder";
   "wondering"; "curious"; "penasaran"; "aneh"; "strange"; "weird"; "odd";
   "takjub"; "amazed"; "amazing"; "awe"; "awesome"; "menakjubkan"; "memukau";
   "impressive"; "spectacular"; "tidak percaya"; "ga percaya"; "gak percaya";
   "unbelievable"; "incredible"; "serius"; "serious"; "beneran"; "really";
   "masa"; "masa sih"; "apa iya"; "benarkah"; "is it true"; "unexpected";
   "tiba tiba"; "tiba-tiba"; "mendadak"; "terduga"; "tidak terduga";
   "diluar dugaan"; "ternyata"; "rupanya"; "oh ternyata"; "oh rupanya";
   "wow"; "woah"; "waw"; "wih"; "wiw"; "wah"; "weh"; "gila"; "gile"; "gokil";
   "gilak"; "gilaaa"; "anjir"; "anjay"; "anjrit"; "astaga"; "astagfirullah";
   "masyaallah"; "subhanallah"; "ya allah"; "ya ampun"; "serius";
   "serius nih"; "beneran"; "kok bisa"; "gimana bisa"; "how come"; "what";
   "apa"; "hah"; "lho"; "loh"; "lo"; "eh"; "eeh"; "heh"; "ha"; "what the";
   "omg"; "oh my god"; "oh my"; "god"; "demi apa"; "demi tuhan"; "ampun dah";
   "asli"; "bener bener"; "plot twist"; "twist"; "balik"; "kebalikan";
   "berlawanan"; "kontras"; "berbeda"; "beda banget"]%string.

Definition disgust_words : list string :=
  ["jijik"; "jijay"; "disgusting"; "disgust"; "gross"; "ew"; "eww"; "yuck";
   "yikes"; "ugh"; "muak"; "mual"; "enek"; "eneg"; "muntah"; "nauseous";
   "pengen muntah"; "mau muntah"; "bikin mual"; "bikin muntah"; "jorok";
   "kotor"; "dirty"; "filthy"; "najis"; "cemar"; "busuk"; "bau"; "smelly";
   "stink"; "basi"; "rotten"; "menjijikkan"; "hina"; "rendah"; "low";
   "despicable"; "memalukan"; "shameful"; "shame"; "embarrassing"; "buruk";
   "jelek"; "ugly"; "bad"; "terrible"; "awful"; "horrible"; "worst";
   "terburuk"; "paling jelek"; "sampah"; "trash"; "garbage"; "rubbish";
   "waste"; "menyeramkan"; "mengerikan"; "horrifying"; "horrific";
   "menakutkan"; "disturbing"; "disturb"; "mengganggu"; "keji"; "kejam";
   "cruel"; "sadis"; "sadistic"; "biadab"; "brutal"; "kasar"; "harsh";
   "rough"; "tolak"; "reject"; "menolak"; "tidak mau"; "ga mau"; "ogah";
   "males"; "kapok"; "jangan"; "no way"; "parah"; "parah banget"; "teruk";
   "buruk sekali"; "ancur"; "hancur"; "destroyed"; "rusak parah"; "tai";
   "taik"; "shit"; "crap"; "poop"; "babi"; "pig"; "swine"; "bangkai";
   "sampah masyarakat"]%string.

(** [self.emotion_lexicons]: the categories in their enumeration order. *)
Definition emotion_lexicons : list (string * list string) :=
  [("joy", joy_words); ("anger", anger_words); ("sadness", sadness_words);
   ("fear", fear_words); ("surprise", surprise_words);
   ("disgust", disgust_words)]%string.

(** The entries of [emoji_dict] in [preprocess_text], as the source file
    spells them. Keys that occur twice keep their first position and their
    last value. *)
Definition emoji_entries : list (list Z * string) :=
  [([240;376;732;8364], "senang gembira"); ([240;376;732;402], "senang riang");
   ([240;376;732;8222], "senang ceria"); ([240;376;732], "senang senyum");
   ([240;376;732;8224], "tertawa senang"); ([240;376;732;8230], "senang lega");
   ([240;376;164;163], "tertawa bahagia"); ([240;376;732;8218], "lucu senang");
   ([240;376;8482;8218], "senang"); ([240;376;8482;402], "senang");
   ([239;191;189;239;191;189], "senang"); ([240;376;732;352], "senang puas");
   ([240;376;732;8225], "senang baik"); ([240;376;165;176], "suka cinta");
   ([240;376;732], "suka cinta"); ([240;376;164;169], "kagum senang");
   ([240;376;732;732], "suka sayang"); ([240;376;732;8212], "suka");
   ([226;732;186;239;184], "senang"); ([240;376;732;353], "suka"); ([240;376;732;8482], "suka");
   ([240;376;165;178], "senang terharu"); ([240;376;732;8249], "senang nikmat");
   ([240;376;732;8250], "senang"); ([240;376;732;339], "senang seru");
   ([240;376;164;170], "senang gokil"); ([240;376;732], "senang");
   ([240;376;164;8216], "senang untung"); ([240;376;164;8212], "senang hangat");
   ([240;376;164;173], "senang malu"); ([240;376;171;162], "kaget senang");
   ([240;376;171;163], "senang malu"); ([240;376;164;171], "senang");
   ([240;376;164;8221], "heran"); ([240;376;171;161], "bagus"); ([240;376;164], "diam");
   ([226;164;239;184], "suka cinta love"); ([240;376;167;161], "suka cinta");
   ([240;376;8217;8250], "suka cinta"); ([240;376;8217;353], "suka cinta");
   ([240;376;8217;8482], "suka cinta"); ([240;376;8217;339], "suka cinta");
   ([240;376;8211;164], "suka"); ([240;376;164], "suka cinta"); ([240;376;164;381], "suka");
   ([240;376;8217;8226], "suka cinta"); ([240;376;8217;382], "suka cinta");
   ([240;376;8217;8220], "suka cinta"); ([240;376;8217;8212], "suka cinta");
   ([240;376;8217;8211], "suka cinta"); ([240;376;8217;732], "suka cinta");
   ([240;376;8217], "suka cinta"); ([240;376;8217;376], "suka cinta");
   ([226;163;239;184], "suka cinta");
   ([226;164;239;184;226;8364;240;376;8221;165], "suka cinta mantap");
   ([226;164;239;184;226;8364;240;376;169;185], "sedih kecewa");
   ([240;376;8216], "bagus setuju oke"); ([240;376;8216], "bagus hebat");
   ([240;376;8482;338], "bagus senang"); ([240;376;8216;338], "oke bagus");
   ([240;376;164;338], "bagus"); ([240;376;164], "sedikit");
   ([226;339;338;239;184], "bagus damai"); ([240;376;164;382], "berharap");
   ([240;376;171;176], "bagus"); ([240;376;164;376], "suka love"); ([240;376;164;732], "keren");
   ([240;376;164;8482], "oke"); ([240;376;8216;710], "ini"); ([240;376;8216;8240], "itu");
   ([240;376;8216;8224], "atas"); ([240;376;171;181], "kamu"); ([240;376;8216;8225], "bawah");
   ([226;732;239;184], "penting"); ([240;376;8216;352], "semangat"); ([226;339;352], "semangat");
   ([240;376;164;8250], "semangat"); ([240;376;164;339], "semangat");
   ([240;376;171;182], "cinta suka"); ([240;376;8482], "terima kasih mohon");
   ([240;376;8221;165], "mantap bagus keren"); ([240;376;8217;175], "bagus sempurna maksimal");
   ([226;173], "bagus bintang"); ([240;376;338;376], "bagus cemerlang");
   ([226;339;168], "bagus cemerlang"); ([240;376;8217;171], "bagus");
   ([226;353;161], "cepat mantap"); ([240;376;8217;165], "mantap dahsyat");
   ([240;376;381;8240], "senang perayaan"); ([240;376;381;352], "senang perayaan");
   ([240;376;381;710], "senang"); ([240;376;381], "senang hadiah"); ([240;376;381;8364], "senang");
   ([240;376;381;8224], "senang perayaan"); ([240;376;381;8225], "senang perayaan");
   ([240;376;167;168], "perayaan"); ([240;376;8224], "juara sukses menang");
   ([240;376;165;8225], "juara terbaik"); ([240;376;165;710], "bagus");
   ([240;376;165;8240], "bagus"); ([240;376;8230], "juara bagus");
   ([240;376;381;8211;239;184], "bagus"); ([240;376;732;160], "marah kesal");
   ([240;376;732;161], "marah geram"); ([240;376;164;172], "marah bangsat");
   ([240;376;732;164], "kesal dongkol"); ([240;376;732;190], "marah kesal");
   ([240;376;8216;191], "marah jahat"); ([240;376;732;710], "jahat");
   ([240;376;8217;162], "marah kesal"); ([240;376;8217;165], "marah meledak");
   ([240;376;8221;170], "bahaya marah"); ([240;376;8212;161;239;184], "bahaya marah");
   ([226;353;8221;239;184], "perang marah"); ([240;376;8217;163], "marah meledak");
   ([240;376;167;168], "marah meledak"); ([240;376;8216;381], "jelek buruk tidak setuju");
   ([240;376;8211;8226], "marah bangsat"); ([226;339;8249], "stop berhenti");
   ([240;376;8250;8216], "stop berhenti"); ([226;8250;8221], "tidak boleh");
   ([240;376;353;171], "tidak boleh dilarang"); ([226;338], "salah tidak boleh");
   ([226;381], "salah tidak"); ([226;173;8226], "salah"); ([240;376;353;183], "dilarang");
   ([240;376;353;175], "dilarang"); ([240;376;353;179], "dilarang");
   ([240;376;353;177], "dilarang"); ([240;376;8220;181], "dilarang");
   ([240;376;8221;382], "dilarang"); ([226;732;162;239;184], "bahaya");
   ([226;732;163;239;184], "bahaya"); ([226;353;160;239;184], "bahaya hati hati");
   ([240;376;732;162], "sedih menangis"); ([240;376;732;173], "sedih menangis kecewa");
   ([240;376;732;191], "sedih menangis"); ([240;376;732;165], "sedih kecewa");
   ([240;376;732;176], "sedih cemas"); ([240;376;732;8220], "sedih capek");
   ([240;376;732;382], "sedih kecewa"); ([240;376;732;8221], "sedih murung");
   ([240;376;732;376], "sedih khawatir"); ([240;376;732;8226], "sedih bingung");
   ([240;376;8482], "sedih"); ([226;732;185;239;184], "sedih");
   ([240;376;732;163], "sedih frustasi"); ([240;376;732;8211], "sedih tersiksa");
   ([240;376;732;171], "sedih lelah"); ([240;376;732;169], "sedih frustasi");
   ([240;376;165;186], "sedih kasihan mohon"); ([240;376;732;170], "sedih lelah");
   ([240;376;164;164], "sedih"); ([240;376;732;180], "bosan lelah");
   ([240;376;732;181], "pusing bingung");
   ([240;376;732;181;226;8364;240;376;8217;171], "pusing bingung"); ([240;376;171;164], "kecewa");
   ([240;376;165;177], "bosan"); ([240;376;732;174;226;8364;240;376;8217;168], "lelah lega");
   ([240;376;732;182;226;8364;240;376;338;171;239;184], "bingung");
   ([240;376;8217;8221], "sedih kecewa patah hati"); ([240;376;8211;164], "sedih gelap");
   ([226;353;171], "sedih gelap"); ([240;376;8217;8364], "mati hancur");
   ([226;732;160;239;184], "mati hancur"); ([240;376;8216;187], "takut");
   ([240;376;732;168], "takut cemas"); ([240;376;732;177], "takut shock");
   ([240;376;732;176], "takut khawatir"); ([240;376;732;167], "takut cemas");
   ([240;376;732;166], "takut kaget"); ([240;376;732;174], "kaget takut");
   ([240;376;732;175], "kaget heran"); ([240;376;732;178], "kaget shock");
   ([240;376;171;168], "takut gemetar"); ([240;376;732;179], "kaget malu");
   ([240;376;165;182], "takut dingin"); ([240;376;171;163], "takut malu");
   ([240;376;732;172], "takut canggung"); ([240;376;171;162], "kaget takut");
   ([240;376;164], "takut diam"); ([240;376;8482;352], "takut");
   ([240;376;8482;710], "takut malu"); ([240;376;8482;8240], "takut");
   ([240;376;8216;185], "takut seram"); ([240;376;8216;186], "takut marah");
   ([240;376;8217;8364], "takut mati"); ([226;732;160;239;184], "bahaya takut");
   ([240;376;8216;187], "takut hantu"); ([240;376;8216;189], "takut aneh");
   ([240;376;8216;190], "takut"); ([240;376;164;8211], "robot");
   ([240;376;732;710], "jahat takut"); ([240;376;8216;191], "jahat marah takut");
   ([240;376;8221;165], "bahaya"); ([240;376;732;174], "kaget heran");
   ([240;376;732;175], "kaget heran"); ([240;376;732;178], "kaget shock wow");
   ([240;376;164;175], "kaget gila shock"); ([240;376;732;179], "kaget malu heran");
   ([240;376;171;162], "kaget"); ([240;376;171;163], "kaget"); ([240;376;164;173], "kaget");
   ([240;376;732;177], "kaget shock takut"); ([240;376;8482;8364], "kaget shock");
   ([240;376;732;167], "kaget cemas"); ([240;376;732;166], "kaget");
   ([240;376;171;168], "kaget gemetar"); ([240;376;164;8221], "heran bingung");
   ([240;376;167], "heran"); ([240;376;171;165], "heran hilang");
   ([240;376;732;182], "heran diam"); ([240;376;171;161], "wow");
   ([240;376;8217;165], "wow dahsyat"); ([240;376;8217;171], "wow");
   ([226;339;168], "wow cemerlang"); ([240;376;338;376], "wow bintang"); ([226;173], "wow");
   ([240;376;338;160], "wow"); ([240;376;381;8224], "wow"); ([240;376;381;8225], "wow");
   ([240;376;167;168], "wow"); ([240;376;164;175], "gila wow shock");
   ([240;376;381;8240], "wow perayaan"); ([240;376;381;352], "wow perayaan");
   ([240;376;164;162], "mual jijik"); ([240;376;164;174], "muntah jijik mual");
   ([240;376;164;167], "sakit"); ([240;376;732;183], "sakit"); ([240;376;164;8217], "sakit");
   ([240;376;164;8226], "sakit"); ([240;376;165;180], "mual pusing");
   ([240;376;732;181], "pusing"); ([240;376;171;160], "hancur"); ([240;376;164;8216], "serakah");
   ([240;376;165;181], "panas"); ([240;376;165;182], "dingin");
   ([240;376;8217;169], "tai jelek jijik"); ([240;376;353;189], "toilet");
   ([240;376;167;187], "kotor"); ([240;376;8212;8216;239;184], "sampah jelek");
   ([226;8482;187;239;184], "daur ulang"); ([226;353;176;239;184], "mati");
   ([240;376;170;166], "mati"); ([240;376;169;184], "darah"); ([240;376;166;160], "virus jijik");
   ([240;376;8364], "tikus jijik"); ([240;376], "tikus");
   ([240;376;8226;183;239;184], "laba jijik"); ([240;376;166;8218], "kalajengking bahaya");
   ([240;376], "ular bahaya"); ([240;376;732], "datar"); ([240;376;732;8216], "datar bosan");
   ([240;376;732;182], "diam"); ([240;376;171;165], "hilang"); ([240;376;8482;8222], "bosan");
   ([240;376;732], "sinis"); ([240;376;732;8217], "bosan malas");
   ([240;376;164;168], "curiga heran"); ([240;376;167], "heran"); ([240;376;164;8220], "pintar");
   ([240;376;732;381], "keren"); ([240;376;165;184], "menyamar");
   ([240;376;164;161], "badut lucu"); ([240;376;165;179], "senang perayaan");
   ([240;376;165;180], "mabuk pusing"); ([240;376;732;338], "tenang");
   ([240;376;732;8221], "sedih"); ([240;376;732;170], "ngantuk bosan");
   ([226;339;8230], "benar bagus setuju"); ([226;732;8216;239;184], "benar setuju");
   ([226;339;8221;239;184], "benar bagus"); ([240;376;8217;353], "oke bagus");
   ([240;376;8224;8212], "oke"); ([240;376;8224;8217], "keren"); ([240;376;8224;8226], "baru");
   ([240;376;8224;8220], "gratis"); ([240;376;381;175], "tepat bagus");
   ([240;376;8220;710], "naik bagus"); ([240;376;8220;8240], "turun jelek");
   ([240;376;8217;185], "untung"); ([240;376;8217;184], "mahal rugi");
   ([240;376;8217;176], "uang untung"); ([240;376;8217;181], "uang"); ([240;376;8217;180], "uang");
   ([240;376;8217;182], "uang"); ([240;376;8217;183], "uang");
   ([240;376;164;8216], "untung serakah"); ([240;376;167], "atm uang");
   ([240;376;8220;177], "hp telepon"); ([240;376;8220;178], "telepon");
   ([226;732;381;239;184], "telepon"); ([240;376;8220;382], "telepon");
   ([240;376;8220;376], "pager"); ([240;376;8220;160], "fax");
   ([240;376;8217;187], "komputer laptop"); ([240;376;8211;165;239;184], "komputer");
   ([226;338;168;239;184], "keyboard"); ([240;376;8211;177;239;184], "mouse");
   ([240;376;8211;168;239;184], "printer"); ([240;376;8217;190], "save");
   ([240;376;8217;191], "cd"); ([240;376;8220;8364], "dvd"); ([240;376;167;174], "hitung");
   ([240;376;8220;182], "sinyal internet"); ([240;376;8220;161], "sinyal antena");
   ([240;376;8250;339], "wifi"); ([240;376;8220;179], "getar"); ([240;376;8220;180], "mati");
   ([240;376;8221;8249], "baterai"); ([240;376;170;171], "lowbat");
   ([240;376;8221;338], "charger"); ([240;376;8217;161], "ide bagus");
   ([240;376;8221;166], "lampu"); ([240;376;8226;175;239;184], "lilin");
   ([240;376;170;8221], "lampu"); ([226;353;161], "cepat kilat"); ([240;376;8217;168], "cepat");
   ([240;376;402], "lari cepat"); ([240;376;402;226;8364;226;8482;8364;239;184], "lari cepat");
   ([240;376;402;226;8364;226;8482;8218;239;184], "lari cepat"); ([226;176], "waktu");
   ([226;177;239;184], "waktu"); ([226;178;239;184], "waktu"); ([226;338;353], "jam");
   ([226;338;8250], "waktu habis"); ([226;179], "waktu"); ([240;376;8226], "jam");
   ([240;376;8226;8216], "jam"); ([240;376;8226;8217], "jam");
   ([226;732;8364;239;184], "cerah bagus"); ([240;376;338;164;239;184], "bagus");
   ([226;8250;8230], "oke"); ([240;376;338;165;239;184], "mendung");
   ([226;732;239;184], "mendung"); ([240;376;338;166;239;184], "hujan");
   ([240;376;338;167;239;184], "hujan sedih"); ([226;8250;710;239;184], "badai");
   ([240;376;338;169;239;184], "petir bahaya"); ([226;353;161], "petir cepat");
   ([226;8222;239;184], "dingin"); ([240;376;338;168;239;184], "salju");
   ([226;732;402;239;184], "salju"); ([226;8250;8222], "salju");
   ([240;376;338;172;239;184], "angin"); ([240;376;8217;167], "air");
   ([240;376;8217;166], "basah"); ([226;732;8221], "hujan"); ([240;376;338;352], "ombak");
   ([240;376;338;710], "bagus indah")].

Definition emoji_dict : list (pystr * pystr) :=
  dict_display (List.map (fun kv => (fst kv, py (snd kv))) emoji_entries).

(** [http[s]?://\S+]: the optional [s] is tried first. *)
Definition url_http (u : pystr) : option (nat * pystr) :=
  let non_space := fun c => negb (is_space c) in
  match lit_then_run (py "https://") non_space erase u with
  | Some r => Some r
  | None => lit_then_run (py "http://") non_space erase u
  end.

(** [www\.\S+] *)
Definition url_www : pystr -> option (nat * pystr) :=
  lit_then_run (py "www.") (fun c => negb (is_space c)) erase.

(** The body of [preprocess_text], on a string. *)
Definition clean (db : ucd) (text : pystr) : pystr :=
  let text := Sentiment.convert_emoji emoji_dict text in
  let text := re_sub url_http text in
  let text := re_sub url_www text in
  let text := re_sub (mention db) text in
  let text := re_sub (hashtag db) text in
  let text := re_sub emoji_pattern text in
  let text := lower db text in
  let text := re_sub repeated text in
  let text := re_sub (special db) text in
  strip (re_sub whitespace text).

(** [EmotionProcessor.preprocess_text] *)
Definition preprocess_text (db : ucd) (text : pyval) : pystr :=
  if isna text || is_empty_str text then []
  else clean db (str text).

(** [EmotionProcessor.preprocess_text] on an argument of any kind; [None]
    when the call raises, which the guard does on a list as in the
    sentiment engine. *)
Definition preprocess_any (db : ucd) (text : pyarg) : option pystr :=
  match text with
  | Cell v => Some (preprocess_text db v)
  | Items _ _ _ => None
  | Other repr => Some (clean db repr)
  end.

(** The points one lexicon entry contributes: 2 for a match delimited by
    spaces, 1 for a bare substring match, 0 otherwise. *)
Definition word_score (text_lower : pystr) (word : string) : Z :=
  if contains (py word) text_lower then
    if contains (32 :: py word ++ [32]) (32 :: text_lower ++ [32])
    then 2 else 1
  else 0.

(** The score one category has accumulated after the loop over its words. *)
Definition lexicon_score (text_lower : pystr) (words : list string) : Z :=
  fold_left (fun score word => score + word_score text_lower word) words 0.

(** [emotion_scores] after the counting loop, in dictionary order. *)
Definition emotion_scores (db : ucd) (text : pystr) : list (string * Z) :=
  let text_lower := lower db text in
  List.map (fun kv => (fst kv, lexicon_score text_lower (snd kv)))
           emotion_lexicons.

(** [max(emotion_scores.values())] *)
Definition max_score (scores : list (string * Z)) : Z :=
  match scores with
  | [] => 0
  | (_, s) :: rest => fold_left Z.max (List.map snd rest) s
  end.

(** [for emotion, score in emotion_scores.items():
       if score == max_score: return emotion] *)
Fixpoint first_with (m : Z) (scores : list (string * Z)) : option string :=
  match scores with
  | [] => None
  | (emotion, score) :: rest =>
    if score =? m then Some emotion else first_with m rest
  end.

(** [EmotionProcessor.predict_emotion] *)
Definition predict_emotion (db : ucd) (text : pystr) : string :=
  if bool_decide (text = []) || (length (strip text) =? 0)%nat then "neutral"
  else
    let scores := emotion_scores db text in
    let m := max_score scores in
    if m =? 0 then "neutral"
    else match first_with m scores with
         | Some emotion => emotion
         | None => "neutral"
         end.

End Emotion.

(* ===================================================================== *)
(** * The label distribution of the two reports                           *)
(* ===================================================================== *)

Module Reports.

(** One row of the analysed frame: the columns the distribution reads. *)
Record row : Type := { cleaned_text : pystr; label : string }.

(** The value stored under one label of a distribution. *)
Record dist_entry : Type := { count : Z; percentage : Q }.

(** [df[column].value_counts().to_dict()] *)
Definition value_counts (labels : list string) : gmap string Z :=
  fold_left (fun counts l => <[l := default 0 (counts !! l) + 1]> counts)
            labels ∅.

(** [{label: {'count': int(count),
              'percentage': round((count / total) * 100, 2)} ...}] *)
Definition distribution_of (counts : gmap string Z) (total : Z)
  : gmap string dist_entry :=
  (fun count =>
     {| count := count;
        percentage :=
          py_round (fmul (fdiv (inject_Z count) (inject_Z total)) 100) 2 |})
  <$> counts.

Record report : Type :=
  { distribution : gmap string dist_entry; total_analyzed : Z }.

(** [SentimentProcessor.generate_sentiment_report]: the keys
    [sentiment_distribution] and [total_analyzed]. *)
Definition generate_sentiment_report (df : list row) : report :=
  let total := Z.of_nat (length df) in
  let sentiment_counts := value_counts (List.map label df) in
  {| distribution := distribution_of sentiment_counts total;
     total_analyzed := total |}.

(** [EmotionProcessor.generate_emotion_report]: the keys
    [emotion_distribution] and [total_analyzed]. *)
Definition generate_emotion_report (df : list row) : report :=
  let total := Z.of_nat (length df) in
  let emotion_counts := value_counts (List.map label df) in
  {| distribution := distribution_of emotion_counts total;
     total_analyzed := total |}.

(** [sum(entry['count'] for entry in distribution.values())] *)
Definition sum_counts (d : gmap string dist_entry) : Z :=
  map_fold (fun _ entry acc => count entry + acc) 0 d.

(** What both report generators guarantee about a distribution. *)
Definition consistent (df : list row) (r : report) : Prop :=
  total_analyzed r = Z.of_nat (length df)
  /\ sum_counts (distribution r) = total_analyzed r
  /\ forall l e,
      distribution r !! l = Some e ->
      count e = Z.of_nat (count_occ string_dec (List.map label df) l)
      /\ percentage e
         = py_round (fmul (fdiv (inject_Z (count e))
                                (inject_Z (total_analyzed r))) 100) 2.

End Reports.

(* ===================================================================== *)
(** * recommendation_processor.py                                         *)
(* ===================================================================== *)

Module Recommendation.

Import Reports.

Inductive priority : Type := critical | high | medium | low.

(** [self.priority_levels[p]['weight']] *)
Definition weight (p : priority) : Z :=
  match p with
  | critical => 1
  | high => 2
  | medium => 3
  | low => 4
  end.

(** A recommendation record. Its description, steps, impact and effort
    are fixed texts of the rule that emitted it and are not carried. *)
Record recommendation : Type :=
  { category : string; prio : priority; title : string }.

(** [list.sort(key=...)]: Python's sort is stable. *)
Fixpoint insert_by {A : Type} (key : A -> Z) (x : A) (l : list A) : list A :=
  match l with
  | [] => [x]
  | y :: r => if key x <=? key y then x :: l else y :: insert_by key x r
  end.

Definition sort_by {A : Type} (key : A -> Z) (l : list A) : list A :=
  fold_right (insert_by key) [] l.

(** [dist.get(name, {}).get('percentage', 0)] *)
Definition pct (dist : gmap string dist_entry) (name : string) : Q :=
  match dist !! name with
  | Some entry => percentage entry
  | None => 0%Q
  end.

Definition Qlt_bool (a b : Q) : bool := negb (Qle_bool b a).

(** [_analyze_sentiment]. The argument is [None] when the report is empty
    or has no key [sentiment_distribution]. *)
Definition _analyze_sentiment (sentiment_data : option (gmap string dist_entry))
  : list recommendation :=
  match sentiment_data with
  | None => []
  | Some dist =>
    let negative_pct := pct dist "negative" in
    let positive_pct := pct dist "positive" in
    let neutral_pct := pct dist "neutral" in
    (if Qlt_bool 40 negative_pct then
       [{| category := "Sentiment"; prio := critical;
           title := "High Negative Sentiment Detected" |}]
     else if Qlt_bool 25 negative_pct then
       [{| category := "Sentiment"; prio := high;
           title := "Moderate Negative Sentiment" |}]
     else [])
    ++ (if Qlt_bool positive_pct 30 then
          [{| category := "Sentiment"; prio := high;
              title := "Low Positive Sentiment" |}]
        else [])
    ++ (if Qlt_bool 50 neutral_pct then
          [{| category := "Sentiment"; prio := medium;
              title := "High Neutral Sentiment" |}]
        else [])
  end.

(** [_analyze_emotions] *)
Definition _analyze_emotions (emotion_data : option (gmap string dist_entry))
  : list recommendation :=
  match emotion_data with
  | None => []
  | Some dist =>
    let anger_pct := pct dist "anger" in
    let sadness_pct := pct dist "sadness" in
    let fear_pct := pct dist "fear" in
    let joy_pct := pct dist "joy" in
    let disgust_pct := pct dist "disgust" in
    (if Qlt_bool 15 anger_pct then
       [{| category := "Emotion"; prio := critical;
           title := "High Anger Levels Detected" |}]
     else [])
    ++ (if Qlt_bool 5 fear_pct then
          [{| category := "Emotion"; prio := high;
              title := "Customer Anxiety Detected" |}]
        else [])
    ++ (if Qlt_bool 10 sadness_pct then
          [{| category := "Emotion"; prio := high;
              title := "High Disappointment Levels" |}]
        else [])
    ++ (if Qlt_bool joy_pct 25 then
          [{| category := "Emotion"; prio := medium;
              title := "Low Joy/Satisfaction Levels" |}]
        else [])
    ++ (if Qlt_bool 5 disgust_pct then
          [{| category := "Emotion"; prio := critical;
              title := "Disgust/Strong Negative Reactions" |}]
        else [])
  end.

(** An entry of [topic_engagement]: the keys [topic_label] and
    [total_engagement]. *)
Record topic : Type := { topic_label : string; topic_total : Z }.

(** [_analyze_topics]. The argument is [None] when the report is empty or
    has no key [topic_engagement]. *)
Definition _analyze_topics (topic_data : option (list topic))
  : list recommendation :=
  match topic_data with
  | None => []
  | Some topic_engagement =>
    (* sorted(..., key=total_engagement, reverse=True) *)
    let sorted_topics :=
      sort_by (fun x => - topic_total x) topic_engagement in
    match sorted_topics with
    | [] => []
    | top_topic :: _ =>
      {| category := "Topics"; prio := medium;
         title := "Top Performing Topic: " +:+ topic_label top_topic |}
      :: (if (2 <? length sorted_topics)%nat then
            let low_topic := List.last sorted_topics top_topic in
            [{| category := "Topics"; prio := low;
                title := "Low Engagement Topic: " +:+ topic_label low_topic |}]
          else [])
    end
  end.

Record type_engagement : Type := { type_name : string; type_total : Z }.

(** The keys of [engagement_data] that the processor reads; [None] for an
    absent key. *)
Record engagement : Type :=
  { engagement_by_type : option (list type_engagement);
    total_engagement : option Z;
    total_posts : option Z }.

(** [total_engagement / total_posts if total_posts > 0 else 0] *)
Definition per_post (total_engagement total_posts : Z) : Q :=
  if 0 <? total_posts
  then fdiv (inject_Z total_engagement) (inject_Z total_posts)
  else 0%Q.

(** [_analyze_engagement]. The argument is [None] for an empty report. *)
Definition _analyze_engagement (engagement_data : option engagement)
  : list recommendation :=
  match engagement_data with
  | None => []
  | Some data =>
    (match engagement_by_type data with
     | None => []
     | Some eng_types =>
       let total_eng := fold_right Z.add 0 (List.map type_total eng_types) in
       let avg_eng :=
         match eng_types with
         | [] => 0%Q
         | _ => fdiv (inject_Z total_eng)
                     (inject_Z (Z.of_nat (length eng_types)))
         end in
       flat_map
         (fun eng_type =>
            if Qlt_bool (inject_Z (type_total eng_type)) (fmul avg_eng 0.5)
            then [{| category := "Engagement"; prio := medium;
                     title := "Low Engagement for " +:+ type_name eng_type |}]
            else [])
         eng_types
     end)
    ++ (match total_engagement data with
        | None => []
        | Some total_engagement =>
          let total_posts := default 1 (total_posts data) in
          let avg_engagement_per_post := per_post total_engagement total_posts in
          if Qlt_bool avg_engagement_per_post 100 then
            [{| category := "Engagement"; prio := high;
                title := "Low Overall Engagement Rate" |}]
          else []
        end)
  end.

(** [_analyze_timing]. The argument is [None] when the report is empty or
    has no key [peak_hours]. *)
Definition _analyze_timing (peak_hours_data : option (list Z))
  : list recommendation :=
  match peak_hours_data with
  | None => []
  | Some [] => []
  | Some (_ :: _) =>
    [{| category := "Timing"; prio := medium;
        title := "Optimize Posting Schedule" |}]
  end.

(** The list [recommendations] before it is sorted. *)
Definition generated (sentiment_data emotion_data : option (gmap string dist_entry))
           (topic_data : option (list topic))
           (engagement_data : option engagement)
           (peak_hours_data : option (list Z)) : list recommendation :=
  _analyze_sentiment sentiment_data
  ++ _analyze_emotions emotion_data
  ++ _analyze_topics topic_data
  ++ _analyze_engagement engagement_data
  ++ _analyze_timing peak_hours_data.

Record scores : Type :=
  { sentiment_score : Q;
    emotion_score : Q;
    engagement_score : Q;
    overall_score : Q;
    rating : string }.

(** The benchmark scale of the engagement score, before rounding. *)
Definition engagement_scale (avg_engagement : Q) : Q :=
  if Qle_bool 200 avg_engagement then 100%Q
  else if Qle_bool 100 avg_engagement then 75%Q
  else if Qle_bool 50 avg_engagement then 50%Q
  else fmul (fdiv avg_engagement 50) 50.

(** The weighted sum of the three stored scores, before rounding:
    [s * 0.35 + e * 0.35 + g * 0.30], where a literal is the float nearest
    to the decimal written. *)
Definition weighted (s e g : Q) : Q :=
  fadd (fadd (fmul s (to_float 0.35)) (fmul e (to_float 0.35)))
       (fmul g (to_float 0.30)).

(** The rating tiers. *)
Definition rating_of (overall_score : Q) : string :=
  if Qle_bool 80 overall_score then "Excellent"
  else if Qle_bool 60 overall_score then "Good"
  else if Qle_bool 40 overall_score then "Fair"
  else "Poor".

(** [_calculate_performance_score] *)
Definition _calculate_performance_score
           (sentiment_data emotion_data : option (gmap string dist_entry))
           (engagement_data : option engagement) : scores :=
  let sentiment_score :=
    match sentiment_data with
    | Some dist =>
      let positive_pct := pct dist "positive" in
      let negative_pct := pct dist "negative" in
      py_round (clamp (fadd (fsub positive_pct negative_pct) 50)) 1
    | None => 0%Q
    end in
  let emotion_score :=
    match emotion_data with
    | Some dist =>
      let joy_pct := pct dist "joy" in
      let anger_pct := pct dist "anger" in
      let sadness_pct := pct dist "sadness" in
      let disgust_pct := pct dist "disgust" in
      py_round
        (clamp (fadd (fsub joy_pct
                           (fadd (fadd anger_pct sadness_pct) disgust_pct))
                     50)) 1
    | None => 0%Q
    end in
  let engagement_score :=
    match engagement_data with
    | Some data =>
      let total_posts := default 1 (total_posts data) in
      let total_engagement := default 0 (total_engagement data) in
      let avg_engagement := per_post total_engagement total_posts in
      py_round (engagement_scale avg_engagement) 1
    | None => 0%Q
    end in
  let overall_score := weighted sentiment_score emotion_score engagement_score in
  {| sentiment_score := sentiment_score;
     emotion_score := emotion_score;
     engagement_score := engagement_score;
     overall_score := py_round overall_score 1;
     rating := rating_of overall_score |}.

(** An entry of the insights summary. Its icon, value and description
    are display texts and are not carried. *)
Record insight : Type := { insight_category : string; insight_title : string }.

(** [_generate_insights]. The dominant sentiment and the dominant emotion
    are [max(dist.items(), key=...)], which raises [ValueError] on a
    distribution without entries: the result is then [None]. *)
Definition _generate_insights
           (sentiment_data emotion_data : option (gmap string dist_entry))
           (topic_data : option (list topic))
           (engagement_data : option engagement)
           (peak_hours_data : option (list Z)) : option (list insight) :=
  let dominant (category title : string) (data : option (gmap string dist_entry)) :=
    match data with
    | None => Some []
    | Some dist =>
      match map_to_list dist with
      | [] => None
      | _ :: _ =>
        Some [{| insight_category := category; insight_title := title |}]
      end
    end in
  match dominant "Sentiment" "Dominant Sentiment" sentiment_data with
  | None => None
  | Some sentiment =>
    match dominant "Emotion" "Dominant Emotion" emotion_data with
    | None => None
    | Some emotion =>
      Some (sentiment ++ emotion
            ++ match engagement_data with
               | Some _ => [{| insight_category := "Engagement";
                               insight_title := "Average Engagement" |}]
               | None => []
               end
            ++ match topic_data with
               | Some (_ :: _) => [{| insight_category := "Topics";
                                      insight_title := "Top Topic" |}]
               | _ => []
               end
            ++ match peak_hours_data with
               | Some (_ :: _) => [{| insight_category := "Timing";
                                      insight_title := "Peak Hours" |}]
               | _ => []
               end)
    end
  end.

Record result : Type :=
  { insights : list insight;
    recommendations : list recommendation;
    priority_actions : list recommendation;
    performance_score : scores;
    total_recommendations : Z }.

(** [generate_recommendations]: [None] when the call raises, which it does
    where [_generate_insights] does, after the recommendations are
    sorted. *)
Definition generate_recommendations
           (sentiment_data emotion_data : option (gmap string dist_entry))
           (topic_data : option (list topic))
           (engagement_data : option engagement)
           (peak_hours_data : option (list Z)) : option result :=
  let recommendations :=
    sort_by (fun x => weight (prio x))
            (generated sentiment_data emotion_data topic_data
                       engagement_data peak_hours_data) in
  match _generate_insights sentiment_data emotion_data topic_data
                           engagement_data peak_hours_data with
  | None => None
  | Some insights =>
    Some {| insights := insights;
            recommendations := recommendations;
            priority_actions :=
              firstn 5 (List.filter
                          (fun r => match prio r with
                                    | critical | high => true
                                    | _ => false
                                    end) recommendations);
            performance_score :=
              _calculate_performance_score sentiment_data emotion_data
                                           engagement_data;
            total_recommendations := Z.of_nat (length recommendations) |}
  end.

End Recommendation.

(* ===================================================================== *)
(** * data_processor.py: peak activity hours                              *)
(* ===================================================================== *)

Module Activity.

Import Recommendation.

(** The feature matrix [X]: one row [[hour, count]] per observed hour. *)
Definition matrix : Type := list (Z * Z).

(** The standardized matrix [X_scaled]: two floats per row of [X]. *)
Definition scaled : Type := list (Q * Q).

(** The calls into scikit-learn, in the order they are made. *)
Inductive call : Type :=
| ScalerFitTransform (X : matrix)
| DbscanFitPredict (X_scaled : scaled)
| PcaFitTransform (X_scaled : scaled).

(** scikit-learn is not part of the repository. [fit_transform X] stands
    for [StandardScaler().fit_transform(X)]; [fit_predict X_scaled] for the
    labels that [DBSCAN(eps=0.5, min_samples=2)] assigns to the rows of the
    standardized matrix; [pca X_scaled] for the projection of the rows and
    the explained-variance ratios, [None] when [PCA(n_components=2)]
    raises. *)
Record sklearn : Type :=
  { fit_transform : matrix -> scaled;
    fit_predict : scaled -> list Z;
    pca : scaled -> option (list (Q * Q) * list Q) }.

Record peak_range : Type :=
  { cluster_id : Z;
    start_hour : Z;
    end_hour : Z;
    range : string;
    avg_activity : Z }.

Record point : Type :=
  { point_x : Q; point_y : Q; point_hour : Z; point_count : Z;
    point_cluster : Z; is_outlier : bool }.

Record peaks : Type :=
  { peak_ranges : list peak_range;
    scatter_points : list point;
    explained_variance : list Q;
    total_hours_analyzed : Z;
    unique_hours : Z;
    num_clusters : Z;
    num_outliers : Z }.

(** What [get_peak_activity_hours] returns: the empty dictionary, the
    dictionary [{"error": "Not enough data for clustering"}], or the
    analysis. *)
Inductive outcome : Type :=
| Empty
| NotEnoughData
| Analysis (r : peaks).

(** [Counter(hours)]: the hours in the order they are first seen, each
    with its number of occurrences. *)
Fixpoint count_hour (h : Z) (counts : matrix) : matrix :=
  match counts with
  | [] => [(h, 1)]
  | (h', n) :: rest =>
    if h =? h' then (h', n + 1) :: rest else (h', n) :: count_hour h rest
  end.

Definition Counter (hours : list Z) : matrix :=
  fold_left (fun counts h => count_hour h counts) hours [].

(** [set(non_outlier_labels)], iterated in increasing order. *)
Fixpoint set_add (x : Z) (s : list Z) : list Z :=
  match s with
  | [] => [x]
  | y :: r => if x <? y then x :: s
              else if x =? y then s else y :: set_add x r
  end.

Definition set_of (xs : list Z) : list Z := fold_right set_add [] xs.

(** [f"{h:02d}"] *)
Definition fmt02 (h : Z) : string :=
  if (0 <=? h) && (h <? 10) then "0" +:+ pretty h else pretty h.

(** [np.min], [np.max] and [int(np.mean(...))] of a non-empty column. *)
Definition np_min (xs : list Z) : Z :=
  match xs with
  | [] => 0
  | x :: r => fold_left Z.min r x
  end.

Definition np_max (xs : list Z) : Z :=
  match xs with
  | [] => 0
  | x :: r => fold_left Z.max r x
  end.

Definition int_mean (xs : list Z) : Z :=
  Z.quot (fold_right Z.add 0 xs) (Z.of_nat (length xs)).

(** The body of the loop over [unique_clusters]. *)
Definition peak_of (non_outlier : list ((Z * Z) * Z)) (cluster_id : Z)
  : peak_range :=
  let cluster_rows :=
    List.filter (fun rl => snd rl =? cluster_id) non_outlier in
  (* non_outlier_hours[cluster_mask][:, 0] *)
  let cluster_hours := List.map (fun rl => fst (fst rl)) cluster_rows in
  let min_hour := np_min cluster_hours in
  let max_hour := np_max cluster_hours in
  let avg_count := int_mean cluster_hours in
  {| cluster_id := cluster_id;
     start_hour := min_hour;
     end_hour := max_hour;
     range := fmt02 min_hour +:+ ":00 - " +:+ fmt02 max_hour +:+ ":00";
     avg_activity := avg_count |}.

(** The peak ranges computed from [X] and the labels of its rows, sorted
    by [avg_activity] with [reverse=True]. *)
Definition peak_ranges_of (X : matrix) (labels : list Z) : list peak_range :=
  let non_outlier :=
    List.filter (fun rl => negb (snd rl =? -1)) (combine X labels) in
  let unique_clusters := set_of (List.map snd non_outlier) in
  sort_by (fun p => - avg_activity p)
          (List.map (peak_of non_outlier) unique_clusters).

(** The points of the scatter plot. *)
Definition scatter_of (X : matrix) (labels : list Z) (proj : list (Q * Q))
  : list point :=
  List.map (fun t =>
              {| point_x := fst (snd t); point_y := snd (snd t);
                 point_hour := fst (fst (fst t));
                 point_count := snd (fst (fst t));
                 point_cluster := snd (fst t);
                 is_outlier := snd (fst t) =? -1 |})
           (combine (combine X labels) proj).

(** [DataProcessor.get_peak_activity_hours]. [created_at] holds, for each
    row of the replies file, the hour that [parse_twitter_date] extracts
    from its [created_at] cell, [None] when the cell does not parse. The
    result comes with the calls made into scikit-learn. *)
Definition get_peak_activity_hours (sk : sklearn) (created_at : list (option Z))
  : outcome * list call :=
  match created_at with
  | [] => (Empty, [])
  | _ :: _ =>
    let hours := omap id created_at in
    if (length hours <? 2)%nat then (NotEnoughData, [])
    else
      let hour_counts := Counter hours in
      let X := hour_counts in
      let X_scaled := fit_transform sk X in
      let labels := fit_predict sk X_scaled in
      let calls := [ScalerFitTransform X; DbscanFitPredict X_scaled] in
      if negb (length labels =? length X)%nat then (Empty, calls)
      else
        let peak_ranges := peak_ranges_of X labels in
        let calls := calls ++ [PcaFitTransform X_scaled] in
        match pca sk X_scaled with
        | None => (Empty, calls)
        | Some (X_pca, ratios) =>
          (Analysis
             {| peak_ranges := peak_ranges;
                scatter_points := scatter_of X labels X_pca;
                explained_variance := ratios;
                total_hours_analyzed := Z.of_nat (length hours);
                unique_hours := Z.of_nat (length hour_counts);
                num_clusters :=
                  Z.of_nat (length (set_of
                    (List.filter (fun l => negb (l =? -1)) labels)));
                num_outliers :=
                  Z.of_nat (length (List.filter (fun l => l =? -1) labels)) |},
           calls)
        end
  end.

End Activity.

(* ===================================================================== *)
(** * Normal forms of the sentiment normalization                         *)
(* ===================================================================== *)

Module Normal.

(** The characters of a normalized token: [a-z0-9_]. *)
Definition token_char (c : Z) : bool :=
  ((97 <=? c) && (c <=? 122)) || ((48 <=? c) && (c <=? 57)) || (c =? 95).

(** An ASCII character that is not a capital letter. *)
Definition low_char (c : Z) : bool := is_ascii c && negb (ascii_upper c).

(** What is left after the special characters are blanked. *)
Definition clean_char (c : Z) : bool := token_char c || is_space c.

(** What a normalized text is made of. *)
Definition out_char (c : Z) : bool := token_char c || (c =? 32).

Definition not_newline (c : Z) : bool := negb (c =? 10).
Definition not_space (c : Z) : bool := negb (is_space c).

(** No character that [g] accepts is repeated four times or more. *)
Fixpoint norun (g : Z -> bool) (t : pystr) : bool :=
  match t with
  | [] => true
  | c :: r => negb (g c && (3 <=? run_len (Z.eqb c) r)%nat) && norun g r
  end.

(** A cell whose text, if any, is ASCII. *)
Definition ascii_text (v : pyval) : bool :=
  match v with
  | PyStr s => forallb is_ascii s
  | _ => true
  end.

(** The characters that lower-casing [c] can give: the lower case of the
    capital sigma depends on where it stands. *)
Definition lowered (db : ucd) (c : Z) : list Z :=
  if c =? 931 then [962; 963] else u_lower db c.

(** A character settles when the characters that lower-casing it can give
    are lower case already and none of them is a word character in the
    ranges that the emoji pattern strips, unless the character is in these
    ranges itself. *)
Definition settles (db : ucd) (c : Z) : bool :=
  forallb (fun d => bool_decide (lowered db d = [d])
                    && (Patterns.in_emoji_range c
                        || negb (is_word db d && Patterns.in_emoji_range d)))
          (lowered db c).

(** A cell whose text, if any, is made of characters that settle. *)
Definition settled_text (db : ucd) (v : pyval) : bool :=
  match v with
  | PyStr s => forallb (settles db) s
  | _ => true
  end.

End Normal.

(* ===================================================================== *)
(** * recommendation_processor.py: the top topic of the insights          *)
(* ===================================================================== *)

Module Insights.

Import Recommendation.

(** [max(items, key=key)] on the non-empty list [best :: rest]: the first
    item whose key is greatest. *)
Fixpoint max_by {A : Type} (key : A -> Z) (best : A) (rest : list A) : A :=
  match rest with
  | [] => best
  | x :: rest' => max_by key (if key best <? key x then x else best) rest'
  end.

(** The entry [Top Topic] of [_generate_insights]: its [value], [None] when
    the entry is not produced. *)
Definition top_topic_insight (topic_data : option (list topic))
  : option string :=
  match topic_data with
  | Some (t :: ts) => Some (topic_label (max_by topic_total t ts))
  | _ => None
  end.

End Insights.

(* ===================================================================== *)
(** * collections.Counter                                                 *)
(* ===================================================================== *)

Module Collections.

Import Recommendation.

Section Counter.

Context {K : Type} `{EqDecision K}.

(** [counts[k] += 1]: a new key goes behind the keys seen so far. *)
Fixpoint count_key (k : K) (counts : list (K * Z)) : list (K * Z) :=
  match counts with
  | [] => [(k, 1)]
  | (k', n) :: rest =>
    if bool_decide (k = k') then (k', n + 1) :: rest
    else (k', n) :: count_key k rest
  end.

(** [Counter(keys)]: the keys in the order they are first seen, each with
    its number of occurrences. *)
Definition Counter (keys : list K) : list (K * Z) :=
  fold_left (fun counts k => count_key k counts) keys [].

(** [counter.most_common(n)]: the [n] entries with the greatest counts,
    greatest first; entries with equal counts stay in the order in which
    they were first seen. A negative [n] gives the empty list. *)
Definition most_common (n : Z) (counts : list (K * Z)) : list (K * Z) :=
  firstn (Z.to_nat n) (sort_by (fun kv => - snd kv) counts).

(** [counts[k]]: the count stored under [k], 0 for a missing key. *)
Definition count_of (counts : list (K * Z)) (k : K) : Z :=
  fold_right (fun kv acc => if bool_decide (fst kv = k) then snd kv + acc else acc)
             0 counts.

(** [sum(counts.values())] *)
Definition total (counts : list (K * Z)) : Z :=
  fold_right Z.add 0 (List.map snd counts).

(** [keys.count(k)] *)
Definition occurrences (keys : list K) (k : K) : Z :=
  Z.of_nat (length (List.filter (fun k' => bool_decide (k' = k)) keys)).

End Counter.

End Collections.

(* ===================================================================== *)
(** * sentiment_processor.py: word frequencies and word clouds            *)
(* ===================================================================== *)

Module SentimentFrame.

Import Collections Reports.

(** [SentimentProcessor.get_word_frequency]: the pairs [(text, value)]. *)
Definition get_word_frequency (texts : list pystr) (n : Z)
  : list (pystr * Z) :=
  let all_words := split (join texts) in
  let all_words := List.filter (fun word => (3 <? length word)%nat) all_words in
  most_common n (Counter all_words).

(** [df[df['sentiment'] == sentiment]['cleaned_text']] *)
Definition texts_of (df : list row) (sentiment : string) : list pystr :=
  List.map cleaned_text
           (List.filter (fun r => bool_decide (label r = sentiment)) df).

(** [wordcloud_data] of [generate_sentiment_report], in the order of its
    keys. *)
Definition wordcloud_data (df : list row)
  : list (string * list (pystr * Z)) :=
  List.map (fun sentiment =>
              let sentiment_texts := texts_of df sentiment in
              (sentiment,
               if (0 <? length sentiment_texts)%nat
               then get_word_frequency sentiment_texts 50
               else []))
           ["positive"; "negative"; "neutral"]%string.

End SentimentFrame.

(* ===================================================================== *)
(** * emotion_processor.py: the analysed frame and its word clouds        *)
(* ===================================================================== *)

Module EmotionFrame.

Import Collections Reports.

(** [EmotionProcessor.analyze_dataframe]: the columns [cleaned_text] and
    [emotion] of the returned frame, from the text column of the given
    one. Rows whose cleaned text is empty are dropped. *)
Definition analyze_dataframe (db : ucd) (texts : list pyval) : list row :=
  let cleaned := List.map (Emotion.preprocess_text db) texts in
  let kept := List.filter (fun t => (0 <? length t)%nat) cleaned in
  List.map (fun t => {| cleaned_text := t;
                        label := Emotion.predict_emotion db t |}) kept.

(** [EmotionProcessor.get_word_frequency]: the pairs [(text, value)]. *)
Definition get_word_frequency (texts : list pystr) (n : Z)
  : list (pystr * Z) :=
  let all_words := split (join texts) in
  let all_words := List.filter (fun word => (2 <? length word)%nat) all_words in
  most_common n (Counter all_words).

(** [df[df['emotion'] == emotion]['cleaned_text']] *)
Definition texts_of (df : list row) (emotion : string) : list pystr :=
  List.map cleaned_text
           (List.filter (fun r => bool_decide (label r = emotion)) df).

Definition emotions : list string :=
  ["joy"; "anger"; "sadness"; "fear"; "surprise"; "disgust"; "neutral"]%string.

(** [wordcloud_data] of [generate_emotion_report], in the order of its
    keys. *)
Definition wordcloud_data (df : list row)
  : list (string * list (pystr * Z)) :=
  List.map (fun emotion =>
              let emotion_texts := texts_of df emotion in
              (emotion,
               if (0 <? length emotion_texts)%nat
               then get_word_frequency emotion_texts 50
               else []))
           emotions.

End EmotionFrame.

(* ===================================================================== *)
(** * The engagement per label of the two reports                         *)
(* ===================================================================== *)

Module Engagement.

Import Collections.

(** One row of the analysed frame: its label and the columns that the
    engagement reads. [None] is the missing value NaN. *)
Record reply : Type :=
  { reply_label : string;
    favorite_count : option Z;
    retweet_count : option Z;
    conversation_id_str : option Z }.

(** Which of the three columns the frame has. *)
Record columns : Type :=
  { has_favorite_count : bool;
    has_retweet_count : bool;
    has_conversation_id_str : bool }.

(** [df.groupby('conversation_id_str').size()]: rows without an id are in
    no group. *)
Definition reply_counts (df : list reply) : list (Z * Z) :=
  Counter (omap conversation_id_str df).

(** [df['conversation_id_str'].map(reply_counts)] followed by
    [fillna(0)], on one row. *)
Definition conversation_reply_count (counts : list (Z * Z)) (r : reply) : Z :=
  match conversation_id_str r with
  | Some c => count_of counts c
  | None => 0
  end.

(** [df['engagement']] on one row. *)
Definition engagement (cols : columns) (counts : list (Z * Z)) (r : reply) : Z :=
  0
  + (if has_favorite_count cols then default 0 (favorite_count r) else 0)
  + (if has_retweet_count cols then default 0 (retweet_count r) else 0)
  + (if has_conversation_id_str cols then conversation_reply_count counts r
     else 0).

(** [df.groupby(label)['engagement'].sum().to_dict()]: the dictionaries
    [sentiment_by_engagement] and [emotion_by_engagement]. *)
Definition by_engagement (cols : columns) (df : list reply) : gmap string Z :=
  let counts := reply_counts df in
  fold_left (fun sums r =>
               <[reply_label r :=
                   default 0 (sums !! reply_label r) + engagement cols counts r]>
               sums)
            df ∅.

End Engagement.

(* ===================================================================== *)
(** * data_processor.py: hashtags, permalinks and the basic statistics    *)
(* ===================================================================== *)

Module Posts.

Import Patterns Collections.

(** [re.findall(pattern, t)] for a pattern without groups that never
    matches the empty string: the matched texts, left to right, each match
    starting behind the previous one. The matcher is the one of [re_sub];
    its replacement is not used. *)
Fixpoint findall_from (m : pystr -> option (nat * pystr)) (skip : nat)
         (t : pystr) : list pystr :=
  match t with
  | [] => []
  | c :: r =>
    match skip with
    | S k => findall_from m k r
    | O =>
      match m t with
      | Some (S n, _) => firstn (S n) t :: findall_from m n r
      | _ => findall_from m O r
      end
    end
  end.

Definition findall (m : pystr -> option (nat * pystr)) (t : pystr)
  : list pystr :=
  findall_from m O t.

(** [DataProcessor.extract_hashtags]: [re.findall(r'#\w+', str(text))] *)
Definition extract_hashtags (db : ucd) (text : pyval) : list pystr :=
  if isna text then [] else findall (hashtag db) (str text).

(** [DataProcessor.get_top_hashtags], on the column [Caption]: the pairs
    [(hashtag, count)]. *)
Definition get_top_hashtags (db : ucd) (captions : list pyval) (limit : Z)
  : list (pystr * Z) :=
  match captions with
  | [] => []
  | _ :: _ =>
    let hashtags := flat_map (extract_hashtags db) captions in
    most_common limit (Counter hashtags)
  end.

(** [t.split(sep)] for a separator of one character. *)
Fixpoint split_on (sep : Z) (t : pystr) : list pystr :=
  match t with
  | [] => [[]]
  | c :: r =>
    if c =? sep then [] :: split_on sep r
    else match split_on sep r with
         | p :: ps => (c :: p) :: ps
         | [] => [[c]]
         end
  end.

(** [DataProcessor.get_tweet_id_from_permalink] *)
Definition get_tweet_id_from_permalink (permalink : pyval) : option pystr :=
  if isna permalink then None
  else
    let parts := split_on 47 (str permalink) in
    if (0 <? length parts)%nat then Some (List.last parts []) else None.

(** One row of the posts sheet: the columns the statistics read. [None]
    is the missing value NaN. *)
Record post : Type :=
  { Permalink : pyval; Likes : option Z; Retweets : option Z }.

Record statistics : Type :=
  { total_posts : Z;
    total_replies : Z;
    total_likes : Z;
    total_retweets : Z;
    total_engagement : Z }.

(** [df[column].sum()]: missing values are skipped. *)
Definition column_sum (column : post -> option Z) (df : list post) : Z :=
  fold_right Z.add 0 (omap column df).

(** The loop of [get_basic_statistics] over the rows. [py_int] is the
    built-in [int] on strings, [None] when it raises [ValueError];
    the result is [None] when a row raises. *)
Definition replies_from_csv (py_int : pystr -> option Z)
           (reply_counts : gmap Z Z) (df : list post) : option Z :=
  fold_left
    (fun acc row =>
       match acc with
       | None => None
       | Some total_replies_from_csv =>
         match get_tweet_id_from_permalink (Permalink row) with
         | Some ((_ :: _) as tweet_id) =>
           match py_int tweet_id with
           | Some i =>
             Some (total_replies_from_csv + default 0 (reply_counts !! i))
           | None => None
           end
         | _ => Some total_replies_from_csv
         end
       end)
    df (Some 0).

(** [DataProcessor.get_basic_statistics]; [None] is the empty dictionary,
    returned for an empty sheet and when an exception is caught. *)
Definition get_basic_statistics (py_int : pystr -> option Z)
           (reply_counts : gmap Z Z) (df : list post) : option statistics :=
  match df with
  | [] => None
  | _ :: _ =>
    match replies_from_csv py_int reply_counts df with
    | None => None
    | Some total_replies_from_csv =>
      Some {| total_posts := Z.of_nat (length df);
              total_replies := total_replies_from_csv;
              total_likes := column_sum Likes df;
              total_retweets := column_sum Retweets df;
              total_engagement :=
                column_sum Likes df + total_replies_from_csv
                + column_sum Retweets df |}
    end
  end.

(** A fragment of the built-in [int]: a non-empty string of ASCII
    digits. *)
Definition digits_int (s : pystr) : option Z :=
  match s with
  | [] => None
  | _ :: _ =>
    if forallb (fun c => (48 <=? c) && (c <=? 57)) s
    then Some (fold_left (fun acc c => 10 * acc + (c - 48)) s 0)
    else None
  end.

End Posts.

(* ===================================================================== *)
(** * main.py: what the recommendations endpoint hands to the processor   *)
(* ===================================================================== *)

Module Endpoint.

Import Reports Recommendation Activity.

(** The values of the dictionary that [get_peak_activity_hours] returns. *)
Inductive value : Type :=
| VText (s : string)
| VInt (n : Z)
| VHours (hours : list Z)
| VRanges (ranges : list peak_range)
| VScatter (points : list point) (explained_variance : list Q).

(** The dictionary that [get_peak_activity_hours] returns, with its
    keys. *)
Definition peak_dict (o : outcome) : list (string * value) :=
  match o with
  | Empty => []
  | NotEnoughData =>
    [("error", VText "Not enough data for clustering")]%string
  | Analysis r =>
    [("peak_ranges", VRanges (peak_ranges r));
     ("scatter_data", VScatter (scatter_points r) (explained_variance r));
     ("total_hours_analyzed", VInt (total_hours_analyzed r));
     ("unique_hours", VInt (unique_hours r));
     ("num_clusters", VInt (num_clusters r));
     ("num_outliers", VInt (num_outliers r))]%string
  end.

(** [d.get(k)] *)
Fixpoint dict_get (k : string) (d : list (string * value)) : option value :=
  match d with
  | [] => None
  | (k', v) :: rest => if bool_decide (k = k') then Some v else dict_get k rest
  end.

(** What [_analyze_timing] reads from [peak_hours_data]: nothing when the
    dictionary is empty or has no key [peak_hours]. *)
Definition peak_hours_of (peak_hours_data : list (string * value))
  : option (list Z) :=
  match peak_hours_data with
  | [] => None
  | _ :: _ =>
    match dict_get "peak_hours" peak_hours_data with
    | Some (VHours peak_hours) => Some peak_hours
    | _ => None
    end
  end.

(** [get_recommendations]: the call of [generate_recommendations]. The
    sentiment, emotion and topic reports and the statistics are the
    results of the other processors; the peak-hours dictionary is the one
    [get_peak_activity_hours] returns for the replies file. The result is
    [None] when the call raises: the endpoint then answers with the
    dictionary [{"error": ...}], which holds no recommendation. *)
Definition get_recommendations
           (sentiment_data emotion_data : option (gmap string dist_entry))
           (topic_data : option (list topic))
           (engagement_data : option engagement)
           (sk : sklearn) (created_at : list (option Z)) : option result :=
  let peak_hours_data := peak_dict (fst (get_peak_activity_hours sk created_at)) in
  generate_recommendations sentiment_data emotion_data topic_data
                           engagement_data (peak_hours_of peak_hours_data).

End Endpoint.

(* ===================================================================== *)
(** * Words of a cleaned ASCII text                                       *)
(* ===================================================================== *)

Module Plain.

Import Normal.

(** A word of a cleaned ASCII text: token characters without long runs. *)
Definition plain_word (w : pystr) : Prop :=
  w <> []
  /\ Forall (fun c => token_char c = true) w
  /\ norun not_newline w = true.

End Plain.

(* ===================================================================== *)
(** * data_processor.py: convert_types                                    *)
(* ===================================================================== *)

Module Json.




End Json.

(* ===================================================================== *)
(** * topic_pillar_processor.py: preprocess_text                          *)
(* ===================================================================== *)

Module TopicPillar.

(** [stopwords_id] of [preprocess_text] *)
Definition stopwords_id : list string :=
  ["yang"; "dan"; "di"; "dengan"; "untuk"; "pada"; "adalah"; "ini"; "itu";
   "dari"; "ke"; "tidak"; "atau"; "juga"; "akan"; "telah"; "dapat"; "ada";
   "dalam"; "saya"; "kamu"; "dia"; "mereka"; "kami"; "sudah"; "belum";
   "masih"; "sangat"; "sekali"; "hanya"; "bisa"; "mau"; "ingin"; "perlu";
   "harus"; "kak"; "ka"; "gan"; "sis"; "bro"; "min"; "admin"; "cs"; "halo";
   "hai"; "selamat"; "pagi"; "siang"; "sore"; "malam"; "mohon"; "tolong";
   "cek"; "thanks"; "thx"; "makasih"; "terimakasih"; "makasi"; "terima";
   "kasih"; "ya"; "yah"; "iya"; "ok"; "oke"; "dong"; "nala"; "deh"; "nih";
   "sih"; "loh"; "wkwk"; "hehe"; "hihi"; "nya"; "kok"; "indihome"; "kakak";
   "jadi"; "atas"; "kontol"; "anjing"; "bangsat"; "bajingan"; "memek";
   "pepek"; "kampret"; "goblok"; "tolol"; "tai"; "brengsek"; "jancuk";
   "keparat"; "sialan"; "perek"; "sundal"; "lonte"; "pelacur"; "babi";
   "ajg"; "anjng"; "anj"]%string.

Definition stopwords : list pystr := List.map py stopwords_id.

(** [word not in stopwords_id and len(word) > 2] *)
Definition keep_word (word : pystr) : bool :=
  negb (bool_decide (word ∈ stopwords)) && (2 <? length word)%nat.

(** [preprocess_text] of [topic_pillar_processor.py]. Its steps 1 to 9 are
    those of the sentiment engine, line for line. *)
Definition preprocess_text (db : ucd) (text : pyval) : pystr :=
  if isna text || is_empty_str text then []
  else join (List.filter keep_word (split (Sentiment.clean db (str text)))).

End TopicPillar.

(** Boolean comparisons on [Z] as propositions, for [lia]. *)
Ltac zbool :=
  repeat rewrite ?orb_true_iff, ?andb_true_iff, ?negb_true_iff,
    ?orb_false_iff, ?andb_false_iff, ?negb_false_iff,
    ?Z.leb_le, ?Z.ltb_lt, ?Z.eqb_eq, ?Z.leb_gt, ?Z.ltb_ge, ?Z.eqb_neq in *.

(* ===================================================================== *)
(** * Properties                                                          *)
(* ===================================================================== *)

(** ** Stripping *)

Lemma lstrip_fixed (t : pystr) : word_ends t = false -> lstrip t = t.
Proof. destruct t as [|c r]; simpl; [discriminate|]. now intros ->. Qed.

Lemma rstrip_head (c : Z) (r : pystr) :
  is_space c = false -> exists r', rstrip (c :: r) = c :: r'.
Proof.
  intros Hc. simpl. destruct (rstrip r) as [|d r'].
  - rewrite Hc. now exists [].
  - now exists (d :: r').
Qed.

Lemma rstrip_idem (t : pystr) : rstrip (rstrip t) = rstrip t.
Proof.
  induction t as [|c r IH]; simpl; [reflexivity|].
  destruct (rstrip r) as [|d r'] eqn:E.
  - destruct (is_space c) eqn:Hc; simpl; [reflexivity|]. now rewrite Hc.
  - change (rstrip (c :: d :: r')) with
      (match rstrip (d :: r') with
       | [] => if is_space c then [] else [c]
       | x => c :: x end).
    now rewrite IH.
Qed.

Lemma strip_idem (t : pystr) : strip (strip t) = strip t.
Proof.
  unfold strip.
  assert (H : lstrip (rstrip (lstrip t)) = rstrip (lstrip t)).
  { assert (Hl : lstrip t = [] \/ word_ends (lstrip t) = false).
    { induction t as [|c r IH]; simpl; [now left|].
      destruct (is_space c) eqn:Hc; [exact IH|]. right. simpl. exact Hc. }
    destruct Hl as [-> | Hl]; [reflexivity|].
    destruct (lstrip t) as [|c r]; [discriminate|]. simpl in Hl.
    destruct (rstrip_head c r Hl) as [r' ->]. simpl. now rewrite Hl. }
  rewrite H. apply rstrip_idem.
Qed.

(** ** Substrings *)

Lemma starts_with_spec (p t : pystr) :
  starts_with p t = true <-> exists b, t = p ++ b.
Proof.
  revert t. induction p as [|a p IH]; intros t; simpl.
  - split; [intros _; now exists t | reflexivity].
  - destruct t as [|c t].
    + split; [discriminate | intros [b Hb]; discriminate Hb].
    + rewrite andb_true_iff, Z.eqb_eq, IH. split.
      * intros [-> [b ->]]. now exists b.
      * intros [b [= -> ->]]. split; [reflexivity | now exists b].
Qed.

(** [w in t] holds exactly when [w] is a factor of [t]. *)
Lemma contains_spec (w t : pystr) :
  contains w t = true <-> exists a b, t = a ++ w ++ b.
Proof.
  induction t as [|c t IH].
  - cbn [contains]. rewrite orb_false_r, starts_with_spec. split.
    + intros [b ->]. now exists [], b.
    + intros (a & b & E). destruct a; [now exists b|discriminate E].
  - cbn [contains]. rewrite orb_true_iff, starts_with_spec, IH. split.
    + intros [[b ->] | (a & b & ->)]; [now exists [], b | now exists (c :: a), b].
    + intros (a & b & E). destruct a as [|x a].
      * left. now exists b.
      * right. injection E as -> ->. now exists a, b.
Qed.

(** ** The fallback sentiment classifier *)

(** C2: the lexicon-fallback classifier counts the positive and the
    negative trigger phrases that occur in the lower-cased text and answers
    "negative" when the negative count is strictly larger, "positive" when
    the positive count is strictly larger, and "neutral" on every tie,
    zero against zero included; one positive trigger and no negative one
    gives "positive". *)
Theorem fallback_sentiment_by_counts (db : ucd) (text : pystr) :
  let text_lower := lower db text in
  let pos_count := Sentiment.count_found Sentiment.positive_words text_lower in
  let neg_count := Sentiment.count_found Sentiment.negative_words text_lower in
  ((pos_count < neg_count)%nat ->
   Sentiment._fallback_sentiment db text = "negative"%string)
  /\ ((neg_count < pos_count)%nat ->
      Sentiment._fallback_sentiment db text = "positive"%string)
  /\ (pos_count = neg_count ->
      Sentiment._fallback_sentiment db text = "neutral"%string)
  /\ (pos_count = 1%nat -> neg_count = 0%nat ->
      Sentiment._fallback_sentiment db text = "positive"%string).
Proof.
  intros text_lower pos_count neg_count. unfold Sentiment._fallback_sentiment.
  fold text_lower. fold pos_count. fold neg_count.
  destruct (Nat.ltb_spec pos_count neg_count) as [Hlt|Hge];
    destruct (Nat.ltb_spec neg_count pos_count) as [Hlt'|Hge'];
    repeat split; intros; try reflexivity; lia.
Qed.

Lemma fallback_sentiment_by_counts_witness :
  Sentiment._fallback_sentiment ucd_fragment (py "layanan bagus") = "positive"%string
  /\ Sentiment._fallback_sentiment ucd_fragment (py "belum ada kabar") = "neutral"%string.
Proof.
  split.
  - apply (fallback_sentiment_by_counts ucd_fragment (py "layanan bagus"));
      reflexivity.
  - apply (fallback_sentiment_by_counts ucd_fragment (py "belum ada kabar")).
    reflexivity.
Defined.

(** ** The emotion classifier *)

Section Argmax.

Implicit Types (scores : list (string * Z)) (m : Z).

Lemma fold_max_ge (l : list Z) (a : Z) :
  a <= fold_left Z.max l a /\ Forall (fun x => x <= fold_left Z.max l a) l.
Proof.
  revert a. induction l as [|x l IH]; intros a; simpl.
  - split; [lia | constructor].
  - destruct (IH (Z.max a x)) as [H1 H2]. split; [lia|].
    constructor; [lia | exact H2].
Qed.

Lemma fold_max_attained (l : list Z) (a : Z) :
  fold_left Z.max l a = a \/ In (fold_left Z.max l a) l.
Proof.
  revert a. induction l as [|x l IH]; intros a; simpl; [now left|].
  destruct (IH (Z.max a x)) as [H | H]; [|now right; right].
  rewrite H. destruct (Z.max_spec a x) as [[_ ->] | [_ ->]]; auto.
Qed.

Lemma max_score_ge scores e s :
  In (e, s) scores -> s <= Emotion.max_score scores.
Proof.
  destruct scores as [|[e0 s0] rest]; simpl; [tauto|].
  destruct (fold_max_ge (List.map snd rest) s0) as [H0 Hall].
  intros [H | H].
  - injection H as _ <-. exact H0.
  - rewrite List.Forall_forall in Hall. apply Hall.
    change s with (snd (e, s)). now apply in_map.
Qed.

Lemma max_score_attained scores :
  scores <> [] -> exists e, In (e, Emotion.max_score scores) scores.
Proof.
  destruct scores as [|[e0 s0] rest]; [congruence|]. intros _. simpl.
  destruct (fold_max_attained (List.map snd rest) s0) as [-> | H].
  - exists e0. now left.
  - apply in_map_iff in H as [[e s] [Hs Hin]]. simpl in Hs. subst s.
    exists e. now right.
Qed.

(** The loop returns the first category whose score is the maximum. *)
Lemma first_with_nth m scores i e :
  nth_error scores i = Some (e, m) ->
  (forall j e' s', (j < i)%nat -> nth_error scores j = Some (e', s') -> s' <> m) ->
  Emotion.first_with m scores = Some e.
Proof.
  revert i. induction scores as [|[e0 s0] rest IH]; intros i Hi Hbefore.
  - destruct i; discriminate.
  - destruct i as [|i]; simpl in *.
    + injection Hi as -> ->. now rewrite Z.eqb_refl.
    + destruct (Z.eqb_spec s0 m) as [Heq | _].
      * exfalso. apply (Hbefore 0%nat e0 s0); [lia | reflexivity | exact Heq].
      * apply (IH i Hi). intros j e' s' Hj Hnth.
        apply (Hbefore (S j) e' s'); [lia | exact Hnth].
Qed.

End Argmax.

Lemma scores_keys (db : ucd) (text : pystr) :
  List.map fst (Emotion.emotion_scores db text)
  = ["joy"; "anger"; "sadness"; "fear"; "surprise"; "disgust"]%string.
Proof.
  unfold Emotion.emotion_scores, Emotion.emotion_lexicons.
  cbn [List.map fst]. reflexivity.
Qed.

Lemma scores_of_empty (db : ucd) e s :
  In (e, s) (Emotion.emotion_scores db []) -> s = 0.
Proof.
  vm_compute. intuition congruence.
Qed.

(** The guard at the head of [predict_emotion] only fires on a normalized
    text when the text is empty. *)
Lemma emotion_clean_stripped (db : ucd) (raw : pyval) :
  strip (Emotion.preprocess_text db raw) = Emotion.preprocess_text db raw.
Proof.
  unfold Emotion.preprocess_text.
  destruct (isna raw || is_empty_str raw); [reflexivity|].
  unfold Emotion.clean. apply strip_idem.
Qed.

Lemma predict_emotion_first_max (db : ucd) (text : pystr) i e s :
  strip text = text ->
  let scores := Emotion.emotion_scores db text in
  nth_error scores i = Some (e, s) ->
  0 < s ->
  (forall j e' s', nth_error scores j = Some (e', s') ->
                   s' <= s /\ ((j < i)%nat -> s' < s)) ->
  Emotion.predict_emotion db text = e.
Proof.
  intros Hstrip scores Hi Hpos Hmax. unfold Emotion.predict_emotion.
  destruct text as [|c r].
  - exfalso. apply nth_error_In, scores_of_empty in Hi. lia.
  - rewrite Hstrip, bool_decide_eq_false_2 by discriminate.
    cbn [length Nat.eqb orb]. fold scores.
    assert (Hm : Emotion.max_score scores = s).
    { apply Z.le_antisymm.
      - destruct (max_score_attained scores) as [e' He'].
        { intros E. rewrite E in Hi. destruct i; discriminate. }
        apply In_nth_error in He' as [j Hj]. now apply (Hmax j e').
      - apply (max_score_ge scores e). now apply nth_error_In in Hi. }
    rewrite Hm. destruct (Z.eqb_spec s 0) as [E|_]; [lia|].
    rewrite (first_with_nth s scores i e Hi); [reflexivity|].
    intros j e' s' Hj Hnth. destruct (Hmax j e' s' Hnth) as [_ Hlt].
    specialize (Hlt Hj). lia.
Qed.

Lemma predict_emotion_all_zero (db : ucd) (text : pystr) :
  (forall e s, In (e, s) (Emotion.emotion_scores db text) -> s = 0) ->
  Emotion.predict_emotion db text = "neutral"%string.
Proof.
  intros Hzero. unfold Emotion.predict_emotion.
  destruct (bool_decide (text = []) || (length (strip text) =? 0)%nat);
    [reflexivity|].
  set (scores := Emotion.emotion_scores db text) in *.
  assert (Hm : Emotion.max_score scores = 0).
  { destruct (max_score_attained scores) as [e He]; [discriminate|].
    now apply Hzero in He. }
  now rewrite Hm.
Qed.

(** C1: on every normalized text the emotion classifier scores the six
    categories in the order joy, anger, sadness, fear, surprise, disgust;
    it answers "neutral" when every score is 0, and otherwise the category
    whose positive score is the maximum and is not reached by any category
    listed before it: the strictly highest score wins, and a tie goes to
    the earliest category. *)
Theorem predict_emotion_argmax (db : ucd) (raw : pyval) :
  let text := Emotion.preprocess_text db raw in
  let scores := Emotion.emotion_scores db text in
  List.map fst scores
  = ["joy"; "anger"; "sadness"; "fear"; "surprise"; "disgust"]%string
  /\ ((forall e s, In (e, s) scores -> s = 0) ->
      Emotion.predict_emotion db text = "neutral"%string)
  /\ (forall i e s,
         nth_error scores i = Some (e, s) ->
         0 < s ->
         (forall j e' s', nth_error scores j = Some (e', s') ->
                          s' <= s /\ ((j < i)%nat -> s' < s)) ->
         Emotion.predict_emotion db text = e).
Proof.
  intros text scores. split; [apply scores_keys|]. split.
  - apply predict_emotion_all_zero.
  - intros i e s. apply predict_emotion_first_max.
    apply emotion_clean_stripped.
Qed.

(** A text that triggers joy and anger with equal weight. *)
Lemma predict_emotion_argmax_witness :
  let text := Emotion.preprocess_text ucd_fragment (PyStr (py "Senang, MARAH!")) in
  Emotion.emotion_scores ucd_fragment text
  = [("joy", 2); ("anger", 2); ("sadness", 0); ("fear", 0); ("surprise", 0);
     ("disgust", 0)]%string
  /\ Emotion.predict_emotion ucd_fragment text = "joy"%string.
Proof.
  intros text.
  assert (Hs : Emotion.emotion_scores ucd_fragment text
               = [("joy", 2); ("anger", 2); ("sadness", 0); ("fear", 0);
                  ("surprise", 0); ("disgust", 0)]%string)
    by (vm_compute; reflexivity).
  split; [exact Hs|].
  pose proof (predict_emotion_argmax ucd_fragment (PyStr (py "Senang, MARAH!")))
    as H.
  cbv zeta in H. fold text in H. rewrite Hs in H.
  destruct H as (_ & _ & H). apply (H 0%nat "joy"%string 2).
  - reflexivity.
  - lia.
  - intros j e' s' Hj.
    do 6 (destruct j as [|j]; [injection Hj as <- <-; split; lia|]).
    destruct j; discriminate.
Defined.

(** ** The label distribution *)

Section Distribution.

Import Reports.

(** The sum of the raw counts of a [value_counts] dictionary. *)
Let total_of (counts : gmap string Z) : Z :=
  map_fold (fun _ c acc => c + acc) 0 counts.

Let step (counts : gmap string Z) (l : string) : gmap string Z :=
  <[l := default 0 (counts !! l) + 1]> counts.

Lemma total_of_step (counts : gmap string Z) (l : string) :
  total_of (step counts l) = total_of counts + 1.
Proof.
  unfold total_of, step. destruct (counts !! l) as [c|] eqn:E; simpl.
  - rewrite (map_fold_delete_L _ _ l c counts); [|intros; lia|exact E].
    rewrite <- (insert_delete_eq counts l (c + 1)).
    rewrite map_fold_insert_L; [lia|intros; lia|apply lookup_delete_eq].
  - rewrite map_fold_insert_L; [lia|intros; lia|exact E].
Qed.

Lemma total_of_fold (labels : list string) (acc : gmap string Z) :
  total_of (fold_left step labels acc)
  = total_of acc + Z.of_nat (length labels).
Proof.
  revert acc. induction labels as [|l labels IH]; intros acc; simpl.
  - lia.
  - rewrite IH, total_of_step. lia.
Qed.

Lemma lookup_fold (labels : list string) (acc : gmap string Z) (l : string) :
  default 0 (fold_left step labels acc !! l)
  = default 0 (acc !! l) + Z.of_nat (count_occ string_dec labels l).
Proof.
  revert acc. induction labels as [|x labels IH]; intros acc; simpl.
  - lia.
  - rewrite IH. unfold step. destruct (string_dec x l) as [->|Hne].
    + rewrite lookup_insert_eq. simpl. lia.
    + rewrite lookup_insert_ne by exact Hne. lia.
Qed.

Lemma value_counts_total (labels : list string) :
  total_of (value_counts labels) = Z.of_nat (length labels).
Proof.
  unfold value_counts. fold step. rewrite total_of_fold.
  unfold total_of. now rewrite map_fold_empty.
Qed.

Lemma value_counts_lookup (labels : list string) (l : string) (c : Z) :
  value_counts labels !! l = Some c ->
  c = Z.of_nat (count_occ string_dec labels l).
Proof.
  intros H. pose proof (lookup_fold labels ∅ l) as E.
  fold step in H. unfold value_counts in H. fold step in H.
  rewrite H, lookup_empty in E. simpl in E. lia.
Qed.

Lemma sum_counts_distribution (counts : gmap string Z) (total : Z) :
  sum_counts (distribution_of counts total) = total_of counts.
Proof.
  unfold sum_counts, distribution_of, total_of. now rewrite map_fold_fmap.
Qed.

Lemma distribution_entry (counts : gmap string Z) (total : Z) l e :
  distribution_of counts total !! l = Some e ->
  counts !! l = Some (count e)
  /\ percentage e
     = py_round (fmul (fdiv (inject_Z (count e)) (inject_Z total)) 100) 2.
Proof.
  unfold distribution_of. rewrite lookup_fmap.
  destruct (counts !! l) as [c|]; simpl; [|discriminate].
  intros [= <-]. simpl. split; reflexivity.
Qed.


(** C3: in the sentiment report and in the emotion report the counts of
    the distribution are the numbers of rows carrying each label, they add
    up to [total_analyzed], and the percentage stored with a label is
    [round(count / total * 100, 2)]. *)
Theorem report_counts_and_percentages (df : list row) :
  consistent df (generate_sentiment_report df)
  /\ consistent df (generate_emotion_report df).
Proof.
  assert (H : forall counts,
             counts = value_counts (List.map label df) ->
             consistent df {| distribution :=
                                distribution_of counts (Z.of_nat (length df));
                              total_analyzed := Z.of_nat (length df) |}).
  { intros counts ->. unfold consistent. cbn [distribution total_analyzed].
    split; [reflexivity|]. split.
    - rewrite sum_counts_distribution, value_counts_total.
      now rewrite length_map.
    - intros l e He. apply distribution_entry in He as [Hc Hp].
      split; [|exact Hp]. now apply value_counts_lookup. }
  split; apply H; reflexivity.
Qed.

End Distribution.

(** Ten replies, six labelled positive and four negative; then 160
    replies, 23 of them positive: 23 / 160 * 100 is the float just below
    14.375 and is stored as 14.37. *)
Lemma report_counts_and_percentages_witness :
  let rows := List.map (fun l => {| Reports.cleaned_text := [];
                                    Reports.label := l |}) in
  let df := rows ["positive"; "positive"; "negative"; "positive";
                  "negative"; "positive"; "positive"; "negative";
                  "positive"; "negative"]%string in
  let r := Reports.generate_sentiment_report df in
  let df' := rows (repeat "positive"%string 23 ++ repeat "negative"%string 137) in
  let r' := Reports.generate_sentiment_report df' in
  (Reports.sum_counts (Reports.distribution r) = 10
   /\ Reports.distribution r !! "positive"%string
      = Some {| Reports.count := 6; Reports.percentage := 60 |}
   /\ Reports.distribution r !! "negative"%string
      = Some {| Reports.count := 4; Reports.percentage := 40 |})
  /\ (Reports.sum_counts (Reports.distribution r') = 160
      /\ Reports.distribution r' !! "positive"%string
         = Some {| Reports.count := 23;
                   Reports.percentage := to_float 14.37 |}).
Proof.
  intros rows df r df' r'. split.
  - destruct (report_counts_and_percentages df) as [(Ht & Hs & _) _].
    fold r in Ht, Hs. split; [now rewrite Hs, Ht|].
    split; vm_compute; reflexivity.
  - destruct (report_counts_and_percentages df') as [(Ht & Hs & _) _].
    fold r' in Ht, Hs. split; [now rewrite Hs, Ht|].
    vm_compute; reflexivity.
Defined.

(** ** The stable sort *)

Section StableSort.

Context {A : Type} (key : A -> Z).

Import Recommendation.

Let le_key (a b : A) : Prop := key a <= key b.

Lemma insert_by_perm (x : A) (l : list A) :
  Permutation (x :: l) (insert_by key x l).
Proof.
  induction l as [|y r IH]; simpl; [reflexivity|].
  destruct (key x <=? key y); [reflexivity|].
  rewrite perm_swap. now apply perm_skip.
Qed.

Lemma sort_by_perm (l : list A) : Permutation l (sort_by key l).
Proof.
  induction l as [|x l IH]; simpl; [reflexivity|].
  rewrite <- insert_by_perm. now apply perm_skip.
Qed.

Lemma insert_by_sorted (x : A) (l : list A) :
  StronglySorted le_key l -> StronglySorted le_key (insert_by key x l).
Proof.
  induction 1 as [|y r Hr IH Hy]; simpl.
  - repeat constructor.
  - destruct (Z.leb_spec (key x) (key y)) as [Hle|Hgt].
    + constructor; [now constructor|]. constructor; [exact Hle|].
      eapply List.Forall_impl; [|exact Hy]. unfold le_key. intros; lia.
    + constructor; [exact IH|].
      eapply Permutation_Forall; [apply insert_by_perm|].
      constructor; [unfold le_key; lia | exact Hy].
Qed.

Lemma sort_by_sorted (l : list A) : StronglySorted le_key (sort_by key l).
Proof.
  induction l as [|x l IH]; simpl; [constructor|].
  now apply insert_by_sorted.
Qed.

(** Stability: the elements of one key keep their relative order. *)
Lemma insert_by_filter (k : Z) (x : A) (l : list A) :
  List.filter (fun a => key a =? k) (insert_by key x l)
  = List.filter (fun a => key a =? k) (x :: l).
Proof.
  induction l as [|y r IH]; [reflexivity|].
  cbn [insert_by]. destruct (Z.leb_spec (key x) (key y)) as [Hle|Hgt];
    [reflexivity|].
  cbn [List.filter] in *. rewrite IH.
  destruct (Z.eqb_spec (key x) k), (Z.eqb_spec (key y) k);
    try reflexivity. lia.
Qed.

Lemma sort_by_filter (k : Z) (l : list A) :
  List.filter (fun a => key a =? k) (sort_by key l)
  = List.filter (fun a => key a =? k) l.
Proof.
  induction l as [|x l IH]; [reflexivity|].
  cbn [sort_by fold_right]. fold (sort_by key l).
  rewrite insert_by_filter. cbn [List.filter]. now rewrite IH.
Qed.

Lemma sorted_nth (l : list A) (i j : nat) (a b : A) :
  StronglySorted le_key l ->
  (i < j)%nat -> nth_error l i = Some a -> nth_error l j = Some b ->
  key a <= key b.
Proof.
  intros Hs. revert i j. induction Hs as [|y r Hr IH Hy]; intros i j Hij Hi Hj.
  - destruct i; discriminate.
  - destruct j as [|j]; [lia|]. destruct i as [|i]; simpl in *.
    + injection Hi as <-. rewrite List.Forall_forall in Hy.
      apply Hy. eapply nth_error_In, Hj.
    + apply (IH i j); [lia|assumption..].
Qed.

End StableSort.

(** What [_generate_insights] needs to return: no distribution handed in
    is without entries. *)
Lemma generate_insights_raises
      (sentiment_data emotion_data : option (gmap string Reports.dist_entry))
      (topic_data : option (list Recommendation.topic))
      (engagement_data : option Recommendation.engagement)
      (peak_hours_data : option (list Z)) :
  Recommendation._generate_insights sentiment_data emotion_data topic_data
                                    engagement_data peak_hours_data = None
  <-> sentiment_data = Some ∅ \/ emotion_data = Some ∅.
Proof.
  unfold Recommendation._generate_insights.
  destruct sentiment_data as [sd|], emotion_data as [ed|];
    try destruct (map_to_list sd) as [|x xs] eqn:Es;
    try destruct (map_to_list ed) as [|y ys] eqn:Ee;
    try apply map_to_list_empty_iff in Es;
    try apply map_to_list_empty_iff in Ee; subst;
    (split; [try discriminate; auto|intros [H|H]; try discriminate H;
                                     try reflexivity]).
  all: injection H as H; subst; rewrite map_to_list_empty in *; discriminate.
Qed.

Lemma generate_recommendations_returns
      (sentiment_data emotion_data : option (gmap string Reports.dist_entry))
      (topic_data : option (list Recommendation.topic))
      (engagement_data : option Recommendation.engagement)
      (peak_hours_data : option (list Z)) (res : Recommendation.result) :
  Recommendation.generate_recommendations
    sentiment_data emotion_data topic_data engagement_data peak_hours_data
  = Some res ->
  Recommendation.recommendations res
  = Recommendation.sort_by
      (fun x => Recommendation.weight (Recommendation.prio x))
      (Recommendation.generated sentiment_data emotion_data topic_data
                                engagement_data peak_hours_data)
  /\ Recommendation.priority_actions res
     = firstn 5 (List.filter
                   (fun r => match Recommendation.prio r with
                             | Recommendation.critical
                             | Recommendation.high => true
                             | _ => false
                             end) (Recommendation.recommendations res))
  /\ Recommendation.performance_score res
     = Recommendation._calculate_performance_score
         sentiment_data emotion_data engagement_data
  /\ Recommendation.total_recommendations res
     = Z.of_nat (length (Recommendation.recommendations res)).
Proof.
  unfold Recommendation.generate_recommendations.
  destruct (Recommendation._generate_insights _ _ _ _ _); [|discriminate].
  intros [= <-]. repeat split.
Qed.

Lemma generate_recommendations_raises
      (sentiment_data emotion_data : option (gmap string Reports.dist_entry))
      (topic_data : option (list Recommendation.topic))
      (engagement_data : option Recommendation.engagement)
      (peak_hours_data : option (list Z)) :
  Recommendation.generate_recommendations
    sentiment_data emotion_data topic_data engagement_data peak_hours_data
  = None
  <-> sentiment_data = Some ∅ \/ emotion_data = Some ∅.
Proof.
  rewrite <- (generate_insights_raises sentiment_data emotion_data topic_data
                                       engagement_data peak_hours_data).
  unfold Recommendation.generate_recommendations.
  destruct (Recommendation._generate_insights _ _ _ _ _);
    split; intros H; try discriminate H; reflexivity.
Qed.

(** C5: the synthesizer returns a result unless a sentiment or emotion
    distribution without entries makes it raise; the recommendations it
    returns are the generated ones sorted by priority weight, critical
    before high before medium before low; recommendations of one priority
    keep the order in which they were generated; and a critical
    recommendation always stands before a low one. *)
Theorem recommendations_sorted_stable
        (sentiment_data emotion_data : option (gmap string Reports.dist_entry))
        (topic_data : option (list Recommendation.topic))
        (engagement_data : option Recommendation.engagement)
        (peak_hours_data : option (list Z)) :
  let weight_of := fun r => Recommendation.weight (Recommendation.prio r) in
  let gen := Recommendation.generated sentiment_data emotion_data topic_data
                                      engagement_data peak_hours_data in
  let returned := Recommendation.generate_recommendations
                    sentiment_data emotion_data topic_data engagement_data
                    peak_hours_data in
  (returned = None <-> sentiment_data = Some ∅ \/ emotion_data = Some ∅)
  /\ forall res, returned = Some res ->
     let out := Recommendation.recommendations res in
     StronglySorted (fun a b => weight_of a <= weight_of b) out
     /\ Permutation gen out
     /\ (forall p, List.filter (fun r => weight_of r =? Recommendation.weight p) out
                   = List.filter (fun r => weight_of r =? Recommendation.weight p) gen)
     /\ (forall i j c l,
            nth_error out i = Some c -> nth_error out j = Some l ->
            Recommendation.prio c = Recommendation.critical ->
            Recommendation.prio l = Recommendation.low ->
            (i < j)%nat).
Proof.
  intros weight_of gen returned.
  split; [apply generate_recommendations_raises|].
  intros res Hres out.
  apply generate_recommendations_returns in Hres as (Hout & _).
  fold out in Hout. fold gen in Hout. fold weight_of in Hout.
  assert (Hs : StronglySorted (fun a b => weight_of a <= weight_of b) out)
    by (rewrite Hout; apply sort_by_sorted).
  split; [exact Hs|]. split; [rewrite Hout; apply sort_by_perm|].
  split; [intros p; rewrite Hout; apply sort_by_filter|].
  intros i j c l Hi Hj Hc Hl.
  destruct (Nat.lt_trichotomy i j) as [Hlt|[->|Hgt]]; [exact Hlt| |].
  - rewrite Hi in Hj. injection Hj as ->. rewrite Hc in Hl. discriminate.
  - pose proof (sorted_nth weight_of out j i l c Hs Hgt Hj Hi) as Hle.
    unfold weight_of in Hle. rewrite Hc, Hl in Hle. simpl in Hle. lia.
Qed.

(** A neutral-heavy sentiment report, an angry emotion report and three
    topics: a medium rule fires first, a critical one after it, and the
    low topic rule later. With a sentiment distribution without entries
    the call raises. *)
Lemma recommendations_sorted_stable_witness :
  let entry := fun p => {| Reports.count := 1; Reports.percentage := p |} in
  let sd : gmap string Reports.dist_entry :=
    <["neutral"%string := entry 60%Q]> (<["positive"%string := entry 40%Q]> ∅) in
  let ed : gmap string Reports.dist_entry :=
    <["anger"%string := entry 20%Q]> (<["joy"%string := entry 80%Q]> ∅) in
  let td := [ {| Recommendation.topic_label := "A"; Recommendation.topic_total := 3 |};
              {| Recommendation.topic_label := "B"; Recommendation.topic_total := 5 |};
              {| Recommendation.topic_label := "C"; Recommendation.topic_total := 3 |} ] in
  let gen := Recommendation.generated (Some sd) (Some ed) (Some td) None None in
  Recommendation.generate_recommendations (Some ∅) (Some ed) (Some td) None None
  = None
  /\ exists res,
      Recommendation.generate_recommendations
        (Some sd) (Some ed) (Some td) None None = Some res
      /\ List.map Recommendation.prio gen
         = [Recommendation.medium; Recommendation.critical;
            Recommendation.medium; Recommendation.low]
      /\ List.map Recommendation.prio (Recommendation.recommendations res)
         = [Recommendation.critical; Recommendation.medium;
            Recommendation.medium; Recommendation.low]
      /\ List.map Recommendation.title (Recommendation.recommendations res)
         = ["High Anger Levels Detected"; "High Neutral Sentiment";
            "Top Performing Topic: B"; "Low Engagement Topic: C"]%string
      /\ (forall i j c l,
             nth_error (Recommendation.recommendations res) i = Some c ->
             nth_error (Recommendation.recommendations res) j = Some l ->
             Recommendation.prio c = Recommendation.critical ->
             Recommendation.prio l = Recommendation.low ->
             (i < j)%nat).
Proof.
  intros entry sd ed td gen. split.
  - apply (recommendations_sorted_stable (Some ∅) (Some ed) (Some td) None None).
    left. reflexivity.
  - destruct (Recommendation.generate_recommendations
                (Some sd) (Some ed) (Some td) None None) as [res|] eqn:E;
      [|vm_compute in E; discriminate E].
    exists res. split; [reflexivity|].
    destruct (recommendations_sorted_stable (Some sd) (Some ed) (Some td) None None)
      as (_ & H).
    destruct (H res E) as (_ & _ & _ & Hcl).
    vm_compute in E. injection E as <-.
    split; [vm_compute; reflexivity|]. split; [vm_compute; reflexivity|].
    split; [vm_compute; reflexivity|]. exact Hcl.
Defined.

(** ** The performance score *)

Section Score.

Import Reports Recommendation.

Lemma Qle_bool_false (a b : Q) : (b < a)%Q -> Qle_bool a b = false.
Proof.
  intros H. destruct (Qle_bool a b) eqn:E; [|reflexivity].
  apply Qle_bool_iff in E. lra.
Qed.

Lemma Qle_bool_true (a b : Q) : (a <= b)%Q -> Qle_bool a b = true.
Proof. apply Qle_bool_iff. Qed.

(** C4, amended: every stored sub-score is the stated expression rounded
    to one decimal: the sentiment score is clamp(positive% - negative% + 50),
    the emotion score clamp(joy% - (anger% + sadness% + disgust%) + 50), the
    engagement score 100, 75 or 50 from an average of 200, 100 or 50 per
    post on, and (avg / 50) * 50 below 50, so that an average of exactly 200
    gives 100 and one of exactly 50 gives 50. The overall score is the
    weighted sum 0.35, 0.35, 0.30 of the stored sub-scores rounded to one
    decimal, and the rating tiers 80, 60 and 40 are applied to that weighted
    sum before it is rounded. All of it is float arithmetic. *)
Theorem performance_score_formula
        (sd ed : gmap string dist_entry) (data : engagement) :
  let r := _calculate_performance_score (Some sd) (Some ed) (Some data) in
  let avg := per_post (default 0 (total_engagement data))
                      (default 1 (total_posts data)) in
  let w := fadd (fadd (fmul (sentiment_score r) (to_float 0.35))
                      (fmul (emotion_score r) (to_float 0.35)))
                (fmul (engagement_score r) (to_float 0.30)) in
  sentiment_score r
  = py_round (clamp (fadd (fsub (pct sd "positive") (pct sd "negative")) 50)) 1
  /\ emotion_score r
     = py_round
         (clamp (fadd (fsub (pct ed "joy")
                            (fadd (fadd (pct ed "anger") (pct ed "sadness"))
                                  (pct ed "disgust")))
                      50)) 1
  /\ ((200 <= avg)%Q -> engagement_score r = 100%Q)
  /\ ((100 <= avg < 200)%Q -> engagement_score r = 75%Q)
  /\ ((50 <= avg < 100)%Q -> engagement_score r = 50%Q)
  /\ ((avg < 50)%Q -> engagement_score r = py_round (fmul (fdiv avg 50) 50) 1)
  /\ overall_score r = py_round w 1
  /\ ((80 <= w)%Q -> rating r = "Excellent"%string)
  /\ ((60 <= w < 80)%Q -> rating r = "Good"%string)
  /\ ((40 <= w < 60)%Q -> rating r = "Fair"%string)
  /\ ((w < 40)%Q -> rating r = "Poor"%string).
Proof.
  intros r avg w. subst w r. unfold _calculate_performance_score.
  cbn [sentiment_score emotion_score engagement_score overall_score rating].
  fold avg.
  assert (H100 : py_round 100 1 = 100%Q) by (vm_compute; reflexivity).
  assert (H75 : py_round 75 1 = 75%Q) by (vm_compute; reflexivity).
  assert (H50 : py_round 50 1 = 50%Q) by (vm_compute; reflexivity).
  split; [reflexivity|]. split; [reflexivity|].
  unfold engagement_scale, rating_of, weighted.
  split; [intros H; rewrite Qle_bool_true by exact H; exact H100|].
  split; [intros [H1 H2]; rewrite Qle_bool_false by exact H2;
          rewrite Qle_bool_true by exact H1; exact H75|].
  split; [intros [H1 H2]; rewrite !Qle_bool_false by lra;
          rewrite Qle_bool_true by exact H1; exact H50|].
  split; [intros H; rewrite !Qle_bool_false by lra; reflexivity|].
  split; [reflexivity|].
  split; [intros H; rewrite Qle_bool_true by exact H; reflexivity|].
  split; [intros [H1 H2]; rewrite Qle_bool_false by exact H2;
          rewrite Qle_bool_true by exact H1; reflexivity|].
  split; [intros [H1 H2]; rewrite !Qle_bool_false by lra;
          rewrite Qle_bool_true by exact H1; reflexivity|].
  intros H; rewrite !Qle_bool_false by lra; reflexivity.
Qed.

(** C4 as stated fails, at two inputs. With the percentages 0.34 and 0.44
    the stored sentiment score is not the clamped difference, 50.34, but its
    rounding to one decimal, 50.3, and the overall score, 35.2, is not the
    rounded weighted sum of the unrounded sub-scores, 35.3. With full
    sentiment and emotion scores and 166 engagements on 5 posts the overall
    score is 80.0 and the rating is Good: the tier is taken from the
    weighted sum 79.96 before it is rounded. *)
Lemma performance_score_not_unrounded :
  let entry := fun p => {| count := 1; percentage := p |} in
  let sd : gmap string dist_entry :=
    <["positive"%string := entry (to_float 0.34)]> ∅ in
  let ed : gmap string dist_entry :=
    <["joy"%string := entry (to_float 0.44)]> ∅ in
  let data := {| engagement_by_type := None; total_engagement := Some 0;
                 total_posts := Some 1 |} in
  let r := _calculate_performance_score (Some sd) (Some ed) (Some data) in
  let s := clamp (fadd (fsub (pct sd "positive") (pct sd "negative")) 50) in
  let e := clamp (fadd (fsub (pct ed "joy")
                             (fadd (fadd (pct ed "anger") (pct ed "sadness"))
                                   (pct ed "disgust")))
                       50) in
  let g := engagement_scale (per_post 0 1) in
  let sd' : gmap string dist_entry := <["positive"%string := entry 100%Q]> ∅ in
  let ed' : gmap string dist_entry := <["joy"%string := entry 100%Q]> ∅ in
  let data' := {| engagement_by_type := None; total_engagement := Some 166;
                  total_posts := Some 5 |} in
  let r' := _calculate_performance_score (Some sd') (Some ed') (Some data') in
  (s = to_float 50.34 /\ sentiment_score r = to_float 50.3
   /\ ~ (sentiment_score r == s)%Q)
  /\ (overall_score r = to_float 35.2
      /\ py_round (fadd (fadd (fmul s (to_float 0.35)) (fmul e (to_float 0.35)))
                        (fmul g (to_float 0.30))) 1
         = to_float 35.3
      /\ ~ (to_float 35.2 == to_float 35.3)%Q)
  /\ (overall_score r' = 80%Q /\ (80 <= overall_score r')%Q
      /\ rating r' = "Good"%string /\ rating r' <> "Excellent"%string).
Proof.
  intros entry sd ed data r s e g sd' ed' data' r'.
  assert (Hs : sentiment_score r = to_float 50.3) by (vm_compute; reflexivity).
  assert (Hs' : s = to_float 50.34) by (vm_compute; reflexivity).
  assert (Ho : overall_score r' = 80%Q) by (vm_compute; reflexivity).
  assert (Hr : rating r' = "Good"%string) by (vm_compute; reflexivity).
  split; [|split].
  - split; [exact Hs'|]. split; [exact Hs|].
    rewrite Hs, Hs'. intros H. vm_compute in H. discriminate H.
  - split; [vm_compute; reflexivity|]. split; [vm_compute; reflexivity|].
    intros H. vm_compute in H. discriminate H.
  - split; [exact Ho|]. split; [rewrite Ho; apply Qle_refl|].
    split; [exact Hr|]. rewrite Hr. discriminate.
Qed.

(** The scenario of ten replies, 60% positive and 40% negative, with a
    joyful emotion report and 800 engagements on 4 posts; then sub-scores
    of 88, 99 and 48.5, whose weighted sum is the float just below 80. *)
Lemma performance_score_formula_witness :
  let entry := fun p => {| count := 1; percentage := p |} in
  let sd : gmap string dist_entry :=
    <["positive"%string := entry 60%Q]> (<["negative"%string := entry 40%Q]> ∅) in
  let ed : gmap string dist_entry := <["joy"%string := entry 100%Q]> ∅ in
  let data := {| engagement_by_type := None; total_engagement := Some 800;
                 total_posts := Some 4 |} in
  let r := _calculate_performance_score (Some sd) (Some ed) (Some data) in
  let sd' : gmap string dist_entry := <["positive"%string := entry 38%Q]> ∅ in
  let ed' : gmap string dist_entry := <["joy"%string := entry 49%Q]> ∅ in
  let data' := {| engagement_by_type := None; total_engagement := Some 97;
                  total_posts := Some 2 |} in
  let r' := _calculate_performance_score (Some sd') (Some ed') (Some data') in
  (sentiment_score r = 70%Q /\ engagement_score r = 100%Q
   /\ overall_score r = to_float 89.5 /\ rating r = "Excellent"%string)
  /\ (sentiment_score r' = 88%Q /\ emotion_score r' = 99%Q
      /\ engagement_score r' = to_float 48.5 /\ overall_score r' = 80%Q
      /\ rating r' = "Good"%string).
Proof.
  intros entry sd ed data r sd' ed' data' r'. split.
  - destruct (performance_score_formula sd ed data)
      as (Hs & _ & Hg & _ & _ & _ & Ho & Hr & _).
    fold r in Hs, Hg, Ho, Hr.
    split; [rewrite Hs; vm_compute; reflexivity|].
    split; [apply Hg; vm_compute; discriminate|].
    split; [rewrite Ho; vm_compute; reflexivity|].
    apply Hr. vm_compute. discriminate.
  - destruct (performance_score_formula sd' ed' data')
      as (Hs & He & _ & _ & _ & Hg & Ho & _ & Hr & _).
    fold r' in Hs, He, Hg, Ho, Hr.
    split; [rewrite Hs; vm_compute; reflexivity|].
    split; [rewrite He; vm_compute; reflexivity|].
    split; [rewrite Hg; [vm_compute; reflexivity|vm_compute; reflexivity]|].
    split; [rewrite Ho; vm_compute; reflexivity|].
    apply Hr. split; vm_compute; [discriminate|reflexivity].
Defined.

End Score.

(** ** Totality of the normalization *)




(** ** Peak activity hours *)

Section Peaks.

Import Activity.

(** The guard of [get_peak_activity_hours] counts the parsed timestamps,
    not the distinct hours. *)
Lemma peak_guard (sk : sklearn) (created_at : list (option Z)) :
  created_at <> [] ->
  (length (omap id created_at) < 2)%nat ->
  get_peak_activity_hours sk created_at = (NotEnoughData, []).
Proof.
  intros Hne Hlen. unfold get_peak_activity_hours.
  destruct created_at as [|x rest]; [congruence|].
  destruct (Nat.ltb_spec (length (omap id (x :: rest))) 2); [reflexivity|lia].
Qed.

(** C6, the code at two replies posted in the same hour: one distinct
    hour is observed, the clustering is invoked on the single row, once it
    is standardized, and the result is not the insufficient-data answer. *)
Theorem peak_hours_one_hour_is_clustered (sk : sklearn) :
  let created_at := [Some 5; Some 5] in
  let result := get_peak_activity_hours sk created_at in
  Counter (omap id created_at) = [(5, 2)]
  /\ fst result <> NotEnoughData
  /\ In (ScalerFitTransform [(5, 2)]) (snd result)
  /\ In (DbscanFitPredict (fit_transform sk [(5, 2)])) (snd result).
Proof.
  intros created_at result. split; [reflexivity|].
  subst result created_at. unfold get_peak_activity_hours.
  cbn [omap list_omap id length Nat.ltb Nat.leb].
  change (Counter [5; 5]) with [(5, 2)].
  destruct (negb _).
  - cbn [fst snd]. split; [discriminate|]. split; [now left|]. right. now left.
  - destruct (pca sk _) as [[X_pca ratios]|]; cbn [fst snd];
      (split; [discriminate|]); (split; [now left|]); right; now left.
Qed.

(** C7, the code at eight replies, one in each hour from 10 to 17, which
    form a single cluster: the reported average is the mean of the hours,
    13, where the mean of the per-hour reply counts is 1. *)
Theorem peak_range_averages_the_hours :
  let hours := [10; 11; 12; 13; 14; 15; 16; 17] in
  let X := Counter hours in
  let labels := [0; 0; 0; 0; 0; 0; 0; 0] in
  X = [(10, 1); (11, 1); (12, 1); (13, 1); (14, 1); (15, 1); (16, 1); (17, 1)]
  /\ peak_ranges_of X labels
     = [{| cluster_id := 0; start_hour := 10; end_hour := 17;
           range := "10:00 - 17:00"; avg_activity := 13 |}]
  /\ int_mean (List.map snd X) = 1.
Proof. repeat split; vm_compute; reflexivity. Qed.

End Peaks.

(** ** Substitution and tokens *)

(** Induction on the length of a string. *)
Lemma pystr_length_ind (P : pystr -> Prop) :
  (forall t, (forall u, (length u < length t)%nat -> P u) -> P t) ->
  forall t, P t.
Proof.
  intros H t. remember (length t) as n eqn:E. revert t E.
  induction n as [n IH] using lt_wf_ind. intros t ->.
  apply H. intros u Hu. now apply (IH (length u)).
Qed.

Section Substitution.

Variable m : pystr -> option (nat * pystr).

Lemma sub_from_skip (k : nat) (t : pystr) :
  sub_from m k t = sub_from m O (skipn k t).
Proof.
  revert k. induction t as [|c r IH]; intros k.
  - now destruct k.
  - destruct k as [|k]; [reflexivity|]. simpl. apply IH.
Qed.

(** The scan, one step at a time. *)
Lemma re_sub_cons (c : Z) (r : pystr) :
  re_sub m (c :: r)
  = match m (c :: r) with
    | Some (S n, repl) => repl ++ re_sub m (skipn n r)
    | _ => c :: re_sub m r
    end.
Proof.
  unfold re_sub. simpl. destruct (m (c :: r)) as [[[|n] repl]|]; try reflexivity.
  now rewrite sub_from_skip.
Qed.

Lemma re_sub_nil : re_sub m [] = [].
Proof. reflexivity. Qed.

(** A substitution whose replacements satisfy [P] keeps [P]. *)
Lemma re_sub_Forall (P : Z -> Prop) (t : pystr) :
  (forall u n repl, Forall P u -> m u = Some (n, repl) -> Forall P repl) ->
  Forall P t -> Forall P (re_sub m t).
Proof.
  intros Hm. induction t as [t IH] using pystr_length_ind. intros Ht.
  destruct t as [|c r]; [constructor|]. rewrite re_sub_cons.
  assert (Hr : Forall P r) by now inversion Ht.
  destruct (m (c :: r)) as [[[|n] repl]|] eqn:E.
  - constructor; [now inversion Ht|]. apply IH; [simpl; lia | exact Hr].
  - apply Forall_app. split; [now apply (Hm _ _ _ Ht E)|].
    apply IH.
    + simpl. rewrite length_skipn. lia.
    + rewrite <- (firstn_skipn n r) in Hr. now apply Forall_app in Hr.
  - constructor; [now inversion Ht|]. apply IH; [simpl; lia | exact Hr].
Qed.

(** A pattern that matches nowhere in strings over [P] leaves them alone. *)
Lemma re_sub_id (P : Z -> Prop) (t : pystr) :
  (forall u, Forall P u -> m u = None) ->
  Forall P t -> re_sub m t = t.
Proof.
  intros Hm. induction t as [|c r IH]; intros Ht; [reflexivity|].
  rewrite re_sub_cons, (Hm _ Ht). f_equal. apply IH. now inversion Ht.
Qed.

End Substitution.

Section Tokens.


Lemma split_words (t : pystr) : Forall word (split t).
Proof.
  induction t as [|c r IH]; simpl; [constructor|].
  destruct (is_space c) eqn:Hc; [exact IH|].
  assert (Hone : word [c]) by (split; [discriminate | now repeat constructor]).
  unfold push_char. destruct (word_ends r); [now constructor|].
  destruct (split r) as [|w ws]; [now repeat constructor|].
  inversion IH as [|? ? [Hw1 Hw2] Hws]; subst.
  constructor; [|exact Hws]. split; [discriminate | now constructor].
Qed.

Lemma split_one_word (w : pystr) : word w -> split w = [w].
Proof.
  intros [Hne Hw]. induction w as [|c r IH]; [congruence|].
  inversion Hw as [|? ? Hc Hr]; subst. simpl. rewrite Hc.
  destruct r as [|d r']; [reflexivity|].
  rewrite IH by (discriminate || assumption).
  inversion Hr as [|? ? Hd _]; subst. simpl. now rewrite Hd.
Qed.

Lemma split_word_space (w rest : pystr) :
  word w -> split (w ++ 32 :: rest) = w :: split rest.
Proof.
  intros [Hne Hw]. induction w as [|c r IH]; [congruence|].
  inversion Hw as [|? ? Hc Hr]; subst. cbn [app split]. rewrite Hc.
  destruct r as [|d r'].
  - reflexivity.
  - rewrite IH by (discriminate || assumption).
    inversion Hr as [|? ? Hd _]; subst. simpl. now rewrite Hd.
Qed.

Lemma split_join (ws : list pystr) : Forall word ws -> split (join ws) = ws.
Proof.
  induction ws as [|w ws IH]; intros H; [reflexivity|].
  inversion H as [|? ? Hw Hws]; subst.
  destruct ws as [|w2 ws'].
  - now apply split_one_word.
  - change (join (w :: w2 :: ws')) with (w ++ 32 :: join (w2 :: ws')).
    rewrite split_word_space by exact Hw. now rewrite IH.
Qed.

(** Every token is a factor of the text, the first one a prefix when the
    text starts with it. *)
Lemma split_shape (t : pystr) :
  match split t with
  | [] => True
  | w :: _ => word_ends t = false -> exists b, t = w ++ b
  end
  /\ forall w, In w (split t) -> exists a b, t = a ++ w ++ b.
Proof.
  induction t as [|c r [IH1 IH2]]; [split; [exact I | intros w []]|].
  simpl. destruct (is_space c) eqn:Hc.
  - split.
    + destruct (split r); [exact I | discriminate].
    + intros w Hw. destruct (IH2 w Hw) as (a & b & ->).
      now exists (c :: a), b.
  - assert (Hshift : forall w, In w (split r) ->
                               exists a b, c :: r = a ++ w ++ b).
    { intros w Hw. destruct (IH2 w Hw) as (a & b & ->).
      now exists (c :: a), b. }
    unfold push_char. destruct (word_ends r) eqn:He.
    + split; [intros _; now exists r|].
      intros w [<- | Hw]; [now exists [], r | now apply Hshift].
    + destruct (split r) as [|w' ws'] eqn:Es.
      * split; [intros _; now exists r|].
        intros w [<- | []]. now exists [], r.
      * destruct (IH1 eq_refl) as [b Hb].
        split; [intros _; exists b; now rewrite Hb|].
        intros w [<- | Hw].
        -- exists [], b. now rewrite Hb.
        -- apply Hshift. now right.
Qed.

Lemma split_factor (t w : pystr) :
  In w (split t) -> exists a b, t = a ++ w ++ b.
Proof. apply split_shape. Qed.

Lemma filter_fixed {A : Type} (f : A -> bool) (l : list A) :
  Forall (fun x => f x = true) l -> List.filter f l = l.
Proof.
  induction 1 as [|x l Hx _ IH]; [reflexivity|].
  simpl. now rewrite Hx, IH.
Qed.

Lemma filter_all {A : Type} (f : A -> bool) (l : list A) :
  Forall (fun x => f x = true) (List.filter f l).
Proof.
  apply List.Forall_forall. intros x Hx. now apply filter_In in Hx.
Qed.

Lemma filter_Forall {A : Type} (P : A -> Prop) (f : A -> bool) (l : list A) :
  Forall P l -> Forall P (List.filter f l).
Proof.
  intros H. apply List.Forall_forall. intros x Hx.
  apply filter_In in Hx as [Hx _]. rewrite List.Forall_forall in H. auto.
Qed.

End Tokens.

(** ** Stopword removal *)

Lemma remove_stopwords_tokens (t : pystr) :
  split (Sentiment.remove_stopwords t)
  = List.filter Sentiment.keep_word (split t).
Proof.
  unfold Sentiment.remove_stopwords. apply split_join.
  apply filter_Forall, split_words.
Qed.

Lemma keep_word_spec (w : pystr) :
  Sentiment.keep_word w = true ->
  ~ In w Sentiment.stopwords /\ (2 < length w)%nat.
Proof.
  unfold Sentiment.keep_word. intros H.
  apply andb_true_iff in H as [H1 H2]. split.
  - apply negb_true_iff, bool_decide_eq_false in H1.
    now rewrite <- list_elem_of_In.
  - now apply Nat.ltb_lt.
Qed.

(** ** Characters *)

Import Patterns Normal.

(** A property of the 128 ASCII code points, checked on each of them. *)
Lemma ascii_forall (f : Z -> bool) :
  forallb f (List.map Z.of_nat (seq 0 128)) = true ->
  forall c, is_ascii c = true -> f c = true.
Proof.
  intros H c Hc. rewrite forallb_forall in H. apply H.
  unfold is_ascii in Hc. zbool.
  apply in_map_iff. exists (Z.to_nat c). split; [lia|].
  apply in_seq. lia.
Qed.

Lemma token_char_ascii (c : Z) : token_char c = true -> is_ascii c = true.
Proof. unfold token_char, is_ascii. zbool. lia. Qed.

Lemma out_char_ascii (c : Z) : out_char c = true -> is_ascii c = true.
Proof. unfold out_char, token_char, is_ascii. zbool. lia. Qed.

Lemma token_char_not_space (c : Z) : token_char c = true -> is_space c = false.
Proof.
  intros H. pose proof (token_char_ascii c H) as Ha. revert H.
  apply (ascii_forall (fun c => implb (token_char c) (negb (is_space c))))
    in Ha; [|vm_compute; reflexivity].
  destruct (token_char c), (is_space c); simpl in *; congruence.
Qed.

Lemma clean_not_space (c : Z) :
  clean_char c = true -> is_space c = false -> token_char c = true.
Proof. unfold clean_char. intros H Hs. rewrite Hs in H. now rewrite orb_false_r in H. Qed.

Lemma out_char_facts (c : Z) :
  out_char c = true ->
  ascii_lower c = c
  /\ in_emoji_range c = false
  /\ (ascii_alnum c || (c =? 95)) || is_space c = true.
Proof.
  intros H. pose proof (out_char_ascii c H) as Ha.
  apply (ascii_forall
           (fun c => implb (out_char c)
                       ((ascii_lower c =? c)
                        && negb (in_emoji_range c)
                        && ((ascii_alnum c || (c =? 95)) || is_space c))))
    in Ha; [|vm_compute; reflexivity].
  rewrite H in Ha. simpl in Ha. zbool. tauto.
Qed.

Lemma ascii_lower_low (c : Z) :
  is_ascii c = true -> low_char (ascii_lower c) = true.
Proof.
  apply (ascii_forall (fun c => low_char (ascii_lower c))).
  vm_compute. reflexivity.
Qed.

Lemma low_word_clean (c : Z) :
  low_char c = true ->
  (ascii_alnum c || (c =? 95)) || is_space c = true ->
  clean_char c = true.
Proof.
  intros Hl Hw. assert (Ha : is_ascii c = true).
  { unfold low_char in Hl. now apply andb_true_iff in Hl. }
  apply (ascii_forall
           (fun c => implb (low_char c
                            && ((ascii_alnum c || (c =? 95)) || is_space c))
                           (clean_char c)))
    in Ha; [|vm_compute; reflexivity].
  now rewrite Hl, Hw in Ha.
Qed.

(** ** A database that agrees with Basic Latin *)

Section Exact.

Variable db : ucd.
Hypothesis Hdb : ascii_exact db = true.

Lemma exact_spec (c : Z) :
  is_ascii c = true ->
  u_lower db c = [ascii_lower c] /\ u_alnum db c = ascii_alnum c.
Proof.
  intros Hc. pose proof (ascii_forall _ Hdb c Hc) as H. simpl in H.
  apply andb_true_iff in H as [H1 H2].
  apply bool_decide_eq_true in H1. now apply Bool.eqb_prop in H2.
Qed.

Lemma lower_ascii (t : pystr) :
  Forall (fun c => is_ascii c = true) t ->
  lower db t = List.map ascii_lower t.
Proof.
  unfold lower. intros H. generalize (@nil Z).
  induction H as [|c r Hc _ IH]; intros before; [reflexivity|].
  cbn [lower_from List.map]. rewrite IH.
  destruct (Z.eqb_spec c 931) as [->|_]; [discriminate Hc|].
  destruct (exact_spec c Hc) as [-> _]. reflexivity.
Qed.

Lemma is_word_ascii (c : Z) :
  is_ascii c = true -> is_word db c = ascii_alnum c || (c =? 95).
Proof. intros Hc. unfold is_word. now destruct (exact_spec c Hc) as [_ ->]. Qed.

End Exact.

(** ** What the patterns put into the text *)

Section Replacements.

Variable P : Z -> Prop.

Lemma Forall_firstn_skipn (n k : nat) (u : pystr) :
  Forall P u -> Forall P (firstn n (skipn k u)).
Proof.
  intros H. rewrite <- (firstn_skipn k u) in H.
  apply Forall_app in H as [_ H].
  rewrite <- (firstn_skipn n (skipn k u)) in H.
  now apply Forall_app in H.
Qed.

Lemma lit_then_run_Forall lit p f (u : pystr) n repl :
  (forall g, Forall P g -> Forall P (f g)) ->
  Forall P u ->
  lit_then_run lit p f u = Some (n, repl) ->
  Forall P repl.
Proof.
  intros Hf Hu. unfold lit_then_run.
  destruct (starts_with lit u); [|discriminate].
  destruct (run_len p (skipn (length lit) u)); [discriminate|].
  intros [= _ <-]. now apply Hf, Forall_firstn_skipn.
Qed.

Lemma erase_Forall (g : pystr) : Forall P g -> Forall P (erase g).
Proof. constructor. Qed.

Lemma blank_Forall (g : pystr) : P 32 -> Forall P g -> Forall P (blank g).
Proof. repeat constructor. assumption. Qed.

Lemma replace_Forall (old new t : pystr) :
  Forall P new -> Forall P t -> Forall P (replace old new t).
Proof.
  intros Hn Ht. unfold replace. destruct old as [|a old].
  - apply Forall_app. split; [exact Hn|].
    induction Ht as [|c r Hc _ IH]; simpl; [constructor|].
    constructor; [exact Hc|]. apply Forall_app. now split.
  - apply re_sub_Forall; [|exact Ht].
    intros u n repl _. destruct (starts_with (a :: old) u); [|discriminate].
    now intros [= _ <-].
Qed.

Lemma convert_emoji_Forall (dict : list (pystr * pystr)) (t : pystr) :
  P 32 ->
  Forall (fun kv => Forall P (snd kv)) dict ->
  Forall P t -> Forall P (Sentiment.convert_emoji dict t).
Proof.
  intros H32 Hd. unfold Sentiment.convert_emoji. revert t.
  induction Hd as [|kv dict Hkv _ IH]; intros t Ht; [exact Ht|].
  simpl. apply IH, replace_Forall; [|exact Ht].
  constructor; [exact H32|]. apply Forall_app. split; [exact Hkv|].
  now repeat constructor.
Qed.

Lemma url_http_Forall (u : pystr) n repl :
  Forall P u -> Sentiment.url_http u = Some (n, repl) -> Forall P repl.
Proof.
  intros Hu. unfold Sentiment.url_http.
  destruct (lit_then_run (py "https://") _ _ u) as [[n' r']|] eqn:E.
  - intros [= _ <-]. eapply lit_then_run_Forall; [apply erase_Forall|exact Hu|exact E].
  - apply lit_then_run_Forall; [apply erase_Forall|exact Hu].
Qed.

Lemma camel_Forall (u : pystr) n repl :
  P 32 -> Forall P u -> camel u = Some (n, repl) -> Forall P repl.
Proof.
  intros H32 Hu. unfold camel. destruct u as [|a [|b u]]; try discriminate.
  destruct (_ && _); [|discriminate]. intros [= _ <-].
  inversion Hu as [|? ? Ha Hu']; subst. inversion Hu' as [|? ? Hb _]; subst.
  now repeat constructor.
Qed.

Lemma repeated_Forall (u : pystr) n repl :
  Forall P u -> repeated u = Some (n, repl) -> Forall P repl.
Proof.
  intros Hu. unfold repeated. destruct u as [|c r]; [discriminate|].
  destruct (_ && _); [|discriminate]. intros [= _ <-].
  inversion Hu; subst. now repeat constructor.
Qed.

Lemma special_Forall db (u : pystr) n repl :
  P 32 -> special db u = Some (n, repl) -> Forall P repl.
Proof.
  intros H32. unfold special. destruct u as [|c r]; [discriminate|].
  destruct (_ && _); [|discriminate]. intros [= _ <-].
  now repeat constructor.
Qed.

Lemma lstrip_suffix (t : pystr) : exists a, t = a ++ lstrip t.
Proof.
  induction t as [|c r [a IH]]; [now exists []|].
  simpl. destruct (is_space c); [|now exists []].
  exists (c :: a). simpl. now rewrite <- IH.
Qed.

Lemma rstrip_prefix (t : pystr) : exists b, t = rstrip t ++ b.
Proof.
  induction t as [|c r [b IH]]; [now exists []|].
  simpl. destruct (rstrip r) as [|d r'] eqn:E.
  - destruct (is_space c).
    + now exists (c :: r).
    + exists r. reflexivity.
  - exists b. simpl. now rewrite IH at 1.
Qed.

Lemma strip_Forall (t : pystr) : Forall P t -> Forall P (strip t).
Proof.
  intros H. unfold strip.
  destruct (lstrip_suffix t) as [a Ha]. rewrite Ha in H.
  apply Forall_app in H as [_ H].
  destruct (rstrip_prefix (lstrip t)) as [b Hb]. rewrite Hb in H.
  now apply Forall_app in H.
Qed.

End Replacements.

(** ** The text stays ASCII up to the lower-casing *)

Section FirstPass.

Variable db : ucd.
Hypothesis Hdb : ascii_exact db = true.

Let A (c : Z) : Prop := is_ascii c = true.

Lemma lower_Forall_low (t : pystr) :
  Forall A t -> Forall (fun c => low_char c = true) (lower db t).
Proof.
  intros H. rewrite (lower_ascii db Hdb t H).
  induction H as [|c r Hc _ IH]; simpl; constructor; [|exact IH].
  now apply ascii_lower_low.
Qed.

Lemma low_char_ascii (c : Z) : low_char c = true -> A c.
Proof. unfold low_char, A. intros H. now apply andb_true_iff in H. Qed.

Lemma process_hashtag_ascii (g : pystr) :
  Forall A g -> Forall A (process_hashtag db g).
Proof.
  intros H. unfold process_hashtag.
  eapply List.Forall_impl; [apply low_char_ascii|].
  apply lower_Forall_low. apply re_sub_Forall; [|exact H].
  intros u n repl Hu. now apply camel_Forall.
Qed.

Lemma emoji_values_ascii :
  Forall (fun kv => Forall A (snd kv)) Sentiment.emoji_dict.
Proof.
  assert (H : forallb (fun kv => forallb is_ascii (snd kv)) Sentiment.emoji_dict
              = true) by (vm_compute; reflexivity).
  rewrite forallb_forall in H. apply List.Forall_forall. intros kv Hkv.
  specialize (H kv Hkv). rewrite forallb_forall in H.
  apply List.Forall_forall. exact H.
Qed.

End FirstPass.

(** ** Runs of one character *)

Section Runs.

Lemma run_len_app_le (p : Z -> bool) (a b : pystr) :
  (run_len p a <= run_len p (a ++ b))%nat.
Proof.
  induction a as [|c r IH]; simpl; [lia|]. destruct (p c); lia.
Qed.

Lemma run_len_app_stop (p : Z -> bool) (a b : pystr) (d : Z) :
  p d = false -> run_len p (a ++ d :: b) = run_len p a.
Proof.
  intros Hd. induction a as [|c r IH]; simpl; [now rewrite Hd|].
  destruct (p c); [now rewrite IH | reflexivity].
Qed.

Lemma run_len_skipn (p : Z -> bool) (r : pystr) :
  run_len p (skipn (run_len p r) r) = O.
Proof.
  induction r as [|c r IH]; [reflexivity|]. simpl.
  destruct (p c) eqn:E; simpl; [exact IH | now rewrite E].
Qed.

Lemma run_len_head (p : Z -> bool) (t u : pystr) :
  hd_error t = hd_error u -> run_len p u = O -> run_len p t = O.
Proof.
  destruct t as [|c t], u as [|d u]; simpl; try discriminate; try reflexivity.
  intros [= ->]. now destruct (p d).
Qed.

Variable g : Z -> bool.

Lemma norun_suffix (a t : pystr) : norun g (a ++ t) = true -> norun g t = true.
Proof.
  induction a as [|c r IH]; [trivial|]. simpl. intros H.
  apply andb_true_iff in H as [_ H]. now apply IH.
Qed.

Lemma norun_prefix (t b : pystr) : norun g (t ++ b) = true -> norun g t = true.
Proof.
  induction t as [|c r IH]; [reflexivity|]. cbn [app norun]. intros H.
  apply andb_true_iff in H as [H1 H2]. apply andb_true_iff.
  split; [|now apply IH].
  destruct (g c); [|reflexivity]. rewrite andb_true_l in *.
  apply negb_true_iff, Nat.leb_gt in H1. apply negb_true_iff, Nat.leb_gt.
  pose proof (run_len_app_le (Z.eqb c) r b). lia.
Qed.

Lemma norun_factor (a w b : pystr) :
  norun g (a ++ w ++ b) = true -> norun g w = true.
Proof. intros H. now apply norun_suffix, norun_prefix in H. Qed.

(** Changing the guard on a text whose characters the first guard all
    accepts, or to a guard that accepts less. *)
Lemma norun_weaken (g' : Z -> bool) (t : pystr) :
  Forall (fun c => g' c = true -> g c = true) t ->
  norun g t = true -> norun g' t = true.
Proof.
  induction 1 as [|c r Hc _ IH]; [trivial|]. cbn [norun]. intros H.
  apply andb_true_iff in H as [H1 H2]. rewrite (IH H2), andb_true_r.
  destruct (g' c); [|reflexivity]. now rewrite Hc in H1.
Qed.

End Runs.

(** ** Step 7: repeated characters *)

Lemma repeated_head (t : pystr) :
  hd_error (re_sub repeated t) = hd_error t.
Proof.
  destruct t as [|c r]; [reflexivity|]. rewrite re_sub_cons.
  unfold repeated. destruct (_ && _); reflexivity.
Qed.

Lemma repeated_run_le (c : Z) (r : pystr) :
  (run_len (Z.eqb c) (re_sub repeated r) <= run_len (Z.eqb c) r)%nat.
Proof.
  induction r as [|d r IH]; [simpl; lia|].
  destruct (Z.eqb_spec c d) as [<-|Hne].
  - rewrite re_sub_cons. unfold repeated at 1.
    destruct (negb (c =? 10) && (3 <=? run_len (Z.eqb c) r)%nat) eqn:E.
    + apply andb_true_iff in E as [_ E]. apply Nat.leb_le in E.
      cbn [app run_len]. rewrite Z.eqb_refl.
      rewrite (run_len_head _ _ (skipn (run_len (Z.eqb c) r) r));
        [lia | apply repeated_head | apply run_len_skipn].
    + cbn [run_len]. rewrite Z.eqb_refl. lia.
  - rewrite (run_len_head _ _ (d :: r)); [lia | apply repeated_head |].
    simpl. now destruct (Z.eqb_spec c d).
Qed.

Lemma repeated_norun (t : pystr) :
  norun not_newline (re_sub repeated t) = true.
Proof.
  induction t as [t IH] using pystr_length_ind.
  destruct t as [|c r]; [reflexivity|]. rewrite re_sub_cons.
  unfold repeated at 1.
  destruct (negb (c =? 10) && (3 <=? run_len (Z.eqb c) r)%nat) eqn:E.
  - set (T := re_sub repeated (skipn (run_len (Z.eqb c) r) r)).
    assert (HT : run_len (Z.eqb c) T = O).
    { apply (run_len_head _ _ (skipn (run_len (Z.eqb c) r) r));
        [apply repeated_head | apply run_len_skipn]. }
    cbn [app norun run_len]. rewrite Z.eqb_refl, HT. cbn [Nat.leb].
    rewrite !andb_false_r. simpl. apply IH. simpl. rewrite length_skipn. lia.
  - cbn [norun]. rewrite IH by (simpl; lia). rewrite andb_true_r.
    unfold not_newline. destruct (negb (c =? 10)); [|reflexivity].
    rewrite andb_true_l in *. apply negb_true_iff, Nat.leb_gt.
    apply Nat.leb_gt in E.
    pose proof (repeated_run_le c r). lia.
Qed.

(** ** Step 8: special characters *)

Lemma special_map (db : ucd) (t : pystr) :
  re_sub (special db) t
  = List.map (fun c => if negb (is_word db c) && negb (is_space c)
                       then 32 else c) t.
Proof.
  induction t as [|c r IH]; [reflexivity|]. rewrite re_sub_cons.
  change (special db (c :: r))
    with (if negb (is_word db c) && negb (is_space c)
          then Some (1%nat, [32]) else None).
  cbn [List.map]. destruct (_ && _); rewrite ?skipn_O; cbn [app];
    now rewrite IH.
Qed.

Lemma norun_blanked (f : Z -> Z) (t : pystr) :
  (forall c, f c = c \/ f c = 32) ->
  norun not_space t = true -> norun not_space (List.map f t) = true.
Proof.
  intros Hf. induction t as [|c r IH]; [trivial|]. cbn [List.map norun].
  intros H.
  apply andb_true_iff in H as [H1 H2]. rewrite (IH H2), andb_true_r.
  destruct (Hf c) as [E|E]; rewrite E; [|reflexivity].
  destruct (not_space c) eqn:Hc; [|reflexivity]. rewrite andb_true_l in *.
  apply negb_true_iff, Nat.leb_gt in H1. apply negb_true_iff, Nat.leb_gt.
  assert (Hle : (run_len (Z.eqb c) (List.map f r) <= run_len (Z.eqb c) r)%nat).
  { clear -Hf Hc. induction r as [|d r IH]; simpl; [lia|].
    destruct (Hf d) as [-> | ->].
    - destruct (c =? d); lia.
    - destruct (Z.eqb_spec c 32) as [->|_]; [discriminate|lia]. }
  lia.
Qed.

(** ** Step 9: whitespace *)

Lemma whitespace_space (c : Z) (r : pystr) :
  is_space c = true ->
  re_sub whitespace (c :: r)
  = 32 :: re_sub whitespace (skipn (run_len is_space r) r).
Proof.
  intros Hc. rewrite re_sub_cons. unfold whitespace, lit_then_run.
  cbn [starts_with length skipn run_len]. now rewrite Hc.
Qed.

Lemma whitespace_char (c : Z) (r : pystr) :
  is_space c = false ->
  re_sub whitespace (c :: r) = c :: re_sub whitespace r.
Proof.
  intros Hc. rewrite re_sub_cons. unfold whitespace, lit_then_run.
  cbn [starts_with length skipn run_len]. now rewrite Hc.
Qed.

Lemma whitespace_run (c : Z) (r : pystr) :
  is_space c = false ->
  run_len (Z.eqb c) (re_sub whitespace r) = run_len (Z.eqb c) r.
Proof.
  intros Hc. induction r as [|d r IH]; [reflexivity|].
  destruct (is_space d) eqn:Hd.
  - rewrite whitespace_space by exact Hd. simpl.
    destruct (Z.eqb_spec c 32) as [->|_]; [discriminate|].
    destruct (Z.eqb_spec c d) as [->|_]; [congruence|reflexivity].
  - rewrite whitespace_char by exact Hd. simpl. now rewrite IH.
Qed.

Lemma whitespace_norun (t : pystr) :
  norun not_space t = true -> norun not_space (re_sub whitespace t) = true.
Proof.
  induction t as [t IH] using pystr_length_ind. intros H.
  destruct t as [|c r]; [reflexivity|].
  cbn [norun] in H. apply andb_true_iff in H as [H1 H2].
  destruct (is_space c) eqn:Hc.
  - rewrite whitespace_space by exact Hc. cbn [norun].
    change (not_space 32) with false. cbn [andb negb].
    apply IH; [simpl; rewrite length_skipn; lia|].
    rewrite <- (firstn_skipn (run_len is_space r) r) in H2.
    now apply norun_suffix in H2.
  - rewrite whitespace_char by exact Hc. cbn [norun].
    rewrite whitespace_run by exact Hc. rewrite H1. apply IH; [simpl; lia|exact H2].
Qed.

Lemma strip_norun (g : Z -> bool) (t : pystr) :
  norun g t = true -> norun g (strip t) = true.
Proof.
  intros H. unfold strip.
  destruct (lstrip_suffix t) as [a Ha]. rewrite Ha in H.
  apply norun_suffix in H.
  destruct (rstrip_prefix (lstrip t)) as [b Hb]. rewrite Hb in H.
  now apply norun_prefix in H.
Qed.

(** ** A normalized text is a fixed point of every step *)

Section Fixed.

Let O (c : Z) : Prop := out_char c = true.

Lemma starts_with_Forall (P : Z -> Prop) (lit u : pystr) :
  starts_with lit u = true -> Forall P u -> Forall P lit.
Proof.
  revert u. induction lit as [|a lit IH]; intros u H Hu; [constructor|].
  destruct u as [|b u]; [discriminate|]. simpl in H.
  apply andb_true_iff in H as [Hab H]. apply Z.eqb_eq in Hab. subst b.
  inversion Hu; subst. constructor; [assumption|]. now apply (IH u).
Qed.

Lemma starts_with_blocked (lit u : pystr) :
  forallb out_char lit = false -> Forall O u -> starts_with lit u = false.
Proof.
  intros Hlit Hu. destruct (starts_with lit u) eqn:E; [|reflexivity].
  apply (starts_with_Forall O) in E; [|exact Hu].
  assert (forallb out_char lit = true).
  { apply forallb_forall. rewrite List.Forall_forall in E. exact E. }
  congruence.
Qed.

Lemma lit_blocked lit p f (u : pystr) :
  forallb out_char lit = false -> Forall O u -> lit_then_run lit p f u = None.
Proof.
  intros Hlit Hu. unfold lit_then_run.
  now rewrite starts_with_blocked.
Qed.

Lemma class_blocked p f (u : pystr) :
  (forall c, O c -> p c = false) -> Forall O u ->
  lit_then_run [] p f u = None.
Proof.
  intros Hp Hu. unfold lit_then_run. cbn [starts_with length].
  rewrite skipn_O. destruct Hu as [|c r Hc _]; [reflexivity|].
  simpl. now rewrite (Hp c Hc).
Qed.

Lemma replace_fixed (old new t : pystr) :
  forallb out_char old = false -> Forall O t -> replace old new t = t.
Proof.
  intros Hold Ht. unfold replace. destruct old as [|a old]; [discriminate|].
  apply (re_sub_id _ O); [|exact Ht].
  intros u Hu. now rewrite starts_with_blocked.
Qed.

Lemma convert_emoji_fixed (dict : list (pystr * pystr)) (t : pystr) :
  Forall (fun kv => forallb out_char (fst kv) = false) dict ->
  Forall O t -> Sentiment.convert_emoji dict t = t.
Proof.
  intros Hd Ht. unfold Sentiment.convert_emoji.
  induction Hd as [|kv dict Hkv _ IH]; [reflexivity|].
  simpl. rewrite replace_fixed by assumption. exact IH.
Qed.

Lemma repeated_fixed (t : pystr) :
  norun not_newline t = true -> re_sub repeated t = t.
Proof.
  induction t as [|c r IH]; [reflexivity|]. cbn [norun]. intros H.
  apply andb_true_iff in H as [H1 H2]. rewrite re_sub_cons.
  change (repeated (c :: r))
    with (if negb (c =? 10) && (3 <=? run_len (Z.eqb c) r)%nat
          then Some (S (run_len (Z.eqb c) r), [c; c]) else None).
  apply negb_true_iff in H1. unfold not_newline in H1. rewrite H1.
  f_equal. exact (IH H2).
Qed.

Variable db : ucd.
Hypothesis Hdb : ascii_exact db = true.

Lemma lower_fixed (t : pystr) : Forall O t -> lower db t = t.
Proof.
  intros H. rewrite (lower_ascii db Hdb).
  - induction H as [|c r Hc _ IH]; [reflexivity|]. simpl.
    destruct (out_char_facts c Hc) as [-> _]. now rewrite IH.
  - eapply List.Forall_impl; [|exact H]. apply out_char_ascii.
Qed.

Lemma special_fixed (t : pystr) : Forall O t -> re_sub (special db) t = t.
Proof.
  apply re_sub_id. intros u Hu. destruct Hu as [|c r Hc _]; [reflexivity|].
  unfold special. rewrite (is_word_ascii db Hdb c) by now apply out_char_ascii.
  destruct (out_char_facts c Hc) as (_ & _ & Hw).
  destruct (ascii_alnum c || (c =? 95)), (is_space c);
    try reflexivity. discriminate Hw.
Qed.

End Fixed.

(** ** Joined words *)

Section Joined.

Lemma join_cons (w w2 : pystr) (ws : list pystr) :
  join (w :: w2 :: ws) = w ++ 32 :: join (w2 :: ws).
Proof. reflexivity. Qed.

Lemma join_head (w : pystr) (ws : list pystr) :
  w <> [] -> hd_error (join (w :: ws)) = hd_error w.
Proof.
  intros Hw. destruct w as [|c w]; [congruence|].
  destruct ws; reflexivity.
Qed.

(** Induction on a non-empty list of words along [join]. *)
Lemma join_ind (P : list pystr -> Prop) :
  P [] ->
  (forall w, P [w]) ->
  (forall w w2 ws, P (w2 :: ws) -> P (w :: w2 :: ws)) ->
  forall ws, P ws.
Proof.
  intros H0 H1 H2 ws. induction ws as [|w ws IH]; [exact H0|].
  destruct ws as [|w2 ws]; [apply H1 | now apply H2].
Qed.

Lemma word_head (w : pystr) (p : Z -> bool) :
  w <> [] -> Forall (fun c => p c = false) w -> run_len p w = O.
Proof.
  intros Hne H. destruct H as [|c r Hc _]; [congruence|].
  simpl. now rewrite Hc.
Qed.

Lemma join_starts (p : Z -> bool) (w : pystr) (ws : list pystr) :
  w <> [] -> Forall (fun c => p c = false) w ->
  run_len p (join (w :: ws)) = O.
Proof.
  intros Hne H. apply (run_len_head p _ w).
  - now apply join_head.
  - now apply word_head.
Qed.

Lemma norun_sep (g : Z -> bool) (w rest : pystr) :
  Forall (fun c => c <> 32) w ->
  norun g w = true -> run_len (Z.eqb 32) rest = O -> norun g rest = true ->
  norun g (w ++ 32 :: rest) = true.
Proof.
  intros Hw Hn H0 Hr. induction Hw as [|c r Hc _ IH].
  - cbn [app norun]. rewrite H0, Hr. cbn [Nat.leb]. now rewrite andb_false_r.
  - cbn [app norun] in *. apply andb_true_iff in Hn as [H1 H2].
    rewrite (IH H2), andb_true_r.
    rewrite run_len_app_stop; [exact H1|]. now apply Z.eqb_neq.
Qed.

Lemma whitespace_word (w rest : pystr) :
  Forall (fun c => is_space c = false) w ->
  re_sub whitespace (w ++ rest) = w ++ re_sub whitespace rest.
Proof.
  induction 1 as [|c r Hc _ IH]; [reflexivity|].
  cbn [app]. rewrite whitespace_char by exact Hc. now rewrite IH.
Qed.

Lemma whitespace_join (ws : list pystr) :
  Forall word ws -> re_sub whitespace (join ws) = join ws.
Proof.
  induction ws as [| w | w w2 ws IH] using join_ind; intros H.
  - reflexivity.
  - inversion H as [|? ? [_ Hw] _]; subst. cbn [join].
    pose proof (whitespace_word w [] Hw) as E.
    rewrite re_sub_nil, !app_nil_r in E. exact E.
  - inversion H as [|? ? [_ Hw] H']; subst. rewrite join_cons.
    rewrite whitespace_word by exact Hw.
    rewrite whitespace_space by reflexivity.
    inversion H' as [|? ? [Hne Hw2] _]; subst.
    rewrite (join_starts is_space w2 ws Hne Hw2), skipn_O.
    now rewrite IH.
Qed.

Lemma rstrip_word (a w : pystr) : word w -> rstrip (a ++ w) = a ++ w.
Proof.
  intros [Hne Hw].
  assert (Hbase : rstrip w = w).
  { clear Hne. induction Hw as [|c r Hc _ IH]; [reflexivity|].
    simpl. rewrite IH. destruct r; [now rewrite Hc | reflexivity]. }
  induction a as [|x a IH]; [exact Hbase|].
  cbn [app rstrip]. rewrite IH.
  destruct (a ++ w) eqn:E; [|reflexivity].
  apply app_eq_nil in E as [_ E]. congruence.
Qed.

Lemma join_last (ws : list pystr) :
  ws <> [] -> exists a w, In w ws /\ join ws = a ++ w.
Proof.
  induction ws as [| w | w w2 ws IH] using join_ind; intros H.
  - congruence.
  - exists [], w. split; [now left | reflexivity].
  - destruct IH as (a & w' & Hin & E); [discriminate|].
    exists (w ++ 32 :: a), w'. split; [now right|].
    rewrite join_cons, E. now rewrite <- app_assoc.
Qed.

Lemma strip_join (ws : list pystr) :
  Forall word ws -> strip (join ws) = join ws.
Proof.
  intros H. destruct ws as [|w ws]; [reflexivity|]. unfold strip.
  assert (Hl : lstrip (join (w :: ws)) = join (w :: ws)).
  { inversion H as [|? ? [Hne Hw] _]; subst.
    destruct w as [|c w]; [congruence|]. inversion Hw; subst.
    apply lstrip_fixed. destruct ws; simpl; assumption. }
  rewrite Hl. destruct (join_last (w :: ws)) as (a & w' & Hin & E);
    [discriminate|].
  rewrite E. apply rstrip_word.
  rewrite List.Forall_forall in H. now apply H.
Qed.

End Joined.

(* ===================================================================== *)
(** * Further properties of the processors                               *)
(* ===================================================================== *)

(** ** Rounding keeps a value between integer bounds *)

Section Rounding.

Lemma round_half_even_cases (y : Q) :
  round_half_even y = Qfloor y \/ round_half_even y = Qfloor y + 1.
Proof.
  unfold round_half_even.
  destruct (Qcompare _ _); [destruct (Z.even _)|..]; auto.
Qed.

Lemma round_half_even_ge (y : Q) (n : Z) :
  (inject_Z n <= y)%Q -> n <= round_half_even y.
Proof.
  intros H. apply Qfloor_resp_le in H. rewrite Qfloor_Z in H.
  destruct (round_half_even_cases y) as [-> | ->]; lia.
Qed.

Lemma round_half_even_le (y : Q) (n : Z) :
  (y <= inject_Z n)%Q -> round_half_even y <= n.
Proof.
  intros H. pose proof (Qfloor_resp_le _ _ H) as Hf. rewrite Qfloor_Z in Hf.
  destruct (Z.eq_dec (Qfloor y) n) as [E|E].
  - unfold round_half_even.
    assert (Hlt : (y - inject_Z (Qfloor y) < 1 # 2)%Q).
    { rewrite E. lra. }
    destruct (Qcompare_spec (y - inject_Z (Qfloor y)) (1 # 2)) as [H'|H'|H'];
      [rewrite H' in Hlt; lra | lia | lra].
  - destruct (round_half_even_cases y) as [-> | ->]; lia.
Qed.

Lemma scale_pos (d : nat) : (0 < inject_Z (10 ^ Z.of_nat d))%Q.
Proof.
  change 0%Q with (inject_Z 0). rewrite <- Zlt_Qlt.
  apply Z.pow_pos_nonneg; lia.
Qed.

Lemma Qle_bool_gt (a b : Q) : Qle_bool a b = false -> (b < a)%Q.
Proof.
  intros E. apply Qnot_le_lt. rewrite <- Qle_bool_iff. congruence.
Qed.

Lemma clamp_range (x : Q) : (0 <= clamp x <= 100)%Q.
Proof.
  unfold clamp, py_min, py_max.
  destruct (Qle_bool x 0) eqn:E1.
  - destruct (Qle_bool 100 0) eqn:E2; lra.
  - apply Qle_bool_gt in E1.
    destruct (Qle_bool 100 x) eqn:E2; [lra|].
    apply Qle_bool_gt in E2. lra.
Qed.

End Rounding.

(** ** Rounding to binary64 *)

Section Binary64.

Local Open Scope Q_scope.

Lemma pow2_pos (e : Z) : 0 < 2 ^ e.
Proof. apply Qpower_0_lt. reflexivity. Qed.

Lemma pow2_add (a b : Z) : 2 ^ (a + b) == 2 ^ a * 2 ^ b.
Proof. apply Qpower_plus. discriminate. Qed.

Lemma pow2_le (a b : Z) : (a <= b)%Z -> 2 ^ a <= 2 ^ b.
Proof. intros H. apply Qpower_le_compat_l; [exact H|discriminate]. Qed.

Lemma pow2_lt (a b : Z) : (a < b)%Z -> 2 ^ a < 2 ^ b.
Proof. intros H. apply Qpower_lt_compat_l; [exact H|reflexivity]. Qed.

Lemma pow2_lt_inv (a b : Z) : 2 ^ a < 2 ^ b -> (a < b)%Z.
Proof.
  intros H. destruct (Z.lt_ge_cases a b) as [Hlt|Hge]; [exact Hlt|].
  apply pow2_le in Hge. lra.
Qed.

Lemma pow2_Z (n : Z) : (0 <= n)%Z -> inject_Z (2 ^ n) == 2 ^ n.
Proof. intros H. now rewrite Zpower_Qpower. Qed.

(** [ilog2] brackets the magnitude of its argument. *)
Lemma ilog2_spec (x : Q) :
  ~ x == 0 -> 2 ^ ilog2 x <= Qabs x < 2 ^ (ilog2 x + 1).
Proof.
  intros Hx. unfold ilog2.
  set (n := Z.abs (Qnum x)). set (d := Zpos (Qden x)).
  set (a := Z.log2 n). set (b := Z.log2 d).
  assert (Hn : (0 < n)%Z).
  { subst n. destruct x as [xn xd]. unfold Qeq in Hx. simpl in *. lia. }
  assert (Hd : (0 < d)%Z) by (subst d; lia).
  destruct (Z.log2_spec n Hn) as [Ha1 Ha2]. fold a in Ha1, Ha2.
  destruct (Z.log2_spec d Hd) as [Hb1 Hb2]. fold b in Hb1, Hb2.
  assert (Ha0 : (0 <= a)%Z) by apply Z.log2_nonneg.
  assert (Hb0 : (0 <= b)%Z) by apply Z.log2_nonneg.
  assert (Habs : Qabs x == inject_Z n / inject_Z d).
  { destruct x as [xn xd]. subst n d. simpl. apply Qmake_Qdiv. }
  assert (Hdq : 0 < inject_Z d).
  { change 0 with (inject_Z 0). now rewrite <- Zlt_Qlt. }
  assert (Hup : Qabs x < 2 ^ (a - b + 1)).
  { rewrite Habs. apply Qlt_shift_div_r; [exact Hdq|].
    apply Qlt_le_trans with (2 ^ (a + 1)).
    - rewrite <- pow2_Z by lia. now rewrite <- Zlt_Qlt.
    - replace (a + 1)%Z with ((a - b + 1) + b)%Z by lia.
      rewrite pow2_add. apply Qmult_le_l; [apply pow2_pos|].
      rewrite <- pow2_Z by lia. now rewrite <- Zle_Qle. }
  assert (Hlow : 2 ^ (a - b - 1) < Qabs x).
  { rewrite Habs. apply Qlt_shift_div_l; [exact Hdq|].
    apply Qlt_le_trans with (2 ^ a).
    - replace a with ((a - b - 1) + (b + 1))%Z at 2 by lia.
      rewrite pow2_add. apply Qmult_lt_l; [apply pow2_pos|].
      rewrite <- pow2_Z by lia. now rewrite <- Zlt_Qlt.
    - rewrite <- pow2_Z by lia. now rewrite <- Zle_Qle. }
  destruct (Qle_bool (2 ^ (a - b)) (Qabs x)) eqn:E.
  - apply Qle_bool_iff in E. split; [exact E|exact Hup].
  - assert (E' : Qabs x < 2 ^ (a - b)).
    { apply Qnot_le_lt. rewrite <- Qle_bool_iff. congruence. }
    split; [apply Qlt_le_weak; exact Hlow|].
    now replace (a - b - 1 + 1)%Z with (a - b)%Z by lia.
Qed.

Lemma ilog2_mono (x y : Q) : 0 < x -> x <= y -> (ilog2 x <= ilog2 y)%Z.
Proof.
  intros Hx Hxy.
  destruct (ilog2_spec x) as [H1 _]; [lra|].
  destruct (ilog2_spec y) as [_ H2]; [lra|].
  rewrite Qabs_pos in H1 by lra. rewrite Qabs_pos in H2 by lra.
  assert (H : 2 ^ ilog2 x < 2 ^ (ilog2 y + 1)) by lra.
  apply pow2_lt_inv in H. lia.
Qed.

Lemma round_half_even_mono (x y : Q) :
  x <= y -> (round_half_even x <= round_half_even y)%Z.
Proof.
  intros H. pose proof (Qfloor_resp_le _ _ H) as Hf.
  destruct (Z.eq_dec (Qfloor x) (Qfloor y)) as [E|E].
  - unfold round_half_even. rewrite E.
    destruct (Qcompare_spec (x - inject_Z (Qfloor y)) (1 # 2)) as [Hx|Hx|Hx];
      destruct (Qcompare_spec (y - inject_Z (Qfloor y)) (1 # 2)) as [Hy|Hy|Hy];
      try destruct (Z.even (Qfloor y)); try lia; lra.
  - destruct (round_half_even_cases x) as [-> | ->];
      destruct (round_half_even_cases y) as [-> | ->]; lia.
Qed.

Lemma Qfloor_unique (z : Q) (g : Z) :
  inject_Z g <= z -> z < inject_Z (g + 1) -> Qfloor z = g.
Proof.
  intros H1 H2. apply Qfloor_resp_le in H1. rewrite Qfloor_Z in H1.
  pose proof (Qfloor_le z) as H3.
  assert (H4 : inject_Z (Qfloor z) < inject_Z (g + 1)) by lra.
  rewrite <- Zlt_Qlt in H4. lia.
Qed.

Lemma round_half_even_opp (y : Q) :
  round_half_even (- y) = (- round_half_even y)%Z.
Proof.
  set (f := Qfloor y).
  pose proof (Qfloor_le y) as Hlo. pose proof (Qlt_floor y) as Hhi.
  fold f in Hlo, Hhi. rewrite inject_Z_plus in Hhi.
  destruct (Qeq_dec y (inject_Z f)) as [E|E].
  - assert (Hf : Qfloor (- y) = (- f)%Z).
    { apply Qfloor_unique; rewrite ?inject_Z_plus, inject_Z_opp; lra. }
    unfold round_half_even. rewrite Hf. fold f.
    destruct (Qcompare_spec (- y - inject_Z (- f)) (1 # 2)) as [H|H|H];
      rewrite inject_Z_opp in H; try lra.
    destruct (Qcompare_spec (y - inject_Z f) (1 # 2)) as [H'|H'|H']; try lra.
    reflexivity.
  - assert (Hf : Qfloor (- y) = (- f - 1)%Z).
    { apply Qfloor_unique.
      - unfold Z.sub. rewrite inject_Z_plus, !inject_Z_opp. lra.
      - replace (- f - 1 + 1)%Z with (- f)%Z by lia. rewrite inject_Z_opp.
        assert (inject_Z f < y) by (apply Qle_lt_or_eq in Hlo as [H|H];
                                    [exact H|symmetry in H; contradiction]).
        lra. }
    unfold round_half_even. rewrite Hf. fold f.
    assert (Hi : inject_Z (- f - 1) == - inject_Z f - 1).
    { unfold Z.sub. rewrite inject_Z_plus, !inject_Z_opp. reflexivity. }
    destruct (Qcompare_spec (- y - inject_Z (- f - 1)) (1 # 2)) as [H|H|H];
      rewrite Hi in H;
      destruct (Qcompare_spec (y - inject_Z f) (1 # 2)) as [H'|H'|H'];
      try lra; try lia.
    replace (- f - 1)%Z with (- (f + 1))%Z by lia.
    rewrite Z.even_opp. change (f + 1)%Z with (Z.succ f).
    rewrite Z.even_succ, <- Z.negb_even.
    destruct (Z.even f); simpl; lia.
Qed.

Lemma round_half_even_comp (x y : Q) :
  x == y -> round_half_even x = round_half_even y.
Proof.
  intros E. unfold round_half_even.
  assert (Hf : Qfloor x = Qfloor y) by (now apply Qfloor_comp).
  rewrite Hf.
  assert (Hc : (x - inject_Z (Qfloor y) ?= 1 # 2)
               = (y - inject_Z (Qfloor y) ?= 1 # 2)).
  { apply Qcompare_comp; [|reflexivity]. now apply Qplus_comp. }
  now rewrite Hc.
Qed.

Lemma to_float_value (x : Q) :
  to_float x
  == inject_Z (round_half_even (x / 2 ^ ulp_exponent x)) * 2 ^ ulp_exponent x.
Proof. unfold to_float. apply Qred_correct. Qed.

Lemma scaled_le (x y : Q) (e : Z) : x <= y -> x / 2 ^ e <= y / 2 ^ e.
Proof.
  intros H. unfold Qdiv. apply Qmult_le_compat_r; [exact H|].
  apply Qinv_le_0_compat, Qlt_le_weak, pow2_pos.
Qed.

Lemma to_float_nonneg (x : Q) : 0 <= x -> 0 <= to_float x.
Proof.
  intros H. rewrite to_float_value.
  apply Qmult_le_0_compat; [|apply Qlt_le_weak, pow2_pos].
  change 0 with (inject_Z 0). rewrite <- Zle_Qle.
  apply round_half_even_ge. apply Qle_shift_div_l; [apply pow2_pos|].
  change (inject_Z 0) with 0. now rewrite Qmult_0_l.
Qed.

Lemma ilog2_opp (x : Q) : ilog2 (- x) = ilog2 x.
Proof.
  destruct x as [n d]. unfold ilog2, Qabs, Qopp. cbn [Qnum Qden].
  now rewrite Z.abs_opp.
Qed.

Lemma to_float_opp (x : Q) : to_float (- x) == - to_float x.
Proof.
  rewrite !to_float_value. unfold ulp_exponent. rewrite ilog2_opp.
  set (e := Z.max (ilog2 x - 52) (-1074)).
  assert (E : - x / 2 ^ e == - (x / 2 ^ e)) by (unfold Qdiv; ring).
  rewrite (round_half_even_comp _ _ E), round_half_even_opp, inject_Z_opp.
  ring.
Qed.

Lemma to_float_mono_pos (x y : Q) :
  0 < x -> x <= y -> to_float x <= to_float y.
Proof.
  intros Hx Hxy. rewrite !to_float_value.
  pose proof (ilog2_mono x y Hx Hxy) as Hi.
  destruct (ilog2_spec x) as [_ Hxu]; [lra|].
  destruct (ilog2_spec y) as [Hyl _]; [lra|].
  rewrite Qabs_pos in Hxu by lra. rewrite Qabs_pos in Hyl by lra.
  unfold ulp_exponent.
  set (ex := Z.max (ilog2 x - 52) (-1074)).
  set (ey := Z.max (ilog2 y - 52) (-1074)).
  assert (Hex : (ex <= ey)%Z) by lia.
  destruct (Z.eq_dec ex ey) as [E|E].
  - rewrite E. apply Qmult_le_compat_r; [|apply Qlt_le_weak, pow2_pos].
    rewrite <- Zle_Qle. apply round_half_even_mono. now apply scaled_le.
  - assert (Hey : ey = (ilog2 y - 52)%Z) by lia.
    apply Qle_trans with (2 ^ (52 + ey)).
    + apply Qle_trans with (inject_Z (2 ^ 53) * 2 ^ ex).
      * apply Qmult_le_compat_r; [|apply Qlt_le_weak, pow2_pos].
        rewrite <- Zle_Qle. apply round_half_even_le.
        apply Qle_shift_div_r; [apply pow2_pos|].
        rewrite pow2_Z by lia. rewrite <- pow2_add.
        apply Qle_trans with (2 ^ (ilog2 x + 1)); [lra|].
        apply pow2_le. lia.
      * rewrite pow2_Z by lia. rewrite <- pow2_add. apply pow2_le. lia.
    + apply Qle_trans with (inject_Z (2 ^ 52) * 2 ^ ey).
      * rewrite pow2_Z by lia. rewrite <- pow2_add. apply Qle_refl.
      * apply Qmult_le_compat_r; [|apply Qlt_le_weak, pow2_pos].
        rewrite <- Zle_Qle. apply round_half_even_ge.
        apply Qle_shift_div_l; [apply pow2_pos|].
        rewrite pow2_Z by lia. rewrite <- pow2_add.
        apply Qle_trans with (2 ^ ilog2 y); [|exact Hyl].
        apply pow2_le. lia.
Qed.

(** Rounding to binary64 is monotone. *)
Lemma to_float_mono (x y : Q) : x <= y -> to_float x <= to_float y.
Proof.
  intros H. destruct (Qlt_le_dec 0 x) as [Hx|Hx].
  - now apply to_float_mono_pos.
  - destruct (Qlt_le_dec y 0) as [Hy|Hy].
    + assert (H' : to_float (- y) <= to_float (- x))
        by (apply to_float_mono_pos; lra).
      rewrite !to_float_opp in H'. lra.
    + apply Qle_trans with 0; [|now apply to_float_nonneg].
      assert (H' : 0 <= to_float (- x)) by (apply to_float_nonneg; lra).
      rewrite to_float_opp in H'. lra.
Qed.


(** A value stays on its side of a bound that is itself a float. *)
Lemma to_float_ge (c x : Q) : to_float c == c -> c <= x -> c <= to_float x.
Proof. intros Hc H. rewrite <- Hc. now apply to_float_mono. Qed.

Lemma to_float_le (c x : Q) : to_float c == c -> x <= c -> to_float x <= c.
Proof. intros Hc H. rewrite <- Hc. now apply to_float_mono. Qed.

Lemma fadd_mono (a a' b b' : Q) :
  a <= a' -> b <= b' -> fadd a b <= fadd a' b'.
Proof. intros Ha Hb. apply to_float_mono. lra. Qed.

Lemma fmul_mono (a a' c : Q) : 0 <= c -> a <= a' -> fmul a c <= fmul a' c.
Proof. intros Hc Ha. apply to_float_mono. now apply Qmult_le_compat_r. Qed.

Lemma fdiv_mono (a a' c : Q) : 0 < c -> a <= a' -> fdiv a c <= fdiv a' c.
Proof.
  intros Hc Ha. apply to_float_mono. unfold Qdiv.
  apply Qmult_le_compat_r; [exact Ha|]. now apply Qinv_le_0_compat, Qlt_le_weak.
Qed.

(** [round(x, d)] keeps a float on its side of an integer bound that is
    a float. *)
Lemma py_round_ge (x : Q) (k : Z) (d : nat) :
  to_float (inject_Z k) == inject_Z k ->
  inject_Z k <= x -> inject_Z k <= py_round x d.
Proof.
  intros Hk H. unfold py_round. apply to_float_ge; [exact Hk|].
  pose proof (scale_pos d) as Hs.
  set (scale := inject_Z (10 ^ Z.of_nat d)) in *.
  apply Qle_shift_div_l; [exact Hs|].
  unfold scale. rewrite <- inject_Z_mult. rewrite <- Zle_Qle.
  apply round_half_even_ge. rewrite inject_Z_mult.
  apply Qmult_le_compat_r; [exact H|]. apply Qlt_le_weak, Hs.
Qed.

Lemma py_round_le (x : Q) (k : Z) (d : nat) :
  to_float (inject_Z k) == inject_Z k ->
  x <= inject_Z k -> py_round x d <= inject_Z k.
Proof.
  intros Hk H. unfold py_round. apply to_float_le; [exact Hk|].
  pose proof (scale_pos d) as Hs.
  set (scale := inject_Z (10 ^ Z.of_nat d)) in *.
  apply Qle_shift_div_r; [exact Hs|].
  unfold scale. rewrite <- inject_Z_mult. rewrite <- Zle_Qle.
  apply round_half_even_le. rewrite inject_Z_mult.
  apply Qmult_le_compat_r; [exact H|]. apply Qlt_le_weak, Hs.
Qed.

Lemma py_round_between (x : Q) (a b : Z) (d : nat) :
  to_float (inject_Z a) == inject_Z a ->
  to_float (inject_Z b) == inject_Z b ->
  inject_Z a <= x <= inject_Z b ->
  inject_Z a <= py_round x d <= inject_Z b.
Proof.
  intros Ha Hb [H1 H2].
  split; [now apply py_round_ge | now apply py_round_le].
Qed.

End Binary64.

(** The integer bounds of the scores are floats. *)
Ltac float_const := vm_compute; reflexivity.


(** ** The range of the performance scores *)

Section ScoreRange.

Import Reports Recommendation.

Lemma per_post_nonneg (total_engagement total_posts : Z) :
  0 <= total_engagement -> (0 <= per_post total_engagement total_posts)%Q.
Proof.
  intros H. unfold per_post. destruct (Z.ltb_spec 0 total_posts) as [Hp|Hp]; [|lra].
  apply to_float_nonneg, Qle_shift_div_l.
  - change 0%Q with (inject_Z 0). now rewrite <- Zlt_Qlt.
  - rewrite Qmult_0_l. change 0%Q with (inject_Z 0). now rewrite <- Zle_Qle.
Qed.

(** Below the benchmark of 50 per post the scale stays below 50. *)
Lemma linear_scale_le (avg : Q) : (avg <= 50)%Q -> (fmul (fdiv avg 50) 50 <= 50)%Q.
Proof.
  intros H. apply to_float_le; [float_const|].
  assert (H1 : (fdiv avg 50 <= 1)%Q).
  { apply to_float_le; [float_const|].
    apply Qle_shift_div_r; [reflexivity|lra]. }
  lra.
Qed.

Lemma linear_scale_ge (avg : Q) : (0 <= avg)%Q -> (0 <= fmul (fdiv avg 50) 50)%Q.
Proof.
  intros H. apply to_float_nonneg.
  assert (H1 : (0 <= fdiv avg 50)%Q).
  { apply to_float_nonneg. apply Qle_shift_div_l; [reflexivity|lra]. }
  lra.
Qed.

Lemma engagement_scale_range (avg : Q) :
  (0 <= avg)%Q -> (0 <= engagement_scale avg <= 100)%Q.
Proof.
  intros H. unfold engagement_scale.
  destruct (Qle_bool 200 avg); [lra|].
  destruct (Qle_bool 100 avg); [lra|].
  destruct (Qle_bool 50 avg) eqn:E; [lra|].
  apply Qle_bool_gt in E. split; [now apply linear_scale_ge|].
  apply Qle_trans with 50%Q; [apply linear_scale_le; lra|lra].
Qed.

Lemma sentiment_score_range (sd ed : option (gmap string dist_entry))
      (eng : option engagement) :
  let r := _calculate_performance_score sd ed eng in
  (0 <= sentiment_score r <= 100)%Q /\ (0 <= emotion_score r <= 100)%Q.
Proof.
  cbn. split.
  - destruct sd; [|lra].
    apply (py_round_between _ 0 100); [float_const..|apply clamp_range].
  - destruct ed; [|lra].
    apply (py_round_between _ 0 100); [float_const..|apply clamp_range].
Qed.

(** The weighted sum grows with each score, and is 0 and 100 at the ends
    of the scale. *)
Lemma weighted_mono (s s' e e' g g' : Q) :
  (s <= s')%Q -> (e <= e')%Q -> (g <= g')%Q ->
  (weighted s e g <= weighted s' e' g')%Q.
Proof.
  intros Hs He Hg. unfold weighted.
  apply fadd_mono; [apply fadd_mono|]; apply fmul_mono; try assumption;
    vm_compute; discriminate.
Qed.

Lemma weighted_range (s e g : Q) :
  (0 <= s <= 100)%Q -> (0 <= e <= 100)%Q -> (0 <= g <= 100)%Q ->
  (0 <= weighted s e g <= 100)%Q.
Proof.
  intros [Hs1 Hs2] [He1 He2] [Hg1 Hg2]. split.
  - apply Qle_trans with (weighted 0 0 0); [vm_compute; discriminate|].
    now apply weighted_mono.
  - apply Qle_trans with (weighted 100 100 100); [now apply weighted_mono|].
    vm_compute; discriminate.
Qed.

(** X1: whatever the reports are (present or absent), the sentiment score
    and the emotion score lie between 0 and 100; when the total engagement
    handed in is not negative, so do the engagement score and the overall
    score. *)
Theorem performance_scores_in_range
        (sd ed : option (gmap string dist_entry)) (eng : option engagement) :
  let r := _calculate_performance_score sd ed eng in
  (0 <= sentiment_score r <= 100)%Q
  /\ (0 <= emotion_score r <= 100)%Q
  /\ ((forall data t, eng = Some data -> total_engagement data = Some t -> 0 <= t) ->
      (0 <= engagement_score r <= 100)%Q /\ (0 <= overall_score r <= 100)%Q).
Proof.
  intros r. destruct (sentiment_score_range sd ed eng) as [Hs He].
  fold r in Hs, He. split; [exact Hs|]. split; [exact He|].
  intros Hpos.
  assert (Hg : (0 <= engagement_score r <= 100)%Q).
  { subst r. cbn. destruct eng as [data|]; [|lra].
    apply (py_round_between _ 0 100); [float_const..|].
    apply engagement_scale_range, per_post_nonneg.
    destruct (total_engagement data) as [t|] eqn:E; cbn; [|lia].
    now apply (Hpos data t). }
  split; [exact Hg|].
  change (overall_score r)
    with (py_round (weighted (sentiment_score r) (emotion_score r)
                             (engagement_score r)) 1).
  apply (py_round_between _ 0 100); [float_const..|].
  now apply weighted_range.
Qed.

Lemma performance_scores_in_range_witness :
  let data := {| engagement_by_type := None; total_engagement := Some 166;
                 total_posts := Some 5 |} in
  let r := _calculate_performance_score None None (Some data) in
  (0 <= engagement_score r <= 100)%Q /\ (0 <= overall_score r <= 100)%Q.
Proof.
  intros data r.
  apply (performance_scores_in_range None None (Some data)).
  intros d t [= <-] [= <-]. lia.
Defined.

(** X2: the rating and the displayed overall score agree up to the tier
    boundary: Excellent comes with a displayed score of at least 80, Good
    with one between 60 and 80, Fair with one between 40 and 60, Poor with
    one of at most 40 (the rating is taken from the weighted sum before it
    is rounded, so a displayed 80.0 can carry the rating Good, but 80.1
    cannot). *)
Theorem rating_agrees_with_overall_score
        (sd ed : option (gmap string dist_entry)) (eng : option engagement) :
  let r := _calculate_performance_score sd ed eng in
  (rating r = "Excellent"%string /\ (80 <= overall_score r)%Q)
  \/ (rating r = "Good"%string /\ (60 <= overall_score r <= 80)%Q)
  \/ (rating r = "Fair"%string /\ (40 <= overall_score r <= 60)%Q)
  \/ (rating r = "Poor"%string /\ (overall_score r <= 40)%Q).
Proof.
  intros r.
  set (w := weighted (sentiment_score r) (emotion_score r) (engagement_score r)).
  change (overall_score r) with (py_round w 1).
  change (rating r) with (rating_of w).
  unfold rating_of.
  destruct (Qle_bool 80 w) eqn:E80.
  { left. split; [reflexivity|]. apply Qle_bool_iff in E80.
    apply (py_round_ge w 80); [float_const|exact E80]. }
  apply Qle_bool_gt in E80. right.
  destruct (Qle_bool 60 w) eqn:E60.
  { left. split; [reflexivity|]. apply Qle_bool_iff in E60.
    apply (py_round_between w 60 80); [float_const..|]. unfold inject_Z. lra. }
  apply Qle_bool_gt in E60. right.
  destruct (Qle_bool 40 w) eqn:E40.
  { left. split; [reflexivity|]. apply Qle_bool_iff in E40.
    apply (py_round_between w 40 60); [float_const..|]. unfold inject_Z. lra. }
  apply Qle_bool_gt in E40. right.
  split; [reflexivity|].
  apply (py_round_le w 40); [float_const|]. unfold inject_Z. lra.
Qed.

End ScoreRange.

(** ** The ends of a stably sorted list *)

Section SortedEnds.

Context {A : Type} (key : A -> Z).

Import Recommendation.

(** The entries below a bound form a prefix of a sorted list. *)
Lemma sorted_filter_prefix (k : Z) (l : list A) :
  StronglySorted (fun a b => key a <= key b) l ->
  List.filter (fun a => key a <=? k) l
  = firstn (length (List.filter (fun a => key a <=? k) l)) l.
Proof.
  induction 1 as [|a r Hr IH Ha]; [reflexivity|].
  cbn [List.filter]. destruct (Z.leb_spec (key a) k) as [Hk|Hk].
  - cbn [length firstn]. now rewrite <- IH.
  - assert (E : List.filter (fun a => key a <=? k) r = []).
    { clear IH Hr. induction Ha as [|b r Hb _ IH]; [reflexivity|].
      cbn [List.filter]. destruct (Z.leb_spec (key b) k); [lia|exact IH]. }
    rewrite E. reflexivity.
Qed.

Lemma filter_perm_length (f : A -> bool) (l l' : list A) :
  Permutation l l' ->
  length (List.filter f l) = length (List.filter f l').
Proof.
  induction 1 as [|x l l' _ IH|x y l|l l' l'' _ IH1 _ IH2]; cbn [List.filter].
  - reflexivity.
  - destruct (f x); cbn [length]; now rewrite IH.
  - destruct (f x), (f y); reflexivity.
  - now rewrite IH1.
Qed.

(** The head of the sorted list is the first entry of the input whose key
    is least. *)
Lemma sort_by_head (l : list A) (x : A) (r : list A) :
  sort_by key l = x :: r ->
  exists a b, l = a ++ x :: b
              /\ Forall (fun t => key x < key t) a
              /\ Forall (fun t => key x <= key t) b.
Proof.
  revert x r. induction l as [|y l IH]; intros x r E; [discriminate|].
  cbn [sort_by fold_right] in E. fold (sort_by key l) in E.
  destruct (sort_by key l) as [|z s] eqn:Es.
  - assert (l = []) as ->.
    { apply Permutation_nil. rewrite <- Es. symmetry. apply sort_by_perm. }
    cbn in E. injection E as <- <-. exists [], []. repeat constructor.
  - destruct (IH z s eq_refl) as (a & b & -> & Ha & Hb).
    cbn [insert_by] in E. destruct (Z.leb_spec (key y) (key z)) as [Hle|Hgt].
    + injection E as <- <-. exists [], (a ++ z :: b).
      split; [reflexivity|]. split; [constructor|].
      apply Forall_app. split.
      * eapply List.Forall_impl; [|exact Ha]. cbn. intros; lia.
      * constructor; [exact Hle|].
        eapply List.Forall_impl; [|exact Hb]. cbn. intros; lia.
    + injection E as <- <-. exists (y :: a), b.
      split; [reflexivity|]. split; [|exact Hb].
      constructor; [lia|exact Ha].
Qed.

Lemma sorted_last_max (l : list A) (d : A) :
  StronglySorted (fun a b => key a <= key b) l ->
  Forall (fun t => key t <= key (List.last l d)) l.
Proof.
  induction 1 as [|a r Hr IH Ha]; [constructor|].
  destruct r as [|b r']; [repeat constructor; cbn; lia|].
  change (List.last (a :: b :: r') d) with (List.last (b :: r') d).
  constructor; [|exact IH].
  inversion IH as [|? ? Hb _]; subst. inversion Ha as [|? ? Hab _]; subst. lia.
Qed.

Lemma last_cons (a : A) (l : list A) (d : A) :
  l <> [] -> List.last (a :: l) d = List.last l d.
Proof. destruct l; [congruence|reflexivity]. Qed.

Lemma insert_by_nonempty (x : A) (l : list A) : insert_by key x l <> [].
Proof. destruct l as [|y r]; cbn; [|destruct (_ <=? _)]; discriminate. Qed.

Lemma insert_by_last (x : A) (l : list A) (d : A) :
  l <> [] ->
  List.last (insert_by key x l) d
  = if forallb (fun t => key t <? key x) l then x else List.last l d.
Proof.
  induction l as [|y r IH]; [congruence|]. intros _.
  cbn [insert_by forallb]. destruct (Z.leb_spec (key x) (key y)) as [Hxy|Hxy].
  - destruct (Z.ltb_spec (key y) (key x)); [lia|].
    cbn [andb]. now rewrite last_cons by discriminate.
  - destruct (Z.ltb_spec (key y) (key x)); [|lia]. cbn [andb].
    rewrite last_cons by apply insert_by_nonempty.
    destruct r as [|z r']; [reflexivity|].
    rewrite IH by discriminate. now rewrite (last_cons y) by discriminate.
Qed.

(** The last entry of the sorted list is the last entry of the input whose
    key is greatest. *)
Lemma sort_by_last (l : list A) (d : A) :
  l <> [] ->
  exists a b, l = a ++ List.last (sort_by key l) d :: b
              /\ Forall (fun t => key t <= key (List.last (sort_by key l) d)) a
              /\ Forall (fun t => key t < key (List.last (sort_by key l) d)) b.
Proof.
  induction l as [|y l IH]; [congruence|]. intros _.
  destruct l as [|z l'].
  - exists [], []. cbn. repeat constructor.
  - specialize (IH ltac:(discriminate)).
    destruct IH as (a & b & E & Ha & Hb).
    change (sort_by key (y :: z :: l'))
      with (insert_by key y (sort_by key (z :: l'))).
    set (s := sort_by key (z :: l')) in *.
    assert (Hs : s <> []).
    { intros Hn. pose proof (sort_by_perm key (z :: l')) as P. fold s in P.
      rewrite Hn in P. now apply Permutation_sym, Permutation_nil in P. }
    pose proof (sorted_last_max s d (sort_by_sorted key (z :: l'))) as Hmax.
    rewrite (insert_by_last y s d Hs).
    destruct (forallb (fun t => key t <? key y) s) eqn:Hall.
    + exists [], (z :: l'). split; [reflexivity|]. split; [constructor|].
      eapply Permutation_Forall; [symmetry; apply (sort_by_perm key)|].
      fold s. apply List.Forall_forall. intros t Ht.
      rewrite forallb_forall in Hall. apply Z.ltb_lt. now apply Hall.
    + exists (y :: a), b. split; [cbn [app]; f_equal; exact E|].
      split; [|exact Hb]. constructor; [|exact Ha].
      destruct (Z.leb_spec (key y) (key (List.last s d))) as [Hle|Hgt];
        [exact Hle|].
      exfalso. apply not_true_iff_false in Hall. apply Hall.
      apply forallb_forall. intros t Ht. rewrite List.Forall_forall in Hmax.
      specialize (Hmax t Ht). apply Z.ltb_lt. lia.
Qed.

End SortedEnds.

(** ** The priority actions *)

Section Priority.

Import Reports Recommendation.

Let urgent (r : recommendation) : bool :=
  match prio r with
  | critical | high => true
  | _ => false
  end.

Lemma urgent_weight (r : recommendation) :
  urgent r = (weight (prio r) <=? 2).
Proof. unfold urgent. now destruct (prio r). Qed.

(** X3: when [generate_recommendations] returns, the priority actions are
    the leading entries of the returned recommendations: the list is a
    prefix of [recommendations], it holds only critical and high entries,
    its length is the smaller of 5 and the number of critical and high
    recommendations generated, and [total_recommendations] is the number
    of recommendations generated. *)
Theorem priority_actions_lead_the_list
        (sentiment_data emotion_data : option (gmap string dist_entry))
        (topic_data : option (list topic))
        (engagement_data : option engagement)
        (peak_hours_data : option (list Z)) (res : result) :
  generate_recommendations sentiment_data emotion_data topic_data
                           engagement_data peak_hours_data = Some res ->
  let gen := generated sentiment_data emotion_data topic_data
                       engagement_data peak_hours_data in
  let urgent := fun r => match prio r with
                         | critical | high => true
                         | _ => false
                         end in
  let n := length (priority_actions res) in
  priority_actions res = firstn n (recommendations res)
  /\ n = Nat.min 5 (length (List.filter urgent gen))
  /\ Forall (fun r => urgent r = true) (priority_actions res)
  /\ total_recommendations res = Z.of_nat (length gen).
Proof.
  intros Hres gen urgent' n. subst n.
  change urgent' with urgent. clear urgent'.
  apply generate_recommendations_returns in Hres as (Hout & Hact & _ & Htotal).
  fold gen in Hout. fold urgent in Hact.
  set (out := recommendations res) in *.
  rewrite Hact, Htotal.
  assert (Hf : List.filter urgent out
               = List.filter (fun r => weight (prio r) <=? 2) out).
  { apply filter_ext. intros r. apply urgent_weight. }
  assert (Hs : StronglySorted (fun a b => weight (prio a) <= weight (prio b)) out)
    by (rewrite Hout; apply sort_by_sorted).
  assert (Hp : Permutation gen out) by (rewrite Hout; apply sort_by_perm).
  split; [|split; [|split]].
  - rewrite Hf, length_firstn.
    rewrite (sorted_filter_prefix (fun r => weight (prio r)) 2 out Hs) at 1.
    now rewrite firstn_firstn.
  - rewrite length_firstn. f_equal. symmetry. now apply filter_perm_length.
  - apply Forall_take. apply List.Forall_forall. intros r Hr.
    now apply filter_In in Hr.
  - f_equal. symmetry. now apply Permutation_length.
Qed.

(** An angry, anxious and disappointed audience: three urgent
    recommendations lead a list of four. *)
Lemma priority_actions_lead_the_list_witness :
  let entry := fun p => {| count := 1; percentage := p |} in
  let ed : gmap string dist_entry :=
    <["anger"%string := entry 20%Q]>
      (<["fear"%string := entry 10%Q]>
         (<["sadness"%string := entry 20%Q]>
            (<["joy"%string := entry 50%Q]> ∅))) in
  exists res,
    generate_recommendations None (Some ed) None None (Some [9; 10]) = Some res
    /\ List.map title (priority_actions res)
       = ["High Anger Levels Detected"; "Customer Anxiety Detected";
          "High Disappointment Levels"]%string
    /\ priority_actions res = firstn 3 (recommendations res)
    /\ total_recommendations res = 4.
Proof.
  intros entry ed.
  destruct (generate_recommendations None (Some ed) None None (Some [9; 10]))
    as [res|] eqn:E; [|vm_compute in E; discriminate E].
  exists res. split; [reflexivity|].
  destruct (priority_actions_lead_the_list None (Some ed) None None
                                           (Some [9; 10]) res E)
    as (Hprefix & _ & _ & Htotal).
  vm_compute in E. injection E as <-.
  split; [vm_compute; reflexivity|]. split; [exact Hprefix|exact Htotal].
Defined.

End Priority.

(** ** The topics named by the recommendations *)

Section Topics.

Import Recommendation Insights.

Lemma first_max_unique {A : Type} (key : A -> Z) (a a' b b' : list A) (x x' : A) :
  a ++ x :: b = a' ++ x' :: b' ->
  Forall (fun t => key t < key x) a -> Forall (fun t => key t <= key x) b ->
  Forall (fun t => key t < key x') a' -> Forall (fun t => key t <= key x') b' ->
  x = x'.
Proof.
  revert a'. induction a as [|c a IH]; intros a' E Ha Hb Ha' Hb'.
  - destruct a' as [|c' a'']; [now injection E|].
    injection E as <- E. subst b. inversion Ha' as [|? ? Hc _]; subst.
    apply Forall_app in Hb as [_ Hb]. inversion Hb; subst. lia.
  - destruct a' as [|c' a''].
    + injection E as <- E. subst b'. inversion Ha as [|? ? Hc _]; subst.
      apply Forall_app in Hb' as [_ Hb']. inversion Hb'; subst. lia.
    + injection E as <- E. inversion Ha; subst. inversion Ha'; subst.
      now apply (IH a'').
Qed.

Lemma max_by_spec {A : Type} (key : A -> Z) (rest : list A) (best : A) :
  exists a b, best :: rest = a ++ max_by key best rest :: b
              /\ Forall (fun t => key t < key (max_by key best rest)) a
              /\ Forall (fun t => key t <= key (max_by key best rest)) b.
Proof.
  revert best. induction rest as [|x rest IH]; intros best.
  - exists [], []. repeat constructor.
  - cbn [max_by]. destruct (Z.ltb_spec (key best) (key x)) as [Hlt|Hge].
    + destruct (IH x) as (a & b & E & Ha & Hb).
      exists (best :: a), b. split; [cbn [app]; f_equal; exact E|].
      split; [|exact Hb]. constructor; [|exact Ha].
      destruct a as [|c a'].
      * injection E as E _. rewrite <- E. exact Hlt.
      * injection E as <- _. inversion Ha; subst. lia.
    + destruct (IH best) as (a & b & E & Ha & Hb).
      destruct a as [|c a'].
      * injection E as E1 E2. exists [], (x :: rest).
        split; [cbn [app]; f_equal; exact E1|]. split; [constructor|].
        constructor; [rewrite <- E1; exact Hge|]. subst b. exact Hb.
      * injection E as <- E. exists (best :: x :: a'), b.
        split; [cbn [app]; do 2 f_equal; exact E|]. split; [|exact Hb].
        inversion Ha; subst. repeat constructor; [assumption|lia|assumption].
Qed.

(** X4: for a non-empty topic report the first topic recommendation names
    the first topic of the report whose total engagement is greatest; with
    one or two topics it is the only one; with three or more, a second
    recommendation names the last topic of the report whose total
    engagement is least. *)
Theorem topic_recommendations_name_the_extremes (ts : list topic) :
  ts <> [] ->
  exists top a b,
    ts = a ++ top :: b
    /\ Forall (fun t => topic_total t < topic_total top) a
    /\ Forall (fun t => topic_total t <= topic_total top) b
    /\ ((length ts <= 2)%nat ->
        _analyze_topics (Some ts)
        = [{| category := "Topics"; prio := medium;
              title := "Top Performing Topic: " +:+ topic_label top |}])
    /\ ((2 < length ts)%nat ->
        exists last_topic a' b',
          ts = a' ++ last_topic :: b'
          /\ Forall (fun t => topic_total last_topic <= topic_total t) a'
          /\ Forall (fun t => topic_total last_topic < topic_total t) b'
          /\ _analyze_topics (Some ts)
             = [{| category := "Topics"; prio := medium;
                   title := "Top Performing Topic: " +:+ topic_label top |};
                {| category := "Topics"; prio := low;
                   title := "Low Engagement Topic: " +:+ topic_label last_topic |}]).
Proof.
  intros Hne. unfold _analyze_topics.
  set (key := fun x : topic => - topic_total x).
  assert (Hlen : length (sort_by key ts) = length ts).
  { symmetry. apply Permutation_length, sort_by_perm. }
  destruct (sort_by key ts) as [|top s] eqn:Es.
  { destruct ts; [congruence|discriminate]. }
  destruct (sort_by_head key ts top s Es) as (a & b & E & Ha & Hb).
  exists top, a, b. split; [exact E|].
  split; [eapply List.Forall_impl; [|exact Ha]; unfold key; cbn; intros; lia|].
  split; [eapply List.Forall_impl; [|exact Hb]; unfold key; cbn; intros; lia|].
  rewrite Hlen. split.
  - intros H. destruct (Nat.ltb_spec 2 (length ts)); [lia|reflexivity].
  - intros H. destruct (Nat.ltb_spec 2 (length ts)); [|lia].
    destruct (sort_by_last key ts top Hne) as (a' & b' & E' & Ha' & Hb').
    rewrite Es in E', Ha', Hb'.
    exists (List.last (top :: s) top), a', b'. split; [exact E'|].
    split; [eapply List.Forall_impl; [|exact Ha']; unfold key; cbn; intros; lia|].
    split; [eapply List.Forall_impl; [|exact Hb']; unfold key; cbn; intros; lia|].
    reflexivity.
Qed.

Lemma topic_recommendations_name_the_extremes_witness :
  let A := {| topic_label := "A"; topic_total := 3 |} in
  let B := {| topic_label := "B"; topic_total := 5 |} in
  let C := {| topic_label := "C"; topic_total := 5 |} in
  let D := {| topic_label := "D"; topic_total := 3 |} in
  exists top a b,
    [A; B; C; D] = a ++ top :: b
    /\ Forall (fun t => topic_total t < topic_total top) a
    /\ Forall (fun t => topic_total t <= topic_total top) b
    /\ ((length [A; B; C; D] <= 2)%nat ->
        _analyze_topics (Some [A; B; C; D])
        = [{| category := "Topics"; prio := medium;
              title := "Top Performing Topic: " +:+ topic_label top |}])
    /\ ((2 < length [A; B; C; D])%nat ->
        exists last_topic a' b',
          [A; B; C; D] = a' ++ last_topic :: b'
          /\ Forall (fun t => topic_total last_topic <= topic_total t) a'
          /\ Forall (fun t => topic_total last_topic < topic_total t) b'
          /\ _analyze_topics (Some [A; B; C; D])
             = [{| category := "Topics"; prio := medium;
                   title := "Top Performing Topic: " +:+ topic_label top |};
                {| category := "Topics"; prio := low;
                   title := "Low Engagement Topic: " +:+ topic_label last_topic |}]).
Proof.
  intros A B C D.
  apply (topic_recommendations_name_the_extremes [A; B; C; D]). discriminate.
Defined.

(** X5: the insight [Top Topic] and the recommendation [Top Performing
    Topic] name the same topic, also when several topics share the greatest
    total engagement. *)
Theorem top_topic_insight_agrees (ts : list topic) (label : string) :
  top_topic_insight (Some ts) = Some label ->
  hd_error (_analyze_topics (Some ts))
  = Some {| category := "Topics"; prio := medium;
            title := "Top Performing Topic: " +:+ label |}.
Proof.
  destruct ts as [|t ts]; [discriminate|]. cbn [top_topic_insight].
  intros [= <-]. unfold _analyze_topics.
  set (key := fun x : topic => - topic_total x).
  destruct (sort_by key (t :: ts)) as [|top s] eqn:Es.
  { pose proof (sort_by_perm key (t :: ts)) as P. rewrite Es in P.
    now apply Permutation_sym, Permutation_nil in P. }
  destruct (sort_by_head key (t :: ts) top s Es) as (a & b & E & Ha & Hb).
  destruct (max_by_spec topic_total ts t) as (a' & b' & E' & Ha' & Hb').
  assert (top = max_by topic_total t ts) as <-.
  { apply (first_max_unique topic_total a a' b b'); try assumption.
    - now rewrite <- E, <- E'.
    - eapply List.Forall_impl; [|exact Ha]. unfold key. cbn. intros; lia.
    - eapply List.Forall_impl; [|exact Hb]. unfold key. cbn. intros; lia. }
  reflexivity.
Qed.

Lemma top_topic_insight_agrees_witness :
  let ts := [ {| topic_label := "A"; topic_total := 3 |};
              {| topic_label := "B"; topic_total := 5 |};
              {| topic_label := "C"; topic_total := 5 |} ] in
  hd_error (_analyze_topics (Some ts))
  = Some {| category := "Topics"; prio := medium;
            title := "Top Performing Topic: B" |}.
Proof.
  intros ts. apply (top_topic_insight_agrees ts "B"). reflexivity.
Defined.

End Topics.

(** ** Counters *)

Section Counters.

Import Collections.

Context {K : Type} `{EqDecision K}.

Lemma count_key_keys (k : K) (counts : list (K * Z)) :
  List.map fst (count_key k counts)
  = if bool_decide (k ∈ List.map fst counts) then List.map fst counts
    else List.map fst counts ++ [k].
Proof.
  induction counts as [|[k' n] rest IH].
  - cbn. now rewrite bool_decide_eq_false_2 by apply not_elem_of_nil.
  - cbn [count_key]. destruct (bool_decide_reflect (k = k')) as [->|Hne].
    + cbn. rewrite bool_decide_eq_true_2 by apply list_elem_of_here. reflexivity.
    + cbn [List.map fst]. rewrite IH.
      destruct (bool_decide_reflect (k ∈ List.map fst rest)) as [Hin|Hin].
      * rewrite bool_decide_eq_true_2 by now apply list_elem_of_further.
        reflexivity.
      * rewrite bool_decide_eq_false_2; [reflexivity|].
        rewrite elem_of_cons. tauto.
Qed.

Lemma count_key_total (k : K) (counts : list (K * Z)) :
  total (count_key k counts) = total counts + 1.
Proof.
  unfold total. induction counts as [|[k' n] rest IH]; [reflexivity|].
  cbn [count_key]. destruct (bool_decide (k = k')); cbn in *; lia.
Qed.

Lemma count_key_count_of (k : K) (counts : list (K * Z)) (k' : K) :
  count_of (count_key k counts) k'
  = count_of counts k' + (if bool_decide (k = k') then 1 else 0).
Proof.
  unfold count_of. induction counts as [|[k0 n0] rest IH].
  - cbn. destruct (bool_decide (k = k')); lia.
  - cbn [count_key]. destruct (bool_decide_reflect (k = k0)) as [->|Hne].
    + cbn. destruct (bool_decide (k0 = k')); lia.
    + cbn [fold_right fst snd]. rewrite IH.
      destruct (bool_decide (k0 = k')); lia.
Qed.

Lemma count_key_positive (k : K) (counts : list (K * Z)) :
  Forall (fun kv => 0 < snd kv) counts ->
  Forall (fun kv => 0 < snd kv) (count_key k counts).
Proof.
  induction 1 as [|[k0 n0] rest Hk Hr IH]; [repeat constructor|].
  cbn [count_key]. cbn [snd] in Hk. destruct (bool_decide (k = k0)).
  - constructor; [cbn [snd]; lia|exact Hr].
  - constructor; [exact Hk|exact IH].
Qed.

Lemma count_of_absent (counts : list (K * Z)) (k : K) :
  ~ In k (List.map fst counts) -> count_of counts k = 0.
Proof.
  unfold count_of. induction counts as [|[k0 n0] rest IH]; [reflexivity|].
  cbn. intros Hn. rewrite bool_decide_eq_false_2 by tauto. apply IH. tauto.
Qed.

Lemma count_of_entry (counts : list (K * Z)) (k : K) (n : Z) :
  List.NoDup (List.map fst counts) -> In (k, n) counts -> count_of counts k = n.
Proof.
  unfold count_of. induction counts as [|[k0 n0] rest IH]; [contradiction|].
  cbn [List.map fst]. intros Hnd Hin. apply List.NoDup_cons_iff in Hnd as [Hk0 Hnd].
  cbn [fold_right fst snd]. destruct Hin as [[= -> ->]|Hin].
  - rewrite bool_decide_eq_true_2 by reflexivity.
    fold (count_of rest k). rewrite count_of_absent by exact Hk0. lia.
  - rewrite bool_decide_eq_false_2.
    + now apply IH.
    + intros ->. apply Hk0. apply in_map_iff. now exists (k, n).
Qed.

Lemma Counter_snoc (keys : list K) (k : K) :
  Counter (keys ++ [k]) = count_key k (Counter keys).
Proof. unfold Counter. now rewrite fold_left_app. Qed.

Lemma occurrences_snoc (keys : list K) (k k' : K) :
  occurrences (keys ++ [k]) k' = occurrences keys k' + (if bool_decide (k = k') then 1 else 0).
Proof.
  unfold occurrences. rewrite List.filter_app, length_app. cbn [List.filter].
  destruct (bool_decide (k = k')); cbn [length]; lia.
Qed.

(** What a counter holds. *)
Lemma Counter_spec (keys : list K) :
  List.NoDup (List.map fst (Counter keys))
  /\ (forall k, In k (List.map fst (Counter keys)) <-> In k keys)
  /\ (forall k, count_of (Counter keys) k = occurrences keys k)
  /\ Forall (fun kv => 0 < snd kv) (Counter keys)
  /\ total (Counter keys) = Z.of_nat (length keys).
Proof.
  induction keys as [|k keys (Hnd & Hin & Hst & Hpos & Htot)] using rev_ind.
  - cbn. repeat split; try constructor; try tauto.
  - rewrite Counter_snoc. split; [|split; [|split; [|split]]].
    + rewrite count_key_keys.
      destruct (bool_decide_reflect (k ∈ List.map fst (Counter keys))) as [Hk|Hk];
        [exact Hnd|].
      rewrite list_elem_of_In in Hk.
      apply List.NoDup_app; [exact Hnd|repeat constructor; cbn; tauto|].
      intros x Hx [->|[]]. contradiction.
    + intros k'. rewrite count_key_keys, in_app_iff.
      destruct (bool_decide_reflect (k ∈ List.map fst (Counter keys))) as [Hk|Hk].
      * rewrite list_elem_of_In in Hk. rewrite Hin. split; [tauto|].
        intros [H1|[->|[]]]; [exact H1|]. now apply Hin.
      * rewrite in_app_iff, Hin. reflexivity.
    + intros k'. now rewrite count_key_count_of, occurrences_snoc, Hst.
    + now apply count_key_positive.
    + rewrite count_key_total, Htot, length_app. cbn [length]. lia.
Qed.

Lemma Counter_entry (keys : list K) (k : K) (n : Z) :
  In (k, n) (Counter keys) -> n = occurrences keys k /\ 0 < n /\ In k keys.
Proof.
  intros Hin. destruct (Counter_spec keys) as (Hnd & Hk & Hst & Hpos & _).
  split; [|split].
  - rewrite <- Hst. symmetry. now apply count_of_entry.
  - rewrite List.Forall_forall in Hpos. apply (Hpos (k, n) Hin).
  - apply Hk. apply in_map_iff. now exists (k, n).
Qed.

End Counters.

(** ** The hours that are clustered *)

Section Hours.

Import Recommendation Activity.




Lemma filter_length_le {A : Type} (f : A -> bool) (l : list A) :
  (length (List.filter f l) <= length l)%nat.
Proof.
  induction l as [|x l IH]; [reflexivity|]. cbn [List.filter].
  destruct (f x); cbn [length]; lia.
Qed.


(** [set]: the distinct values, none lost. *)
Lemma set_add_In (x : Z) (s : list Z) (y : Z) :
  In y (set_add x s) <-> y = x \/ In y s.
Proof.
  induction s as [|z s IH]; cbn [set_add].
  - cbn. intuition.
  - destruct (Z.ltb_spec x z); [cbn; intuition|].
    destruct (Z.eqb_spec x z) as [->|Hne]; [cbn; intuition|].
    cbn [In]. rewrite IH. intuition.
Qed.

Lemma set_of_In (xs : list Z) (y : Z) : In y (set_of xs) <-> In y xs.
Proof.
  induction xs as [|x xs IH]; [reflexivity|].
  cbn [set_of fold_right]. fold (set_of xs). rewrite set_add_In, IH.
  cbn. intuition.
Qed.

Lemma set_add_sorted (x : Z) (s : list Z) :
  StronglySorted Z.lt s -> StronglySorted Z.lt (set_add x s).
Proof.
  induction 1 as [|z s Hs IH Hz]; cbn [set_add]; [repeat constructor|].
  destruct (Z.ltb_spec x z) as [Hlt|Hge].
  - constructor; [now constructor|]. constructor; [exact Hlt|].
    eapply List.Forall_impl; [|exact Hz]. intros; lia.
  - destruct (Z.eqb_spec x z) as [->|Hne]; [now constructor|].
    constructor; [exact IH|].
    apply List.Forall_forall. intros y Hy. apply set_add_In in Hy as [->|Hy]; [lia|].
    rewrite List.Forall_forall in Hz. now apply Hz.
Qed.

Lemma set_of_sorted (xs : list Z) : StronglySorted Z.lt (set_of xs).
Proof.
  induction xs as [|x xs IH]; [constructor|]. now apply set_add_sorted.
Qed.

Lemma sorted_lt_NoDup (s : list Z) : StronglySorted Z.lt s -> List.NoDup s.
Proof.
  induction 1 as [|z s Hs IH Hz]; constructor; [|exact IH].
  intros Hin. rewrite List.Forall_forall in Hz. specialize (Hz z Hin). lia.
Qed.

Lemma set_of_NoDup (xs : list Z) : List.NoDup (set_of xs).
Proof. apply sorted_lt_NoDup, set_of_sorted. Qed.


(** [np.min], [np.max] and the truncated mean of a non-empty column. *)
Lemma fold_min_le (l : list Z) (a : Z) :
  fold_left Z.min l a <= a /\ Forall (fun x => fold_left Z.min l a <= x) l.
Proof.
  revert a. induction l as [|x l IH]; intros a; [split; [cbn; lia|constructor]|].
  cbn [fold_left]. destruct (IH (Z.min a x)) as [H1 H2]. split; [lia|].
  constructor; [lia|exact H2].
Qed.

Lemma fold_min_attained (l : list Z) (a : Z) :
  fold_left Z.min l a = a \/ In (fold_left Z.min l a) l.
Proof.
  revert a. induction l as [|x l IH]; intros a; [now left|].
  cbn [fold_left]. destruct (IH (Z.min a x)) as [H|H]; [|right; now right].
  rewrite H. destruct (Z.min_spec a x) as [[_ ->]|[_ ->]]; [now left|right; now left].
Qed.

Lemma np_min_spec (xs : list Z) :
  xs <> [] -> In (np_min xs) xs /\ Forall (fun x => np_min xs <= x) xs.
Proof.
  destruct xs as [|x r]; [congruence|]. intros _. cbn [np_min].
  destruct (fold_min_le r x) as [H1 H2]. split.
  - destruct (fold_min_attained r x) as [->|H]; [now left|now right].
  - constructor; assumption.
Qed.

Lemma np_max_spec (xs : list Z) :
  xs <> [] -> In (np_max xs) xs /\ Forall (fun x => x <= np_max xs) xs.
Proof.
  destruct xs as [|x r]; [congruence|]. intros _. cbn [np_max].
  destruct (fold_max_ge r x) as [H1 H2]. split.
  - destruct (fold_max_attained r x) as [->|H]; [now left|now right].
  - constructor; assumption.
Qed.

Lemma sum_bounds (xs : list Z) (a b : Z) :
  Forall (fun x => a <= x <= b) xs ->
  a * Z.of_nat (length xs) <= fold_right Z.add 0 xs <= b * Z.of_nat (length xs).
Proof.
  induction 1 as [|x xs Hx _ IH]; [cbn; lia|].
  cbn [fold_right length]. lia.
Qed.

Lemma quot_between (s n a b : Z) :
  0 < n -> a * n <= s <= b * n -> a <= Z.quot s n <= b.
Proof.
  intros Hn Hs. pose proof (Z.quot_rem' s n) as E.
  set (q := Z.quot s n) in *. set (r := Z.rem s n) in *.
  assert (Hr : (0 <= s -> 0 <= r < n) /\ (s < 0 -> - n < r <= 0)).
  { subst r. split; intros H0.
    - apply Z.rem_bound_pos; lia.
    - replace s with (- - s) by lia. rewrite Z.rem_opp_l by lia.
      pose proof (Z.rem_bound_pos (- s) n ltac:(lia) Hn). lia. }
  destruct Hr as [Hr1 Hr2].
  assert (Eq : q * n = s - r) by lia.
  split.
  - destruct (Z_le_gt_dec a q) as [H|H]; [exact H|]. exfalso.
    assert (H1 : q * n <= (a - 1) * n)
      by (apply Z.mul_le_mono_nonneg_r; lia).
    destruct (Z_le_gt_dec 0 s) as [Hs0|Hs0]; lia.
  - destruct (Z_le_gt_dec q b) as [H|H]; [exact H|]. exfalso.
    assert (H1 : (b + 1) * n <= q * n)
      by (apply Z.mul_le_mono_nonneg_r; lia).
    destruct (Z_le_gt_dec 0 s) as [Hs0|Hs0]; lia.
Qed.

Lemma int_mean_between (xs : list Z) (a b : Z) :
  xs <> [] -> Forall (fun x => a <= x <= b) xs -> a <= int_mean xs <= b.
Proof.
  intros Hne H. unfold int_mean. apply quot_between.
  - destruct xs; [congruence|cbn [length]; lia].
  - now apply sum_bounds.
Qed.

End Hours.

Section PeakRanges.

Import Recommendation Activity.


(** The rows of one cluster, and what [peak_of] reads from them. *)
Lemma peak_of_spec (non_outlier : list ((Z * Z) * Z)) (l : Z) :
  In l (List.map snd non_outlier) ->
  let p := peak_of non_outlier l in
  cluster_id p = l
  /\ (exists c, In ((start_hour p, c), l) non_outlier)
  /\ (exists c, In ((end_hour p, c), l) non_outlier)
  /\ (forall h c, In ((h, c), l) non_outlier -> start_hour p <= h <= end_hour p)
  /\ start_hour p <= avg_activity p <= end_hour p.
Proof.
  intros Hl p. subst p. unfold peak_of.
  cbn [cluster_id start_hour end_hour avg_activity].
  set (rows := List.filter (fun rl => snd rl =? l) non_outlier).
  set (hours := List.map (fun rl => fst (fst rl)) rows).
  assert (Hrows : forall h c l', In ((h, c), l') rows <-> In ((h, c), l) non_outlier /\ l' = l).
  { intros h c l'. unfold rows. rewrite filter_In. cbn [snd]. rewrite Z.eqb_eq.
    split; [intros [H1 ->]; now split|intros [H1 ->]; now split]. }
  assert (Hh : forall h, In h hours <-> exists c, In ((h, c), l) non_outlier).
  { intros h. unfold hours. rewrite in_map_iff. split.
    - intros ([[h' c] l'] & <- & Hin). apply Hrows in Hin as [Hin _]. now exists c.
    - intros [c Hin]. exists ((h, c), l). split; [reflexivity|]. now apply Hrows. }
  assert (Hne : hours <> []).
  { apply in_map_iff in Hl as ([[h c] l'] & E & Hin). cbn in E. subst l'.
    intros Hn. assert (Hx : In h hours) by (apply Hh; now exists c).
    rewrite Hn in Hx. contradiction. }
  destruct (np_min_spec hours Hne) as [Hmin1 Hmin2].
  destruct (np_max_spec hours Hne) as [Hmax1 Hmax2].
  rewrite List.Forall_forall in Hmin2, Hmax2.
  split; [reflexivity|]. split; [now apply Hh|]. split; [now apply Hh|].
  split.
  - intros h c Hin. assert (Hx : In h hours) by (apply Hh; now exists c).
    split; [now apply Hmin2|now apply Hmax2].
  - apply int_mean_between; [exact Hne|]. apply List.Forall_forall.
    intros h Hx. split; [now apply Hmin2|now apply Hmax2].
Qed.

(** X6: the peak ranges are sorted by [avg_activity], greatest first;
    there is one range per cluster label and none for the outlier label -1;
    the start and end hours of a range are hours of rows of its cluster;
    every row that is no outlier lies inside the range of its cluster; and
    [avg_activity] lies between the start hour and the end hour. *)
Theorem peak_ranges_cover_their_clusters (X : matrix) (labels : list Z) :
  let ranges := peak_ranges_of X labels in
  StronglySorted (fun p q => avg_activity q <= avg_activity p) ranges
  /\ List.NoDup (List.map cluster_id ranges)
  /\ (forall p, In p ranges ->
        cluster_id p <> -1
        /\ (exists c, In ((start_hour p, c), cluster_id p) (combine X labels))
        /\ (exists c, In ((end_hour p, c), cluster_id p) (combine X labels))
        /\ start_hour p <= avg_activity p <= end_hour p)
  /\ (forall h c l, In ((h, c), l) (combine X labels) -> l <> -1 ->
        exists p, In p ranges /\ cluster_id p = l
                  /\ start_hour p <= h <= end_hour p).
Proof.
  intros ranges. subst ranges. unfold peak_ranges_of.
  set (non_outlier := List.filter (fun rl => negb (snd rl =? -1)) (combine X labels)).
  set (clusters := set_of (List.map snd non_outlier)).
  set (unsorted := List.map (peak_of non_outlier) clusters).
  assert (Hno : forall h c l, In ((h, c), l) non_outlier
                              <-> In ((h, c), l) (combine X labels) /\ l <> -1).
  { intros h c l. unfold non_outlier. rewrite filter_In. cbn [snd].
    rewrite negb_true_iff, Z.eqb_neq. reflexivity. }
  assert (Hcl : forall l, In l clusters <-> In l (List.map snd non_outlier)).
  { intros l. apply set_of_In. }
  assert (Hperm : Permutation unsorted (sort_by (fun p => - avg_activity p) unsorted))
    by apply sort_by_perm.
  assert (Hids : List.map cluster_id unsorted = clusters).
  { unfold unsorted. rewrite List.map_map. cbn [peak_of cluster_id]. apply List.map_id. }
  split; [|split; [|split]].
  - pose proof (sort_by_sorted (fun p => - avg_activity p) unsorted) as Hs.
    eapply StronglySorted_ind with (P := fun l => StronglySorted _ l);
      [constructor| |exact Hs].
    intros a l _ IH Ha. constructor; [exact IH|].
    eapply List.Forall_impl; [|exact Ha]. cbn. intros; lia.
  - eapply Permutation_NoDup; [apply Permutation_map, Hperm|].
    rewrite Hids. apply set_of_NoDup.
  - intros p Hp. eapply Permutation_in in Hp; [|symmetry; exact Hperm].
    unfold unsorted in Hp. apply in_map_iff in Hp as (l & <- & Hl).
    apply Hcl in Hl.
    destruct (peak_of_spec non_outlier l Hl) as (Hid & [c1 H1] & [c2 H2] & _ & Havg).
    rewrite Hid. apply Hno in H1 as [H1 Hl1]. apply Hno in H2 as [H2 _].
    split; [exact Hl1|]. split; [now exists c1|]. split; [now exists c2|exact Havg].
  - intros h c l Hin Hl.
    assert (Hin' : In ((h, c), l) non_outlier) by now apply Hno.
    assert (Hl' : In l (List.map snd non_outlier)).
    { apply in_map_iff. now exists ((h, c), l). }
    exists (peak_of non_outlier l). split.
    + eapply Permutation_in; [exact Hperm|]. unfold unsorted.
      apply in_map. now apply Hcl.
    + destruct (peak_of_spec non_outlier l Hl') as (Hid & _ & _ & Hall & _).
      split; [exact Hid|]. now apply (Hall h c).
Qed.



End PeakRanges.

(** ** Collapsing whitespace and stripping leaves the words, single-spaced *)

Section SingleSpaced.

Lemma lstrip_skipn (t : pystr) : lstrip t = skipn (run_len is_space t) t.
Proof.
  induction t as [|c r IH]; [reflexivity|]. cbn [lstrip run_len].
  destruct (is_space c); [exact IH|reflexivity].
Qed.

Lemma lstrip_head (t : pystr) : word_ends (lstrip t) = true -> lstrip t = [].
Proof.
  induction t as [|c r IH]; [reflexivity|]. cbn [lstrip].
  destruct (is_space c) eqn:E; [exact IH|]. cbn [word_ends]. congruence.
Qed.

Lemma split_lstrip (t : pystr) : split (lstrip t) = split t.
Proof.
  induction t as [|c r IH]; [reflexivity|]. cbn [lstrip].
  destruct (is_space c) eqn:E; [|reflexivity].
  cbn [split]. now rewrite E.
Qed.

Lemma whitespace_head (t : pystr) :
  word_ends t = false -> word_ends (re_sub whitespace t) = false.
Proof.
  destruct t as [|c r]; [discriminate|]. cbn [word_ends]. intros Hc.
  now rewrite whitespace_char by exact Hc.
Qed.

Lemma lstrip_whitespace (t : pystr) :
  lstrip (re_sub whitespace t) = re_sub whitespace (lstrip t).
Proof.
  destruct t as [|c r]; [reflexivity|]. cbn [lstrip].
  destruct (is_space c) eqn:E.
  - rewrite whitespace_space by exact E. cbn [lstrip].
    change (is_space 32) with true. cbv iota.
    rewrite (lstrip_skipn r).
    set (u := skipn (run_len is_space r) r).
    assert (Hu : run_len is_space u = O) by apply run_len_skipn.
    destruct u as [|d u']; [reflexivity|]. cbn [run_len] in Hu.
    destruct (is_space d) eqn:Ed; [discriminate|].
    apply lstrip_fixed, whitespace_head. exact Ed.
  - apply lstrip_fixed, whitespace_head. exact E.
Qed.

Lemma split_nonempty (t : pystr) : word_ends t = false -> split t <> [].
Proof.
  destruct t as [|c r]; [discriminate|]. cbn [word_ends split]. intros ->.
  unfold push_char. destruct (word_ends r); [discriminate|].
  destruct (split r); discriminate.
Qed.

Lemma join_nil (ws : list pystr) : Forall word ws -> join ws = [] -> ws = [].
Proof.
  intros H E. destruct ws as [|w ws]; [reflexivity|]. exfalso.
  inversion H as [|? ? [Hne _] _]; subst.
  destruct w as [|c w]; [congruence|]. destruct ws; discriminate E.
Qed.

Lemma join_push (c : Z) (w : pystr) (ws : list pystr) :
  join ((c :: w) :: ws) = c :: join (w :: ws).
Proof. destruct ws; reflexivity. Qed.

(** On a text that does not start with whitespace. *)
Lemma rstrip_whitespace (t : pystr) :
  word_ends t = false \/ t = [] ->
  rstrip (re_sub whitespace t) = join (split t).
Proof.
  induction t as [t IH] using pystr_length_ind. intros Ht.
  destruct t as [|c r]; [reflexivity|].
  destruct Ht as [Hc|]; [|discriminate]. cbn [word_ends] in Hc.
  rewrite whitespace_char by exact Hc. cbn [split]. rewrite Hc.
  destruct r as [|d r'].
  - rewrite re_sub_nil. cbn. now rewrite Hc.
  - destruct (is_space d) eqn:Ed.
    + (* the word [c] ends here *)
      cbn [word_ends]. rewrite Ed. cbn [push_char].
      rewrite whitespace_space by exact Ed.
      set (u := skipn (run_len is_space r') r').
      assert (Es : split (d :: r') = split u).
      { rewrite <- (split_lstrip (d :: r')). cbn [lstrip]. rewrite Ed.
        now rewrite lstrip_skipn. }
      rewrite Es.
      assert (Hu : word_ends u = false \/ u = []).
      { pose proof (run_len_skipn is_space r') as H0. fold u in H0.
        destruct u as [|e u']; [now right|]. left. cbn [run_len] in H0.
        cbn [word_ends]. destruct (is_space e); [discriminate|reflexivity]. }
      assert (Hlen : (length u < length (c :: d :: r'))%nat).
      { unfold u. rewrite length_skipn. cbn [length]. lia. }
      specialize (IH u Hlen Hu).
      cbn [rstrip]. rewrite IH.
      destruct (join (split u)) as [|x xs] eqn:Ej.
      * apply join_nil in Ej; [|apply split_words]. rewrite Ej.
        change (is_space 32) with true. cbv iota. now rewrite Hc.
      * destruct (split u) as [|w ws] eqn:Eu; [discriminate Ej|].
        rewrite join_cons. cbn [app]. now rewrite Ej.
    + (* the word goes on *)
      cbn [word_ends]. rewrite Ed. 
      assert (Hlen : (length (d :: r') < length (c :: d :: r'))%nat)
        by (cbn [length]; lia).
      specialize (IH (d :: r') Hlen (or_introl Ed)).
      destruct (rstrip_head d (re_sub whitespace r') Ed) as [x Hx].
      rewrite <- (whitespace_char d r' Ed) in Hx.
      cbn [rstrip]. rewrite Hx. rewrite <- Hx, IH.
      destruct (split (d :: r')) as [|w ws] eqn:Es.
      * exfalso. now apply (split_nonempty (d :: r')).
      * cbn [push_char]. now rewrite join_push.
Qed.

(** [re.sub(r'\s+', ' ', text).strip()] is [' '.join(text.split())]. *)
Lemma strip_whitespace (t : pystr) :
  strip (re_sub whitespace t) = join (split t).
Proof.
  unfold strip. rewrite lstrip_whitespace, <- split_lstrip.
  apply rstrip_whitespace.
  destruct (word_ends (lstrip t)) eqn:E; [right; now apply lstrip_head|now left].
Qed.

Lemma join_split_join (t : pystr) : split (join (split t)) = split t.
Proof. apply split_join, split_words. Qed.

End SingleSpaced.

(** ** The shape of a normalized text, for every character database *)

Section Shape.

Variable db : ucd.

(** Steps 7 to 9 of both normalizations, on the lower-cased text. *)
Let finish (t : pystr) : pystr :=
  strip (re_sub whitespace (re_sub (special db) (re_sub repeated t))).

Lemma finish_words (t : pystr) :
  finish t = join (split (re_sub (special db) (re_sub repeated t))).
Proof. apply strip_whitespace. Qed.

Lemma finish_single_spaced (t : pystr) : finish t = join (split (finish t)).
Proof. rewrite finish_words. now rewrite join_split_join. Qed.

Lemma special_alphabet (t : pystr) :
  Forall (fun c => is_word db c = true \/ is_space c = true)
         (re_sub (special db) t).
Proof.
  rewrite special_map. apply Forall_map. apply List.Forall_forall. intros c _.
  destruct (is_word db c) eqn:Ew; cbn [negb andb]; [now left|].
  destruct (is_space c) eqn:Es; cbn [negb]; [now right|]. now right.
Qed.

Lemma join_Forall (P : Z -> Prop) (ws : list pystr) :
  P 32 -> Forall (Forall P) ws -> Forall P (join ws).
Proof.
  intros H32. induction ws as [| w | w w2 ws IH] using join_ind; intros H.
  - constructor.
  - now inversion H.
  - inversion H; subst. rewrite join_cons. apply Forall_app.
    split; [assumption|]. constructor; [exact H32|]. now apply IH.
Qed.

(** The words of a text whose characters are word characters or
    whitespace. *)
Lemma split_alphabet (t : pystr) :
  Forall (fun c => is_word db c = true \/ is_space c = true) t ->
  Forall (Forall (fun c => is_word db c = true \/ c = 32)) (split t).
Proof.
  intros Ht. pose proof (split_words t) as Hw.
  apply List.Forall_forall. intros w Hin.
  rewrite List.Forall_forall in Hw. destruct (Hw w Hin) as [_ Hns].
  destruct (split_factor t w Hin) as (a & b & E). rewrite E in Ht.
  apply Forall_app in Ht as [_ Ht]. apply Forall_app in Ht as [Ht _].
  rewrite List.Forall_forall in Ht, Hns. apply List.Forall_forall.
  intros c Hc. destruct (Ht c Hc) as [H|H]; [now left|].
  rewrite (Hns c Hc) in H. discriminate H.
Qed.

Lemma finish_alphabet (t : pystr) :
  Forall (fun c => is_word db c = true \/ c = 32) (finish t).
Proof.
  rewrite finish_words. apply join_Forall; [now right|].
  apply split_alphabet, special_alphabet.
Qed.

Lemma finish_norun (t : pystr) : norun not_space (finish t) = true.
Proof.
  unfold finish. apply strip_norun, whitespace_norun.
  rewrite special_map. apply norun_blanked.
  - intros c. destruct (_ && _); auto.
  - apply (norun_weaken not_newline); [|apply repeated_norun].
    apply List.Forall_forall. intros c _. unfold not_space, not_newline.
    destruct (Z.eqb_spec c 10) as [->|_]; [discriminate|reflexivity].
Qed.

End Shape.

Section Runs4.

Let any (c : Z) : bool := true.

Lemma word_norun (w : pystr) :
  Forall (fun c => is_space c = false) w ->
  norun not_space w = true -> norun any w = true.
Proof.
  intros Hw. apply norun_weaken.
  eapply List.Forall_impl; [|exact Hw]. intros c Hc _.
  unfold not_space. now rewrite Hc.
Qed.

Lemma join_norun_words (g : Z -> bool) (ws : list pystr) :
  Forall word ws -> Forall (fun w => norun g w = true) ws ->
  norun g (join ws) = true.
Proof.
  induction ws as [| w | w w2 ws IH] using join_ind; intros Hw Hn.
  - reflexivity.
  - now inversion Hn.
  - inversion Hw as [|? ? [_ Hs] Hw']; subst.
    inversion Hn as [|? ? Hn1 Hn']; subst. rewrite join_cons.
    apply norun_sep.
    + eapply List.Forall_impl; [|exact Hs]. intros c Hc ->. discriminate Hc.
    + exact Hn1.
    + inversion Hw' as [|? ? [Hne Hs2] _]; subst. apply join_starts; [exact Hne|].
      eapply List.Forall_impl; [|exact Hs2]. intros c Hc.
      apply Z.eqb_neq. intros <-. discriminate Hc.
    + now apply IH.
Qed.

(** The words of a text without long runs of one non-blank character. *)
Lemma split_norun (t : pystr) :
  norun not_space t = true ->
  Forall (fun w => norun any w = true) (split t).
Proof.
  intros Hn. pose proof (split_words t) as Hw.
  apply List.Forall_forall. intros w Hin.
  rewrite List.Forall_forall in Hw. destruct (Hw w Hin) as [_ Hns].
  destruct (split_factor t w Hin) as (a & b & E). rewrite E in Hn.
  apply norun_factor in Hn. now apply word_norun.
Qed.

Lemma norun_no_four (t a b : pystr) (c : Z) :
  norun any t = true -> t <> a ++ [c; c; c; c] ++ b.
Proof.
  intros Hn ->. apply norun_suffix in Hn. cbn [app norun run_len] in Hn.
  rewrite Z.eqb_refl in Hn. cbn in Hn. discriminate Hn.
Qed.

(** Words that are kept from a text without long runs, joined again. *)
Lemma kept_words_no_four (keep : pystr -> bool) (t a b : pystr) (c : Z) :
  norun not_space t = true ->
  join (List.filter keep (split t)) <> a ++ [c; c; c; c] ++ b.
Proof.
  intros Hn. apply norun_no_four. apply join_norun_words.
  - apply filter_Forall, split_words.
  - apply filter_Forall, split_norun, Hn.
Qed.

End Runs4.

(** ** Both normalizations *)

Lemma emotion_single_spaced (db : ucd) (text : pyval) :
  Emotion.preprocess_text db text
  = join (split (Emotion.preprocess_text db text)).
Proof.
  unfold Emotion.preprocess_text.
  destruct (isna text || is_empty_str text); [reflexivity|].
  unfold Emotion.clean. set (t := lower db _).
  exact (finish_single_spaced db t).
Qed.

Lemma sentiment_alphabet (db : ucd) (text : pyval) :
  Forall (fun c => is_word db c = true \/ c = 32)
         (Sentiment.preprocess_text db text).
Proof.
  unfold Sentiment.preprocess_text.
  destruct (isna text || is_empty_str text); [constructor|].
  unfold Sentiment.remove_stopwords, Sentiment.clean.
  set (t := lower db _).
  rewrite (finish_words db t), join_split_join.
  apply join_Forall; [now right|].
  apply filter_Forall, split_alphabet, special_alphabet.
Qed.

Lemma emotion_alphabet (db : ucd) (text : pyval) :
  Forall (fun c => is_word db c = true \/ c = 32)
         (Emotion.preprocess_text db text).
Proof.
  unfold Emotion.preprocess_text.
  destruct (isna text || is_empty_str text); [constructor|].
  unfold Emotion.clean. set (t := lower db _).
  exact (finish_alphabet db t).
Qed.

(** The characters of a word of a normalized text. *)
Lemma token_alphabet (db : ucd) (t w : pystr) :
  Forall (fun c => is_word db c = true \/ c = 32) t ->
  In w (split t) -> Forall (fun c => is_word db c = true) w.
Proof.
  intros Ht Hin. pose proof (split_words t) as Hw.
  rewrite List.Forall_forall in Hw. destruct (Hw w Hin) as [_ Hns].
  destruct (split_factor t w Hin) as (a & b & E). rewrite E in Ht.
  apply Forall_app in Ht as [_ Ht]. apply Forall_app in Ht as [Ht _].
  rewrite List.Forall_forall in Ht, Hns. apply List.Forall_forall.
  intros c Hc. destruct (Ht c Hc) as [H| ->]; [exact H|].
  specialize (Hns 32 Hc). discriminate Hns.
Qed.

(** X8: for every character database, the text the emotion engine's
    normalization returns is its own words joined by single spaces (U+0020):
    no leading or trailing whitespace, no other whitespace character, no
    two spaces in a row. *)
Theorem emotion_output_single_spaced (db : ucd) (text : pyval) :
  let out := Emotion.preprocess_text db text in
  out = join (split out) /\ strip out = out.
Proof.
  intros out. pose proof (emotion_single_spaced db text) as E. fold out in E.
  split; [exact E|]. rewrite E at 1. rewrite strip_join by apply split_words.
  symmetry. exact E.
Qed.

(** ** The stopword filter of the sentiment engine, and the emotion engine *)

Lemma filter_filter_andb {A : Type} (f g : A -> bool) (l : list A) :
  List.filter f (List.filter g l) = List.filter (fun x => f x && g x) l.
Proof.
  induction l as [|x l IH]; [reflexivity|]. cbn [List.filter].
  destruct (g x), (f x) eqn:Ef; cbn [List.filter andb]; rewrite ?Ef, IH;
    reflexivity.
Qed.

(** C10, amended: the emotion engine's normalization drops no token: its
    output is the tokens of the text left by the steps up to the removal of
    special characters, all of them, joined by single spaces. The stopword
    and length filter is the sentiment engine's: every token of its output
    is longer than 2 characters and is none of the words of the stopword
    list; the output is its tokens joined by single spaces; and, the six
    words aside that the two missing commas of the list concern, these
    tokens are the tokens of the cleaned text that are longer than 2
    characters and not in the list, in their order. *)
Theorem sentiment_output_is_filtered (db : ucd) (text : pyval) :
  let joined := List.map py ["vioni"; "deh"; "vionideh";
                             "atas"; "kontol"; "ataskontol"]%string in
  let apart := fun w => negb (bool_decide (w ∈ joined)) in
  let out := Sentiment.preprocess_text db text in
  let before_whitespace :=
    re_sub (special db)
      (re_sub repeated
         (lower db
            (re_sub emoji_pattern
               (re_sub (hashtag db)
                  (re_sub (mention db)
                     (re_sub Emotion.url_www
                        (re_sub Emotion.url_http
                           (Sentiment.convert_emoji Emotion.emoji_dict
                                                    (str text))))))))) in
  Emotion.preprocess_text db text
  = (if isna text || is_empty_str text then []
     else join (split before_whitespace))
  /\ (forall w, In w (split out) ->
        (2 < length w)%nat
        /\ forall s, In s Sentiment.stopwords_id -> apart (py s) = true ->
                     w <> py s)
  /\ out = join (split out)
  /\ List.filter apart (split out)
     = (if isna text || is_empty_str text then []
        else List.filter
               (fun w => apart w && (2 <? length w)%nat
                         && negb (bool_decide (w ∈ Sentiment.stopwords)))
               (split (Sentiment.clean db (str text)))).
Proof.
  intros joined apart out before_whitespace. subst out.
  unfold Sentiment.preprocess_text, Emotion.preprocess_text.
  destruct (isna text || is_empty_str text).
  - split; [reflexivity|]. split; [intros w []|]. split; reflexivity.
  - split; [apply strip_whitespace|].
    rewrite remove_stopwords_tokens. split; [|split].
    + intros w Hw. apply filter_In in Hw as [_ Hw].
      apply keep_word_spec in Hw as [Hstop Hlen]. split; [exact Hlen|].
      intros s Hs _ ->. apply Hstop. unfold Sentiment.stopwords.
      now apply in_map.
    + reflexivity.
    + rewrite filter_filter_andb. apply filter_ext. intros w.
      unfold Sentiment.keep_word.
      destruct (apart w), (2 <? length w)%nat, (bool_decide _); reflexivity.
Qed.

(** C10 as stated fails: the emotion engine keeps stopwords and tokens of
    one or two letters. *)
Lemma emotion_output_keeps_short_tokens :
  Emotion.preprocess_text ucd_fragment (PyStr (py "ya, di sini ok")) = py "ya di sini ok"
  /\ ~ (forall w,
           In w (split (Emotion.preprocess_text ucd_fragment
                                                (PyStr (py "ya, di sini ok")))) ->
           ~ In w Sentiment.stopwords /\ (2 < length w)%nat).
Proof.
  assert (E : Emotion.preprocess_text ucd_fragment (PyStr (py "ya, di sini ok"))
              = py "ya di sini ok") by (vm_compute; reflexivity).
  split; [exact E|]. rewrite E. intros H.
  destruct (H (py "ya")) as [_ Hlen]; [now left|].
  vm_compute in Hlen. lia.
Qed.

(** One reply through both engines. *)
Lemma sentiment_output_is_filtered_witness :
  Sentiment.preprocess_text ucd_fragment (PyStr (py "ya, di sini ok bagus"))
  = py "sini bagus"
  /\ Emotion.preprocess_text ucd_fragment (PyStr (py "ya, di sini ok bagus"))
     = py "ya di sini ok bagus".
Proof.
  destruct (sentiment_output_is_filtered
              ucd_fragment (PyStr (py "ya, di sini ok bagus")))
    as (He & _ & Hj & _).
  split.
  - rewrite Hj. vm_compute. reflexivity.
  - rewrite He. vm_compute. reflexivity.
Defined.

(** ** The normalization of the topic engine *)

Section Siblings.

Lemma elem_of_filter_split {A : Type} `{EqDecision A} (k t : list A) (w : A) :
  w ∈ k -> w ∈ t \/ w ∈ List.filter (fun s => negb (bool_decide (s ∈ t))) k.
Proof.
  intros Hk. destruct (decide (w ∈ t)) as [Ht|Ht]; [now left|]. right.
  apply list_elem_of_In, filter_In. split; [now apply list_elem_of_In|].
  apply negb_true_iff. now apply bool_decide_eq_false.
Qed.

Let six : list pystr :=
  List.map py ["deh"; "atas"; "kontol"; "pau"; "vionideh"; "ataskontol"]%string.

Lemma stopwords_agree (w : pystr) :
  ~ In w six -> (w ∈ Sentiment.stopwords <-> w ∈ TopicPillar.stopwords).
Proof.
  intros Hw.
  assert (E1 : List.filter (fun s => negb (bool_decide (s ∈ TopicPillar.stopwords)))
                           Sentiment.stopwords
               = List.map py ["pau"; "vionideh"; "ataskontol"]%string)
    by (vm_compute; reflexivity).
  assert (E2 : List.filter (fun s => negb (bool_decide (s ∈ Sentiment.stopwords)))
                           TopicPillar.stopwords
               = List.map py ["deh"; "atas"; "kontol"]%string)
    by (vm_compute; reflexivity).
  split; intros H.
  - destruct (elem_of_filter_split _ TopicPillar.stopwords w H) as [H'|H'];
      [exact H'|].
    rewrite E1 in H'. exfalso. apply Hw. apply list_elem_of_In in H'.
    unfold six. cbn [List.map In] in *. tauto.
  - destruct (elem_of_filter_split _ Sentiment.stopwords w H) as [H'|H'];
      [exact H'|].
    rewrite E2 in H'. exfalso. apply Hw. apply list_elem_of_In in H'.
    unfold six. cbn [List.map In] in *. tauto.
Qed.

Lemma keep_word_agree (w : pystr) :
  ~ In w six -> TopicPillar.keep_word w = Sentiment.keep_word w.
Proof.
  intros Hw. unfold TopicPillar.keep_word, Sentiment.keep_word.
  f_equal. f_equal. apply bool_decide_ext. symmetry. now apply stopwords_agree.
Qed.

End Siblings.

(** X23: the normalization of the topic engine is the one of the sentiment
    engine up to six tokens: the sentiment engine keeps [deh], [atas] and
    [kontol], which the topic engine drops, and drops [pau], [vionideh] and
    [ataskontol], which the topic engine keeps; on a text whose cleaned
    tokens are none of the six the two return the same text. *)
Theorem topic_and_sentiment_filters (db : ucd) (text : pyval) :
  let six := List.map py ["deh"; "atas"; "kontol";
                          "pau"; "vionideh"; "ataskontol"]%string in
  (forall w, ~ In w six -> TopicPillar.keep_word w = Sentiment.keep_word w)
  /\ List.map Sentiment.keep_word six = [true; true; true; false; false; false]
  /\ List.map TopicPillar.keep_word six = [false; false; false; true; true; true]
  /\ ((forall w, In w (split (Sentiment.clean db (str text))) -> ~ In w six) ->
      TopicPillar.preprocess_text db text = Sentiment.preprocess_text db text).
Proof.
  intros six. split; [exact keep_word_agree|].
  split; [vm_compute; reflexivity|]. split; [vm_compute; reflexivity|].
  intros H. unfold TopicPillar.preprocess_text, Sentiment.preprocess_text.
  destruct (isna text || is_empty_str text); [reflexivity|].
  unfold Sentiment.remove_stopwords. f_equal.
  induction (split (Sentiment.clean db (str text))) as [|w ws IH];
    [reflexivity|].
  cbn [List.filter]. rewrite keep_word_agree by (apply H; left; reflexivity).
  rewrite IH; [reflexivity|]. intros w' Hw'. apply H. right. exact Hw'.
Qed.

(** One reply through both. *)
Lemma topic_and_sentiment_filters_witness :
  Sentiment.preprocess_text ucd_fragment (PyStr (py "Sinyal deh kontol, pau!"))
  = py "sinyal deh kontol"
  /\ TopicPillar.preprocess_text ucd_fragment (PyStr (py "Sinyal deh kontol, pau!"))
     = py "sinyal pau"
  /\ TopicPillar.preprocess_text ucd_fragment (PyStr (py "Sinyal lambat, kak!"))
     = Sentiment.preprocess_text ucd_fragment (PyStr (py "Sinyal lambat, kak!")).
Proof.
  split; [vm_compute; reflexivity|]. split; [vm_compute; reflexivity|].
  apply (topic_and_sentiment_filters ucd_fragment (PyStr (py "Sinyal lambat, kak!"))).
  intros w Hw. vm_compute in Hw. intros H6. vm_compute in H6.
  repeat (destruct Hw as [<-|Hw]; [repeat (destruct H6 as [H6|H6]; [discriminate H6|]); exact H6|]).
  exact Hw.
Defined.

(** X9: for every character database, a normalized text of either engine
    consists of word characters (the class [\w]) and spaces (U+0020) only. *)
Theorem normalized_text_alphabet (db : ucd) (text : pyval) :
  Forall (fun c => is_word db c = true \/ c = 32)
         (Sentiment.preprocess_text db text)
  /\ Forall (fun c => is_word db c = true \/ c = 32)
            (Emotion.preprocess_text db text).
Proof. split; [apply sentiment_alphabet|apply emotion_alphabet]. Qed.

(** X10: for every character database, no character occurs four times in
    a row in a normalized text of either engine. *)
Theorem normalized_text_has_no_long_run (db : ucd) (text : pyval)
        (a b : pystr) (c : Z) :
  Sentiment.preprocess_text db text <> a ++ [c; c; c; c] ++ b
  /\ Emotion.preprocess_text db text <> a ++ [c; c; c; c] ++ b.
Proof.
  split.
  - unfold Sentiment.preprocess_text.
    destruct (isna text || is_empty_str text).
    { destruct a; discriminate. }
    unfold Sentiment.remove_stopwords, Sentiment.clean.
    set (t := lower db _).
    apply kept_words_no_four. exact (finish_norun db t).
  - unfold Emotion.preprocess_text.
    destruct (isna text || is_empty_str text).
    { destruct a; discriminate. }
    unfold Emotion.clean. set (t := lower db _).
    rewrite (finish_single_spaced db t).
    rewrite <- (filter_fixed (fun _ => true) (split _))
      by (apply List.Forall_forall; reflexivity).
    apply kept_words_no_four. exact (finish_norun db t).
Qed.

(** ** Idempotence of the sentiment normalization *)

Section Outside.

Variable O : Z -> Prop.

Lemma starts_with_outside (lit u : pystr) :
  (exists c, In c lit /\ ~ O c) -> Forall O u -> starts_with lit u = false.
Proof.
  intros (c & Hin & Hc) Hu. destruct (starts_with lit u) eqn:E; [|reflexivity].
  apply (starts_with_Forall O) in E; [|exact Hu].
  rewrite List.Forall_forall in E. now apply E in Hin.
Qed.

Lemma lit_outside lit p f (u : pystr) :
  (exists c, In c lit /\ ~ O c) -> Forall O u -> lit_then_run lit p f u = None.
Proof.
  intros Hlit Hu. unfold lit_then_run. now rewrite starts_with_outside.
Qed.

Lemma class_outside p f (u : pystr) :
  (forall c, O c -> p c = false) -> Forall O u ->
  lit_then_run [] p f u = None.
Proof.
  intros Hp Hu. unfold lit_then_run. cbn [starts_with length].
  rewrite skipn_O. destruct Hu as [|c r Hc _]; [reflexivity|].
  simpl. now rewrite (Hp c Hc).
Qed.

Lemma replace_outside (old new t : pystr) :
  (exists c, In c old /\ ~ O c) -> Forall O t -> replace old new t = t.
Proof.
  intros Hold Ht. unfold replace. destruct old as [|a old].
  - destruct Hold as (c & [] & _).
  - apply (re_sub_id _ O); [|exact Ht].
    intros u Hu. now rewrite starts_with_outside.
Qed.

Lemma convert_emoji_outside (dict : list (pystr * pystr)) (t : pystr) :
  Forall (fun kv => exists c, In c (fst kv) /\ ~ O c) dict ->
  Forall O t -> Sentiment.convert_emoji dict t = t.
Proof.
  intros Hd Ht. unfold Sentiment.convert_emoji.
  induction Hd as [|kv dict Hkv _ IH]; [reflexivity|].
  simpl. rewrite replace_outside by assumption. exact IH.
Qed.

End Outside.

Lemma emoji_pattern_clears (t : pystr) :
  Forall (fun c => in_emoji_range c = false) (re_sub emoji_pattern t).
Proof.
  induction t as [t IH] using pystr_length_ind.
  destruct t as [|c r]; [constructor|]. rewrite re_sub_cons.
  unfold emoji_pattern, lit_then_run. cbn [starts_with length skipn run_len].
  destruct (in_emoji_range c) eqn:E.
  - cbn [Nat.add blank app]. constructor; [reflexivity|].
    apply IH. simpl. rewrite length_skipn. lia.
  - constructor; [exact E|]. apply IH. simpl. lia.
Qed.

Section Settled.

Variable db : ucd.
Hypothesis Hdb : ascii_exact db = true.

Let S (c : Z) : Prop := settles db c = true.

(** Lower case already, and outside the stripped range if a word
    character. *)
Let L (d : Z) : Prop :=
  lowered db d = [d] /\ (is_word db d = true -> in_emoji_range d = false).

(** A character of a normalized text. *)
Let G (c : Z) : Prop :=
  (is_word db c = true /\ lowered db c = [c] /\ in_emoji_range c = false)
  \/ c = 32.

Lemma lowered_fixed (d : Z) :
  lowered db d = [d] -> d <> 931 /\ u_lower db d = [d].
Proof.
  unfold lowered. destruct (Z.eqb_spec d 931) as [->|Hd]; [discriminate|].
  now split.
Qed.

Lemma lowered_ascii (c : Z) :
  is_ascii c = true -> lowered db c = [ascii_lower c].
Proof.
  intros Hc. unfold lowered.
  destruct (Z.eqb_spec c 931) as [->|_]; [discriminate Hc|].
  now destruct (exact_spec db Hdb c Hc) as [-> _].
Qed.

(** What [str.lower] returns is made of the characters that lower-casing
    the characters of the text can give. *)
Lemma lower_from_In (before t : pystr) (x : Z) :
  In x (lower_from db before t) -> exists c, In c t /\ In x (lowered db c).
Proof.
  revert before. induction t as [|c r IH]; intros before; [intros []|].
  cbn [lower_from]. intros H. apply in_app_or in H as [H|H].
  - exists c. split; [now left|]. unfold lowered.
    destruct (c =? 931); [|exact H].
    destruct (final_sigma db before r); destruct H as [<-|[]];
      [now left | right; now left].
  - destruct (IH _ H) as (c' & Hc' & Hx). exists c'. split; [now right|exact Hx].
Qed.

Lemma lower_from_fixed (before t : pystr) :
  Forall (fun c => lowered db c = [c]) t -> lower_from db before t = t.
Proof.
  intros H. revert before. induction H as [|c r Hc _ IH]; intros before;
    [reflexivity|].
  cbn [lower_from]. rewrite IH. destruct (lowered_fixed c Hc) as [Hn ->].
  destruct (Z.eqb_spec c 931) as [E|_]; [contradiction|reflexivity].
Qed.

Lemma settles_spec (c : Z) :
  S c <->
  forall d, In d (lowered db c) ->
            lowered db d = [d]
            /\ (in_emoji_range c = false -> is_word db d = true ->
                in_emoji_range d = false).
Proof.
  unfold S, settles. rewrite forallb_forall. split; intros H d Hd.
  - specialize (H d Hd). apply andb_true_iff in H as [H1 H2].
    apply bool_decide_eq_true in H1. split; [exact H1|].
    intros Hc Hw. rewrite Hc, Hw in H2. cbn in H2.
    now apply negb_true_iff in H2.
  - destruct (H d Hd) as [H1 H2]. apply andb_true_iff.
    split; [now apply bool_decide_eq_true|].
    destruct (in_emoji_range c); [reflexivity|]. cbn.
    destruct (is_word db d); [|reflexivity]. cbn.
    apply negb_true_iff. now apply H2.
Qed.

Lemma ascii_settles (c : Z) : is_ascii c = true -> S c.
Proof.
  intros Hc. apply (proj2 (settles_spec c)). intros d Hd.
  rewrite (lowered_ascii c Hc) in Hd.
  destruct Hd as [<-|[]].
  assert (Ha : is_ascii (ascii_lower c) = true
               /\ ascii_lower (ascii_lower c) = ascii_lower c
               /\ in_emoji_range (ascii_lower c) = false).
  { pose proof (ascii_forall
                  (fun c => is_ascii (ascii_lower c)
                            && (ascii_lower (ascii_lower c) =? ascii_lower c)
                            && negb (in_emoji_range (ascii_lower c)))) as H.
    specialize (H eq_refl c Hc). zbool. tauto. }
  destruct Ha as (Ha & Hl & Hr).
  rewrite (lowered_ascii _ Ha), Hl. now split.
Qed.

Lemma lowered_settles (c d : Z) : S c -> In d (lowered db c) -> S d.
Proof.
  intros Hc Hd. pose proof (proj1 (settles_spec c) Hc d Hd) as [Hl _].
  apply (proj2 (settles_spec d)). rewrite Hl. intros d' [<-|[]]. split; [exact Hl|].
  intros Hr _. exact Hr.
Qed.

Lemma lower_settles (t : pystr) : Forall S t -> Forall S (lower db t).
Proof.
  intros H. apply List.Forall_forall. intros d Hd.
  apply lower_from_In in Hd as (c & Hc & Hd).
  rewrite List.Forall_forall in H. exact (lowered_settles c d (H c Hc) Hd).
Qed.

Lemma process_hashtag_settles (g : pystr) :
  Forall S g -> Forall S (process_hashtag db g).
Proof.
  intros H. unfold process_hashtag. apply lower_settles.
  apply re_sub_Forall; [|exact H].
  intros u n repl Hu. apply camel_Forall; [|exact Hu].
  now apply ascii_settles.
Qed.

Lemma emoji_values_settle :
  Forall (fun kv => Forall S (snd kv)) Sentiment.emoji_dict.
Proof.
  eapply List.Forall_impl; [|apply emoji_values_ascii].
  intros kv H. eapply List.Forall_impl; [|exact H]. apply ascii_settles.
Qed.

(** Steps 1 to 5 of the cleaning. *)
Lemma stripped_settles (text : pystr) :
  Forall S text ->
  Forall (fun c => S c /\ in_emoji_range c = false)
         (re_sub emoji_pattern
            (re_sub (hashtag db)
               (re_sub (mention db)
                  (re_sub Sentiment.url_www
                     (re_sub Sentiment.url_http
                        (Sentiment.convert_emoji Sentiment.emoji_dict
                                                 text)))))).
Proof.
  intros H. apply Forall_and. split; [|apply emoji_pattern_clears].
  apply re_sub_Forall.
  { intros u n repl Hu. apply lit_then_run_Forall; [|exact Hu].
    intros g. apply blank_Forall. now apply ascii_settles. }
  apply re_sub_Forall.
  { intros u n repl Hu. apply lit_then_run_Forall; [|exact Hu].
    apply process_hashtag_settles. }
  apply re_sub_Forall.
  { intros u n repl Hu. apply lit_then_run_Forall; [|exact Hu].
    apply erase_Forall. }
  apply re_sub_Forall.
  { intros u n repl Hu. apply lit_then_run_Forall; [|exact Hu].
    apply erase_Forall. }
  apply re_sub_Forall.
  { intros u n repl Hu. now apply url_http_Forall. }
  apply convert_emoji_Forall;
    [now apply ascii_settles | apply emoji_values_settle | exact H].
Qed.

(** Step 6. *)
Lemma lower_settled (t : pystr) :
  Forall (fun c => S c /\ in_emoji_range c = false) t -> Forall L (lower db t).
Proof.
  intros H. apply List.Forall_forall. intros d Hd.
  apply lower_from_In in Hd as (c & Hc & Hd).
  rewrite List.Forall_forall in H. destruct (H c Hc) as [Hs Hr].
  destruct (proj1 (settles_spec c) Hs d Hd) as [Hl Hw].
  split; [exact Hl|]. now apply Hw.
Qed.

Lemma space_fixed : L 32.
Proof.
  split; [exact (lowered_ascii 32 eq_refl)|].
  destruct (exact_spec db Hdb 32 eq_refl) as [_ Ha].
  unfold is_word. rewrite Ha. discriminate.
Qed.

(** Steps 1 to 9. *)
Lemma clean_settled (text : pystr) :
  Forall S text -> Forall G (Sentiment.clean db text).
Proof.
  intros H. pose proof (lower_settled _ (stripped_settles text H)) as H6.
  assert (HL : Forall L (Sentiment.clean db text)).
  { unfold Sentiment.clean. apply strip_Forall. apply re_sub_Forall.
    { intros u n repl Hu. apply lit_then_run_Forall; [|exact Hu].
      intros g. apply blank_Forall. apply space_fixed. }
    apply re_sub_Forall.
    { intros u n repl _. apply special_Forall. apply space_fixed. }
    apply re_sub_Forall; [|exact H6].
    intros u n repl Hu. now apply repeated_Forall. }
  assert (HA : Forall (fun c => is_word db c = true \/ c = 32)
                      (Sentiment.clean db text)).
  { unfold Sentiment.clean. set (t := lower db _).
    exact (finish_alphabet db t). }
  rewrite List.Forall_forall in HL, HA. apply List.Forall_forall.
  intros c Hc. destruct (HL c Hc) as [Hl Hr].
  destruct (HA c Hc) as [Hw|E]; [|right; exact E].
  left. split; [exact Hw|]. split; [exact Hl|]. exact (Hr Hw).
Qed.

(** A token of the normalized text of a settled input. *)
Let settled_word (w : pystr) : Prop :=
  Sentiment.keep_word w = true /\ word w /\ Forall G w
  /\ norun not_newline w = true.

Lemma clean_tokens_settled (text : pystr) :
  Forall S text ->
  Forall settled_word
         (List.filter Sentiment.keep_word (split (Sentiment.clean db text))).
Proof.
  intros H. pose proof (clean_settled text H) as HG.
  assert (Hn : norun not_space (Sentiment.clean db text) = true).
  { unfold Sentiment.clean. set (t := lower db _). exact (finish_norun db t). }
  pose proof (split_words (Sentiment.clean db text)) as Hwords.
  apply List.Forall_forall. intros w Hw.
  apply filter_In in Hw as [Hw Hk].
  destruct (split_factor _ _ Hw) as (a & b & E).
  rewrite List.Forall_forall in Hwords. pose proof (Hwords w Hw) as Hword.
  rewrite E in HG, Hn.
  apply Forall_app in HG as [_ HG]. apply Forall_app in HG as [HG _].
  apply norun_factor in Hn.
  split; [exact Hk|]. split; [exact Hword|]. split; [exact HG|].
  apply (norun_weaken not_space); [|exact Hn].
  destruct Hword as [_ Hns]. eapply List.Forall_impl; [|exact Hns].
  intros c Hs _. unfold not_space. rewrite Hs. reflexivity.
Qed.

Lemma settled_not_word (c : Z) :
  is_ascii c = true -> ascii_alnum c || (c =? 95) = false -> c <> 32 -> ~ G c.
Proof.
  intros Ha Hw H32 [(Hw' & _)|E]; [|contradiction].
  rewrite (is_word_ascii db Hdb c Ha) in Hw'. congruence.
Qed.

Lemma emoji_keys_outside :
  Forall (fun kv => exists c, In c (fst kv) /\ ~ G c) Sentiment.emoji_dict.
Proof.
  assert (H : forallb (fun kv => existsb in_emoji_range (fst kv))
                      Sentiment.emoji_dict = true) by (vm_compute; reflexivity).
  rewrite forallb_forall in H. apply List.Forall_forall. intros kv Hkv.
  specialize (H kv Hkv). apply existsb_exists in H as (c & Hin & Hr).
  exists c. split; [exact Hin|]. intros [(_ & _ & Hn)| ->]; [congruence|].
  discriminate Hr.
Qed.

(** Steps 1 to 8 leave a normalized text as it is. *)
Lemma blanked_settled (t : pystr) :
  Forall G t -> norun not_newline t = true ->
  re_sub (special db)
    (re_sub repeated
       (lower db
          (re_sub emoji_pattern
             (re_sub (hashtag db)
                (re_sub (mention db)
                   (re_sub Sentiment.url_www
                      (re_sub Sentiment.url_http
                         (Sentiment.convert_emoji Sentiment.emoji_dict t))))))))
  = t.
Proof.
  intros Ht Hn.
  rewrite (convert_emoji_outside G _ t emoji_keys_outside Ht).
  rewrite (re_sub_id Sentiment.url_http G t); [|clear Ht Hn t|exact Ht].
  2:{ intros u Hu. unfold Sentiment.url_http.
      rewrite !(lit_outside G); try exact Hu; [reflexivity|..];
        exists 58; (split; [cbn; tauto|now apply settled_not_word]). }
  rewrite (re_sub_id Sentiment.url_www G t); [|clear Ht Hn t|exact Ht].
  2:{ intros u Hu. apply (lit_outside G); [|exact Hu].
      exists 46. split; [cbn; tauto|now apply settled_not_word]. }
  rewrite (re_sub_id (mention db) G t); [|clear Ht Hn t|exact Ht].
  2:{ intros u Hu. apply (lit_outside G); [|exact Hu].
      exists 64. split; [cbn; tauto|now apply settled_not_word]. }
  rewrite (re_sub_id (hashtag db) G t); [|clear Ht Hn t|exact Ht].
  2:{ intros u Hu. apply (lit_outside G); [|exact Hu].
      exists 35. split; [cbn; tauto|now apply settled_not_word]. }
  rewrite (re_sub_id emoji_pattern G t); [|clear Ht Hn t|exact Ht].
  2:{ intros u Hu. apply (class_outside G); [|exact Hu].
      intros c [(_ & _ & Hr)| ->]; [exact Hr|reflexivity]. }
  assert (Hl : lower db t = t).
  { apply lower_from_fixed. eapply List.Forall_impl; [|exact Ht].
    intros c [(_ & Hc & _)| ->]; [exact Hc|]. apply space_fixed. }
  rewrite Hl, (repeated_fixed t Hn).
  apply (re_sub_id _ G); [|exact Ht].
  intros u Hu. destruct Hu as [|c r Hc _]; [reflexivity|].
  unfold special. destruct Hc as [(-> & _)| ->]; [reflexivity|].
  destruct (is_word db 32); reflexivity.
Qed.

Lemma settled_join (ws : list pystr) :
  Forall settled_word ws ->
  Sentiment.preprocess_text db (PyStr (join ws)) = join ws.
Proof.
  intros H.
  assert (Hw : Forall word ws).
  { eapply List.Forall_impl; [|exact H]. now intros w (_ & Hw & _). }
  assert (HG : Forall G (join ws)).
  { apply join_Forall; [now right|].
    eapply List.Forall_impl; [|exact H]. now intros w (_ & _ & HG & _). }
  assert (Hn : norun not_newline (join ws) = true).
  { apply join_norun_words; [exact Hw|].
    eapply List.Forall_impl; [|exact H]. now intros w (_ & _ & _ & Hn). }
  unfold Sentiment.preprocess_text.
  destruct (join ws) as [|c r] eqn:E; [reflexivity|].
  cbn [isna is_empty_str orb str]. rewrite <- E in *.
  unfold Sentiment.clean. rewrite (blanked_settled (join ws) HG Hn).
  rewrite (whitespace_join ws Hw), (strip_join ws Hw).
  unfold Sentiment.remove_stopwords. rewrite (split_join ws Hw).
  rewrite filter_fixed; [reflexivity|].
  eapply List.Forall_impl; [|exact H]. now intros w (Hk & _).
Qed.

(** The normalized text of a settled input: its tokens, joined. *)
Lemma settled_output (text : pyval) :
  settled_text db text = true ->
  exists ws, Forall settled_word ws
             /\ Sentiment.preprocess_text db text = join ws.
Proof.
  intros Hs. unfold Sentiment.preprocess_text.
  destruct (isna text || is_empty_str text) eqn:E.
  - exists []. split; [constructor | reflexivity].
  - destruct text as [| |s]; try discriminate E.
    exists (List.filter Sentiment.keep_word (split (Sentiment.clean db s))).
    split; [|reflexivity]. apply clean_tokens_settled.
    cbn [settled_text] in Hs. rewrite forallb_forall in Hs.
    apply List.Forall_forall. exact Hs.
Qed.

Lemma ascii_text_settled (text : pyval) :
  ascii_text text = true -> settled_text db text = true.
Proof.
  destruct text as [| |s]; try reflexivity. cbn [ascii_text settled_text].
  rewrite !forallb_forall. intros H c Hc. now apply ascii_settles, H.
Qed.

End Settled.

(** C8, amended: the sentiment engine's normalization is idempotent on
    every input (a string, [None] or NaN) none of whose characters is
    lower-cased into a word character of the ranges that the emoji pattern
    strips while standing outside these ranges itself, as the Cherokee
    capitals are; for every character database that treats the ASCII
    characters the way Unicode does and on which the lower case of a
    character of the input is lower case already. Every ASCII text is such
    an input, and so are accented text and emoji. *)
Theorem preprocess_text_idempotent_settled (db : ucd) (text : pyval) :
  ascii_exact db = true ->
  (ascii_text text = true -> settled_text db text = true)
  /\ (settled_text db text = true ->
      Sentiment.preprocess_text db (PyStr (Sentiment.preprocess_text db text))
      = Sentiment.preprocess_text db text).
Proof.
  intros Hdb. split; [apply ascii_text_settled; exact Hdb|].
  intros Hs. destruct (settled_output db Hdb text Hs) as (ws & Hws & E).
  rewrite E. exact (settled_join db Hdb ws Hws).
Qed.

(** A reply with a mention, a hashtag, a link, accented capitals and
    emoji, of which two are in the emoji table. *)
Lemma preprocess_text_idempotent_settled_witness :
  let reply :=
    py "Halo @admin, #FreeWifi baguuuuus!!! http://x.co/a "
    ++ [0x1F525; 0x1F525; 32; 0x43; 0x61; 0x66; 0xC9; 32; 0x54; 0x52; 0xC8;
        0x53; 32; 0x1F60A; 0x1F44D; 0x2764; 0xFE0F; 0x1F389] in
  ascii_text (PyStr reply) = false
  /\ Sentiment.preprocess_text ucd_fragment (PyStr reply)
     = py "free wifi baguus bagus bagus caf" ++ [0xE9; 32]
       ++ py "tr" ++ [0xE8] ++ py "s senang bagus suka"
  /\ Sentiment.preprocess_text ucd_fragment
       (PyStr (Sentiment.preprocess_text ucd_fragment (PyStr reply)))
     = Sentiment.preprocess_text ucd_fragment (PyStr reply).
Proof.
  intros reply. split; [reflexivity|]. split; [vm_compute; reflexivity|].
  apply (preprocess_text_idempotent_settled ucd_fragment (PyStr reply));
    vm_compute; reflexivity.
Defined.

(** C8 as stated fails: three Cherokee capital letters A (U+13A0). The
    first pass lower-cases them to U+AB70, a word character inside the
    range that the emoji pattern strips; the second pass strips them. *)
Lemma preprocess_text_not_idempotent :
  let x := PyStr [0x13A0; 0x13A0; 0x13A0] in
  Sentiment.preprocess_text ucd_fragment x = [0xAB70; 0xAB70; 0xAB70]
  /\ Sentiment.preprocess_text ucd_fragment
       (PyStr (Sentiment.preprocess_text ucd_fragment x)) = []
  /\ Sentiment.preprocess_text ucd_fragment
       (PyStr (Sentiment.preprocess_text ucd_fragment x))
     <> Sentiment.preprocess_text ucd_fragment x.
Proof.
  intros x.
  assert (H1 : Sentiment.preprocess_text ucd_fragment x = [0xAB70; 0xAB70; 0xAB70])
    by (vm_compute; reflexivity).
  assert (H2 : Sentiment.preprocess_text ucd_fragment
                 (PyStr [0xAB70; 0xAB70; 0xAB70]) = [])
    by (vm_compute; reflexivity).
  rewrite H1, H2. repeat split. discriminate.
Qed.

(** ** The emotion normalization on ASCII input *)

Section EmotionAscii.

Import Plain.

Variable db : ucd.
Hypothesis Hdb : ascii_exact db = true.

Let A (c : Z) : Prop := is_ascii c = true.
Let O (c : Z) : Prop := out_char c = true.

Lemma emotion_emoji_values_ascii :
  Forall (fun kv => Forall A (snd kv)) Emotion.emoji_dict.
Proof.
  assert (H : forallb (fun kv => forallb is_ascii (snd kv)) Emotion.emoji_dict
              = true) by (vm_compute; reflexivity).
  rewrite forallb_forall in H. apply List.Forall_forall. intros kv Hkv.
  specialize (H kv Hkv). rewrite forallb_forall in H.
  apply List.Forall_forall. exact H.
Qed.

Lemma emotion_emoji_keys_blocked :
  Forall (fun kv => forallb out_char (fst kv) = false) Emotion.emoji_dict.
Proof.
  assert (H : forallb (fun kv => negb (forallb out_char (fst kv)))
                      Emotion.emoji_dict = true) by (vm_compute; reflexivity).
  rewrite forallb_forall in H. apply List.Forall_forall. intros kv Hkv.
  apply negb_true_iff. exact (H kv Hkv).
Qed.

Lemma emotion_url_http_Forall (P : Z -> Prop) (u : pystr) n repl :
  Forall P u -> Emotion.url_http u = Some (n, repl) -> Forall P repl.
Proof.
  intros Hu. unfold Emotion.url_http.
  destruct (lit_then_run (py "https://") _ _ u) as [[n' r']|] eqn:E.
  - intros [= _ <-]. eapply lit_then_run_Forall; [apply erase_Forall|exact Hu|exact E].
  - apply lit_then_run_Forall; [apply erase_Forall|exact Hu].
Qed.

(** Steps 1 to 6. *)
Lemma emotion_lowered_low (text : pystr) :
  Forall A text ->
  Forall (fun c => low_char c = true)
         (lower db
            (re_sub emoji_pattern
               (re_sub (hashtag db)
                  (re_sub (mention db)
                     (re_sub Emotion.url_www
                        (re_sub Emotion.url_http
                           (Sentiment.convert_emoji Emotion.emoji_dict
                                                    text))))))).
Proof.
  intros H. apply (lower_Forall_low db Hdb).
  apply re_sub_Forall.
  { intros u n repl Hu. apply lit_then_run_Forall; [|exact Hu].
    intros g. now apply blank_Forall. }
  apply re_sub_Forall.
  { intros u n repl Hu. apply lit_then_run_Forall; [|exact Hu].
    apply (process_hashtag_ascii db Hdb). }
  apply re_sub_Forall.
  { intros u n repl Hu. apply lit_then_run_Forall; [|exact Hu].
    apply erase_Forall. }
  apply re_sub_Forall.
  { intros u n repl Hu. apply lit_then_run_Forall; [|exact Hu].
    apply erase_Forall. }
  apply re_sub_Forall.
  { intros u n repl Hu. now apply (emotion_url_http_Forall A u n repl). }
  apply convert_emoji_Forall;
    [reflexivity | apply emotion_emoji_values_ascii | exact H].
Qed.

(** Steps 7 to 9 on a lower-cased ASCII text. *)
Lemma finish_clean (t : pystr) :
  Forall (fun c => low_char c = true) t ->
  Forall (fun c => clean_char c = true)
         (strip (re_sub whitespace (re_sub (special db) (re_sub repeated t)))).
Proof.
  intros Hlow.
  assert (H8 : Forall (fun c => low_char c = true) (re_sub repeated t)).
  { apply re_sub_Forall; [|exact Hlow]. intros u n repl Hu.
    now apply repeated_Forall. }
  set (t8 := re_sub repeated t) in *.
  rewrite special_map.
  set (f := fun c => if negb (is_word db c) && negb (is_space c)
                     then 32 else c).
  assert (H9 : Forall (fun c => clean_char c = true) (List.map f t8)).
  { apply Forall_map. eapply List.Forall_impl; [|exact H8].
    intros c Hc. unfold f.
    destruct (negb (is_word db c) && negb (is_space c)) eqn:E;
      [reflexivity|].
    apply low_word_clean; [exact Hc|].
    rewrite <- (is_word_ascii db Hdb c) by now apply low_char_ascii.
    destruct (is_word db c), (is_space c); try reflexivity.
    cbn in E. discriminate E. }
  apply strip_Forall, re_sub_Forall; [|exact H9].
  intros u n repl Hu. apply lit_then_run_Forall; [|exact Hu].
  intros g. now apply blank_Forall.
Qed.

Lemma emotion_tokens_plain (text : pystr) :
  Forall A text -> Forall plain_word (split (Emotion.clean db text)).
Proof.
  intros H. unfold Emotion.clean.
  pose proof (emotion_lowered_low text H) as Hlow.
  set (t := lower db _) in *.
  set (out := strip (re_sub whitespace (re_sub (special db) (re_sub repeated t)))).
  assert (Hc : Forall (fun c => clean_char c = true) out)
    by exact (finish_clean t Hlow).
  assert (Hn : norun not_space out = true) by exact (finish_norun db t).
  apply List.Forall_forall. intros w Hw.
  destruct (split_factor _ _ Hw) as (a & b & E).
  pose proof (split_words out) as Hwords.
  rewrite List.Forall_forall in Hwords. destruct (Hwords w Hw) as [Hne Hns].
  rewrite E in Hc, Hn.
  apply Forall_app in Hc as [_ Hc]. apply Forall_app in Hc as [Hc _].
  apply norun_factor in Hn.
  split; [exact Hne|]. split.
  - rewrite List.Forall_forall in Hc, Hns. apply List.Forall_forall.
    intros c Hin. apply clean_not_space; [exact (Hc c Hin) | exact (Hns c Hin)].
  - apply (norun_weaken not_space); [|exact Hn].
    eapply List.Forall_impl; [|exact Hns]. intros c Hs _.
    unfold not_space. rewrite Hs. reflexivity.
Qed.

Lemma plain_word_word (w : pystr) : plain_word w -> word w.
Proof.
  intros (Hne & Hc & _). split; [exact Hne|].
  eapply List.Forall_impl; [|exact Hc]. apply token_char_not_space.
Qed.

Lemma plain_join_out (ws : list pystr) :
  Forall plain_word ws -> Forall O (join ws).
Proof.
  intros H. apply join_Forall; [reflexivity|].
  eapply List.Forall_impl; [|exact H]. intros w (_ & Hc & _).
  eapply List.Forall_impl; [|exact Hc]. intros c Hc'.
  unfold O, out_char. now rewrite Hc'.
Qed.

Lemma plain_join_norun (ws : list pystr) :
  Forall plain_word ws -> norun not_newline (join ws) = true.
Proof.
  intros H. apply join_norun_words.
  - eapply List.Forall_impl; [|exact H]. apply plain_word_word.
  - eapply List.Forall_impl; [|exact H]. now intros w (_ & _ & Hn).
Qed.

(** Steps 1 to 8 leave a text of token characters and single spaces as it
    is. *)
Lemma emotion_blanked_fixed (t : pystr) :
  Forall O t -> norun not_newline t = true ->
  re_sub (special db)
    (re_sub repeated
       (lower db
          (re_sub emoji_pattern
             (re_sub (hashtag db)
                (re_sub (mention db)
                   (re_sub Emotion.url_www
                      (re_sub Emotion.url_http
                         (Sentiment.convert_emoji Emotion.emoji_dict t))))))))
  = t.
Proof.
  intros Ht Hn.
  rewrite (convert_emoji_fixed _ t emotion_emoji_keys_blocked Ht).
  rewrite (re_sub_id Emotion.url_http O t); [|clear Ht Hn t|exact Ht].
  2:{ intros u Hu. unfold Emotion.url_http.
      rewrite !lit_blocked by (reflexivity || exact Hu). reflexivity. }
  rewrite (re_sub_id Emotion.url_www O t); [|clear Ht Hn t|exact Ht].
  2:{ intros u Hu. apply lit_blocked; [reflexivity | exact Hu]. }
  rewrite (re_sub_id (mention db) O t); [|clear Ht Hn t|exact Ht].
  2:{ intros u Hu. apply lit_blocked; [reflexivity | exact Hu]. }
  rewrite (re_sub_id (hashtag db) O t); [|clear Ht Hn t|exact Ht].
  2:{ intros u Hu. apply lit_blocked; [reflexivity | exact Hu]. }
  rewrite (re_sub_id emoji_pattern O t); [|clear Ht Hn t|exact Ht].
  2:{ intros u Hu. apply class_blocked; [|exact Hu].
      intros c Hc. now destruct (out_char_facts c Hc) as (_ & -> & _). }
  rewrite (lower_fixed db Hdb t Ht), (repeated_fixed t Hn).
  exact (special_fixed db Hdb t Ht).
Qed.

Lemma emotion_clean_join (ws : list pystr) :
  Forall plain_word ws -> Emotion.clean db (join ws) = join ws.
Proof.
  intros H. unfold Emotion.clean.
  rewrite (emotion_blanked_fixed (join ws) (plain_join_out ws H)
                                 (plain_join_norun ws H)).
  assert (Hw : Forall word ws).
  { eapply List.Forall_impl; [|exact H]. apply plain_word_word. }
  rewrite (whitespace_join ws Hw). exact (strip_join ws Hw).
Qed.

End EmotionAscii.

(** X11: on every input whose characters are all ASCII (and on [None] and
    NaN) the emotion engine's normalization is idempotent, for every
    character database that treats the ASCII characters the way Unicode
    does. *)
Theorem emotion_preprocess_idempotent_ascii (db : ucd) (text : pyval) :
  ascii_exact db = true ->
  ascii_text text = true ->
  Emotion.preprocess_text db (PyStr (Emotion.preprocess_text db text))
  = Emotion.preprocess_text db text.
Proof.
  intros Hdb Ha.
  assert (Hout : exists ws, Forall Plain.plain_word ws
                            /\ Emotion.preprocess_text db text = join ws).
  { pose proof (emotion_single_spaced db text) as E.
    exists (split (Emotion.preprocess_text db text)). split; [|exact E].
    unfold Emotion.preprocess_text.
    destruct (isna text || is_empty_str text) eqn:E0; [constructor|].
    destruct text as [| |s]; try discriminate E0.
    apply emotion_tokens_plain; [exact Hdb|].
    cbn [ascii_text] in Ha. rewrite forallb_forall in Ha.
    apply List.Forall_forall. exact Ha. }
  destruct Hout as (ws & Hws & ->).
  unfold Emotion.preprocess_text at 1.
  destruct (join ws) as [|c r] eqn:E; [reflexivity|].
  cbn [isna is_empty_str orb str]. rewrite <- E.
  exact (emotion_clean_join db Hdb ws Hws).
Qed.

Lemma emotion_preprocess_idempotent_ascii_witness :
  Emotion.preprocess_text ucd_fragment
    (PyStr (Emotion.preprocess_text ucd_fragment
              (PyStr (py "Ya ampuuuun @admin, #SinyalHilang lagi!!! www.x.co"))))
  = Emotion.preprocess_text ucd_fragment
      (PyStr (py "Ya ampuuuun @admin, #SinyalHilang lagi!!! www.x.co")).
Proof.
  apply (emotion_preprocess_idempotent_ascii ucd_fragment); reflexivity.
Defined.

(** ** The words of several texts *)

Section Words.

Lemma push_char_app (c : Z) (e : bool) (ws ws' : list pystr) :
  e = true \/ ws <> [] ->
  push_char c e (ws ++ ws') = push_char c e ws ++ ws'.
Proof.
  unfold push_char. destruct e; [reflexivity|].
  intros [H|H]; [discriminate|]. destruct ws; [congruence|reflexivity].
Qed.

Lemma split_app_space (a b : pystr) :
  split (a ++ 32 :: b) = split a ++ split b.
Proof.
  induction a as [|c r IH]; [reflexivity|].
  cbn [app split]. destruct (is_space c) eqn:Ec; [exact IH|].
  rewrite IH.
  assert (Ee : word_ends (r ++ 32 :: b) = word_ends r) by now destruct r.
  rewrite Ee. apply push_char_app.
  destruct (word_ends r) eqn:Er; [now left|right].
  now apply split_nonempty.
Qed.

(** [' '.join(texts).split()]: the words of the texts, in order. *)
Lemma split_join_texts (texts : list pystr) :
  split (join texts) = concat (List.map split texts).
Proof.
  induction texts as [| t | t t2 ts IH] using join_ind.
  - reflexivity.
  - cbn. now rewrite app_nil_r.
  - rewrite join_cons, split_app_space, IH. reflexivity.
Qed.

End Words.

(** ** The most common entries *)

Section MostCommon.

Import Collections Recommendation.

Context {K : Type} `{EqDecision K}.

Lemma sorted_firstn_skipn {A : Type} (key : A -> Z) (l : list A) (n : nat) :
  StronglySorted (fun a b => key a <= key b) l ->
  forall a b, In a (firstn n l) -> In b (skipn n l) -> key a <= key b.
Proof.
  intros Hs. revert n. induction Hs as [|x l Hl IH Hx]; intros n a b Ha Hb.
  - destruct n; contradiction.
  - destruct n as [|n]; [contradiction|]. cbn [firstn skipn] in Ha, Hb.
    destruct Ha as [<-|Ha].
    + rewrite List.Forall_forall in Hx. apply Hx.
      rewrite <- (firstn_skipn n l). apply in_or_app. now right.
    + now apply (IH n).
Qed.

Lemma sorted_firstn {A : Type} (R : A -> A -> Prop) (l : list A) (n : nat) :
  StronglySorted R l -> StronglySorted R (firstn n l).
Proof.
  intros Hs. revert n. induction Hs as [|x l Hl IH Hx]; intros [|n];
    cbn [firstn]; try constructor.
  - apply IH.
  - rewrite <- (firstn_skipn n l) in Hx. now apply Forall_app in Hx.
Qed.

Lemma firstn_In {A : Type} (l : list A) (n : nat) (x : A) :
  In x (firstn n l) -> In x l.
Proof.
  intros H. rewrite <- (firstn_skipn n l). apply in_or_app. now left.
Qed.

Lemma NoDup_firstn {A : Type} (l : list A) (n : nat) :
  List.NoDup l -> List.NoDup (firstn n l).
Proof.
  intros H. rewrite <- (firstn_skipn n l) in H.
  now apply NoDup_app_remove_r in H.
Qed.

(** What [Counter(keys).most_common(n)] holds. *)
Lemma most_common_spec (keys : list K) (n : Z) :
  let out := most_common n (Counter keys) in
  (length out <= Z.to_nat n)%nat
  /\ length out = Nat.min (Z.to_nat n) (length (Counter keys))
  /\ List.NoDup (List.map fst out)
  /\ StronglySorted (fun a b => snd b <= snd a) out
  /\ (forall k v, In (k, v) out ->
        In k keys /\ v = occurrences keys k /\ 1 <= v)
  /\ (forall k, In k keys -> ~ In k (List.map fst out) ->
        forall k' v', In (k', v') out -> occurrences keys k <= v').
Proof.
  intros out. subst out. unfold most_common.
  set (key := fun kv : K * Z => - snd kv).
  set (s := sort_by key (Counter keys)).
  assert (Hp : Permutation (Counter keys) s) by apply sort_by_perm.
  assert (Hs : StronglySorted (fun a b => key a <= key b) s)
    by apply sort_by_sorted.
  destruct (Counter_spec keys) as (Hnd & Hkeys & _ & _ & _).
  assert (Hin : forall k v, In (k, v) s -> In (k, v) (Counter keys)).
  { intros k v Hkv. eapply Permutation_in; [symmetry; exact Hp|exact Hkv]. }
  split; [rewrite length_firstn; lia|].
  split; [rewrite length_firstn; now rewrite (Permutation_length Hp)|].
  split.
  { rewrite <- firstn_map. apply NoDup_firstn.
    eapply Permutation_NoDup; [apply Permutation_map, Hp|exact Hnd]. }
  split.
  { apply sorted_firstn.
    eapply StronglySorted_ind with (P := fun l => StronglySorted _ l);
      [constructor| |exact Hs].
    intros a l _ IH Ha. constructor; [exact IH|].
    eapply List.Forall_impl; [|exact Ha]. unfold key. cbn. intros; lia. }
  split.
  { intros k v Hkv. apply firstn_In, Hin, Counter_entry in Hkv
      as (Hv & Hpos & Hk). split; [exact Hk|]. split; [exact Hv|lia]. }
  intros k Hk Hout k' v' Hkv'.
  apply Hkeys in Hk. apply in_map_iff in Hk as ([k0 v] & E & Hkv).
  cbn in E. subst k0.
  pose proof (Counter_entry keys k v Hkv) as (Hv & _ & _).
  eapply Permutation_in in Hkv; [|exact Hp].
  rewrite <- (firstn_skipn (Z.to_nat n) s) in Hkv.
  apply in_app_or in Hkv as [Hkv|Hkv].
  { exfalso. apply Hout. apply in_map_iff. now exists (k, v). }
  pose proof (sorted_firstn_skipn key s (Z.to_nat n) Hs _ _ Hkv' Hkv) as Hle.
  unfold key in Hle. cbn [snd] in Hle. lia.
Qed.

End MostCommon.

(** X12: [get_word_frequency] of both engines lists at most [n] distinct
    words with non-increasing counts; every listed word is a whitespace-free
    word of the texts longer than 3 characters (sentiment) or 2 characters
    (emotion), listed with the number of its occurrences among such words;
    and a word of that length that is not listed occurs no more often than
    any listed word, the list being full then. *)
Theorem word_frequency_lists_the_top_words (texts : list pystr) (n : Z) :
  let long := fun (m : nat) (w : pystr) => (m <? length w)%nat in
  let words := fun m => List.filter (long m) (concat (List.map split texts)) in
  let top := fun m (out : list (pystr * Z)) =>
    (length out <= Z.to_nat n)%nat
    /\ List.NoDup (List.map fst out)
    /\ StronglySorted (fun a b => snd b <= snd a) out
    /\ (forall w v, In (w, v) out ->
          (m < length w)%nat /\ word w
          /\ v = Collections.occurrences (words m) w /\ 1 <= v)
    /\ (forall w, In w (words m) -> ~ In w (List.map fst out) ->
          length out = Z.to_nat n
          /\ forall w' v', In (w', v') out ->
                           Collections.occurrences (words m) w <= v') in
  top 3%nat (SentimentFrame.get_word_frequency texts n)
  /\ top 2%nat (EmotionFrame.get_word_frequency texts n).
Proof.
  intros long words top.
  assert (Hgen : forall m,
             top m (Collections.most_common n
                      (Collections.Counter
                         (List.filter (long m) (split (join texts)))))).
  { intros m. rewrite split_join_texts. fold (words m).
    destruct (most_common_spec (words m) n)
      as (Hlen & Hmin & Hnd & Hs & Hin & Htop).
    split; [exact Hlen|]. split; [exact Hnd|]. split; [exact Hs|]. split.
    - intros w v Hwv. destruct (Hin w v Hwv) as (Hw & Hv & Hpos).
      unfold words in Hw. apply filter_In in Hw as [Hw Hl].
      split; [now apply Nat.ltb_lt in Hl|]. split; [|now split].
      apply in_concat in Hw as (ws & Hws & Hw).
      apply in_map_iff in Hws as (t & <- & _).
      pose proof (split_words t) as Hall. rewrite List.Forall_forall in Hall.
      now apply Hall.
    - intros w Hw Hout. split; [|now apply Htop].
      destruct (Counter_spec (words m)) as (_ & Hkeys & _).
      assert (Hlt : (length (List.map fst (Collections.most_common n
                       (Collections.Counter (words m))))
                     < length (List.map fst (Collections.Counter (words m))))%nat).
      { apply Nat.nle_gt. intros Hle. apply Hout.
        unfold Collections.most_common in *.
        rewrite <- firstn_map in *.
        set (s := Recommendation.sort_by _ _) in *.
        assert (Hp : Permutation (Collections.Counter (words m)) s)
          by apply sort_by_perm.
        rewrite (Permutation_length (Permutation_map fst Hp)) in Hle.
        rewrite firstn_all2; [|rewrite length_firstn in Hle; lia].
        eapply Permutation_in; [apply Permutation_map, Hp|].
        now apply Hkeys. }
      rewrite !List.length_map in Hlt. lia. }
  split; apply Hgen.
Qed.

(** ** The analysed frame of the emotion engine *)

Section EmotionFrames.

Import Reports.

Lemma first_with_In (m : Z) (scores : list (string * Z)) (e : string) :
  Emotion.first_with m scores = Some e -> In e (List.map fst scores).
Proof.
  induction scores as [|[e' s] rest IH]; [discriminate|].
  cbn [Emotion.first_with List.map fst]. destruct (s =? m).
  - intros [= <-]. now left.
  - intros H. right. now apply IH.
Qed.

Lemma predict_emotion_label (db : ucd) (text : pystr) :
  In (Emotion.predict_emotion db text) EmotionFrame.emotions.
Proof.
  assert (Hn : In "neutral"%string EmotionFrame.emotions)
    by (cbn; tauto).
  unfold Emotion.predict_emotion.
  destruct (_ || _); [exact Hn|].
  destruct (_ =? 0); [exact Hn|].
  destruct (Emotion.first_with _ _) as [e|] eqn:E; [|exact Hn].
  apply first_with_In in E. rewrite scores_keys in E.
  cbn in E. cbn. tauto.
Qed.

Lemma value_counts_keys (labels : list string) (l : string) (c : Z) :
  value_counts labels !! l = Some c -> In l labels.
Proof.
  unfold value_counts.
  assert (Hgen : forall acc : gmap string Z,
             fold_left (fun counts l0 => <[l0 := default 0 (counts !! l0) + 1]> counts)
                       labels acc !! l = Some c ->
             In l labels \/ acc !! l <> None).
  { induction labels as [|l0 labels IH]; intros acc H.
    - right. cbn in H. congruence.
    - cbn [fold_left] in H. destruct (IH _ H) as [Hin|Hacc].
      + left. now right.
      + destruct (decide (l0 = l)) as [->|Hne]; [left; now left|].
        right. now rewrite lookup_insert_ne in Hacc. }
  intros H. destruct (Hgen ∅ H) as [Hin|Hne]; [exact Hin|].
  now rewrite lookup_empty in Hne.
Qed.

Lemma count_occ_bounds (labels : list string) (l : string) :
  In l labels ->
  (1 <= count_occ string_dec labels l <= length labels)%nat.
Proof.
  intros Hin. split.
  - now apply (count_occ_In string_dec).
  - apply count_occ_bound.
Qed.

(** X13: the emotion engine's [analyze_dataframe] keeps exactly the rows
    whose normalized text is not empty, in order, and labels each with
    [predict_emotion] of that text, one of the seven emotion labels; in the
    report generated from that frame [total_analyzed] is the number of kept
    rows, and every label of the distribution is one of the seven, with a
    count between 1 and [total_analyzed]. *)
Theorem emotion_frame_and_report (db : ucd) (texts : list pyval) :
  let cleaned :=
    List.filter (fun t => (0 <? length t)%nat)
                (List.map (Emotion.preprocess_text db) texts) in
  let df := EmotionFrame.analyze_dataframe db texts in
  let r := generate_emotion_report df in
  List.map cleaned_text df = cleaned
  /\ Forall (fun row => cleaned_text row <> []
                        /\ label row = Emotion.predict_emotion db (cleaned_text row)
                        /\ In (label row) EmotionFrame.emotions) df
  /\ total_analyzed r = Z.of_nat (length cleaned)
  /\ (forall l e, distribution r !! l = Some e ->
        In l EmotionFrame.emotions /\ 1 <= count e <= total_analyzed r).
Proof.
  intros cleaned df r.
  assert (Hdf : df = List.map (fun t => {| cleaned_text := t;
                                         label := Emotion.predict_emotion db t |})
                              cleaned) by reflexivity.
  assert (Hrows : Forall (fun row => cleaned_text row <> []
                        /\ label row = Emotion.predict_emotion db (cleaned_text row)
                        /\ In (label row) EmotionFrame.emotions) df).
  { rewrite Hdf. apply Forall_map. apply List.Forall_forall. intros t Ht.
    cbn [cleaned_text label]. unfold cleaned in Ht.
    apply filter_In in Ht as [_ Ht]. split; [|split].
    - intros ->. discriminate Ht.
    - reflexivity.
    - apply predict_emotion_label. }
  assert (Hlen : length df = length cleaned).
  { rewrite Hdf. apply List.length_map. }
  split; [rewrite Hdf, List.map_map; apply List.map_id|].
  split; [exact Hrows|].
  split; [cbn [r generate_emotion_report total_analyzed]; now rewrite Hlen|].
  intros l e He. cbn [r generate_emotion_report distribution total_analyzed] in *.
  apply distribution_entry in He as [Hc _].
  pose proof (value_counts_keys _ _ _ Hc) as Hin.
  apply value_counts_lookup in Hc.
  pose proof (count_occ_bounds _ _ Hin) as Hb.
  rewrite List.length_map in Hb. split; [|lia].
  apply in_map_iff in Hin as (row & <- & Hrow).
  rewrite List.Forall_forall in Hrows. now apply Hrows.
Qed.

End EmotionFrames.

(** ** The word clouds *)

Section WordClouds.

Import Reports Collections.

(** The entries of a word cloud come from the words of the texts. *)
Lemma frequent_word_source (m : nat) (texts : list pystr) (n : Z)
      (w : pystr) (v : Z) :
  In (w, v) (most_common n
               (Counter (List.filter (fun word => (m <? length word)%nat)
                                     (split (join texts))))) ->
  (m < length w)%nat /\ exists t, In t texts /\ In w (split t).
Proof.
  intros H.
  destruct (most_common_spec
              (List.filter (fun word => (m <? length word)%nat)
                           (split (join texts))) n)
    as (_ & _ & _ & _ & Hin & _).
  destruct (Hin w v H) as (Hw & _). apply filter_In in Hw as [Hw Hl].
  split; [now apply Nat.ltb_lt in Hl|].
  rewrite split_join_texts in Hw. apply in_concat in Hw as (ws & Hws & Hw).
  apply in_map_iff in Hws as (t & <- & Ht). now exists t.
Qed.

Lemma frequent_length (m : nat) (texts : list pystr) (n : Z) :
  (length (most_common n
             (Counter (List.filter (fun word => (m <? length word)%nat)
                                   (split (join texts)))))
   <= Z.to_nat n)%nat.
Proof.
  unfold most_common. rewrite length_firstn. lia.
Qed.

(** The words that the sentiment normalization keeps. *)
Lemma sentiment_token_kept (db : ucd) (raw : pyval) (w : pystr) :
  In w (split (Sentiment.preprocess_text db raw)) ->
  ~ In w Sentiment.stopwords /\ (2 < length w)%nat
  /\ Forall (fun c => is_word db c = true) w.
Proof.
  intros Hw.
  assert (Hk : Sentiment.keep_word w = true).
  { unfold Sentiment.preprocess_text in Hw.
    destruct (isna raw || is_empty_str raw); [contradiction|].
    rewrite remove_stopwords_tokens in Hw.
    apply filter_In in Hw as [_ Hw]. exact Hw. }
  destruct (keep_word_spec w Hk) as [H1 H2].
  split; [exact H1|]. split; [exact H2|].
  exact (token_alphabet db _ w (sentiment_alphabet db raw) Hw).
Qed.

(** X14: every word cloud has at most 50 entries. A word in the sentiment
    report's cloud of a label is longer than 3 characters, is no stopword,
    consists of word characters and is a token of a reply carrying that
    label, provided the cleaned texts come from the sentiment
    normalization. A word in the emotion report's cloud of a label is
    longer than 2 characters, consists of word characters and is a token of
    the normalized text of a reply that [predict_emotion] gives that
    label. *)
Theorem word_clouds_show_kept_tokens (db : ucd) :
  (forall df : list row,
      (forall r, In r df ->
                 exists raw, cleaned_text r = Sentiment.preprocess_text db raw) ->
      forall s cloud w v,
        In (s, cloud) (SentimentFrame.wordcloud_data df) -> In (w, v) cloud ->
        (length cloud <= 50)%nat
        /\ (3 < length w)%nat
        /\ ~ In w Sentiment.stopwords
        /\ Forall (fun c => is_word db c = true) w
        /\ exists r, In r df /\ label r = s /\ In w (split (cleaned_text r)))
  /\ (forall (texts : list pyval) e cloud w v,
        In (e, cloud)
           (EmotionFrame.wordcloud_data (EmotionFrame.analyze_dataframe db texts)) ->
        In (w, v) cloud ->
        (length cloud <= 50)%nat
        /\ (2 < length w)%nat
        /\ Forall (fun c => is_word db c = true) w
        /\ exists raw, In raw texts
                       /\ Emotion.predict_emotion db (Emotion.preprocess_text db raw) = e
                       /\ In w (split (Emotion.preprocess_text db raw))).
Proof.
  split.
  - intros df Hdf s cloud w v Hs Hw.
    unfold SentimentFrame.wordcloud_data in Hs.
    apply in_map_iff in Hs as (s' & [= <- <-] & _).
    destruct (0 <? length (SentimentFrame.texts_of df s'))%nat; [|contradiction].
    split; [apply (frequent_length 3)|].
    apply (frequent_word_source 3) in Hw as (Hlen & t & Ht & Hw).
    unfold SentimentFrame.texts_of in Ht.
    apply in_map_iff in Ht as (r & <- & Hr). apply filter_In in Hr as [Hr Hl].
    apply bool_decide_eq_true in Hl.
    destruct (Hdf r Hr) as [raw Eraw]. rewrite Eraw in Hw.
    destruct (sentiment_token_kept db raw w Hw) as (H1 & _ & H3).
    split; [exact Hlen|]. split; [exact H1|]. split; [exact H3|].
    exists r. rewrite Eraw. split; [exact Hr|]. split; [exact Hl|exact Hw].
  - intros texts e cloud w v He Hw.
    unfold EmotionFrame.wordcloud_data in He.
    apply in_map_iff in He as (e' & [= <- <-] & _).
    destruct (0 <? length (EmotionFrame.texts_of _ e'))%nat; [|contradiction].
    split; [apply (frequent_length 2)|].
    apply (frequent_word_source 2) in Hw as (Hlen & t & Ht & Hw).
    unfold EmotionFrame.texts_of in Ht.
    apply in_map_iff in Ht as (r & <- & Hr). apply filter_In in Hr as [Hr Hl].
    apply bool_decide_eq_true in Hl.
    unfold EmotionFrame.analyze_dataframe in Hr.
    apply in_map_iff in Hr as (t & <- & Ht). cbn [cleaned_text label] in *.
    apply filter_In in Ht as [Ht _].
    apply in_map_iff in Ht as (raw & <- & Hraw).
    split; [exact Hlen|]. split.
    + exact (token_alphabet db _ w (emotion_alphabet db raw) Hw).
    + exists raw. split; [exact Hraw|]. split; [exact Hl|exact Hw].
Qed.

Lemma word_clouds_show_kept_tokens_witness :
  let raw := PyStr (py "Layanan bagus sekali, mantap!") in
  let df := [{| cleaned_text := Sentiment.preprocess_text ucd_fragment raw;
                label := "positive" |}] in
  let w := py "layanan" in
  (3 < length w)%nat
  /\ ~ In w Sentiment.stopwords
  /\ Forall (fun c => is_word ucd_fragment c = true) w.
Proof.
  intros raw df w.
  destruct (word_clouds_show_kept_tokens ucd_fragment) as [H _].
  destruct (H df) with (s := "positive"%string)
                       (cloud := SentimentFrame.get_word_frequency
                                   (SentimentFrame.texts_of df "positive") 50)
                       (w := w) (v := 1)
    as (_ & H1 & H2 & H3 & _).
  - intros r [<-|[]]. exists raw. reflexivity.
  - left. reflexivity.
  - vm_compute. left. reflexivity.
  - split; [exact H1|]. split; [exact H2|exact H3].
Defined.

End WordClouds.

(** ** The engagement per label *)

Section EngagementSums.

Import Collections Engagement.

Let sum {A : Type} (f : A -> Z) (rows : list A) : Z :=
  fold_right Z.add 0 (List.map f rows).

Let total_of (sums : gmap string Z) : Z :=
  map_fold (fun _ v acc => v + acc) 0 sums.

Let add (f : reply -> Z) (sums : gmap string Z) (r : reply) : gmap string Z :=
  <[reply_label r := default 0 (sums !! reply_label r) + f r]> sums.

Lemma total_of_add (f : reply -> Z) (sums : gmap string Z) (r : reply) :
  total_of (add f sums r) = total_of sums + f r.
Proof.
  unfold total_of, add. set (l := reply_label r).
  destruct (sums !! l) as [c|] eqn:E; cbn [default].
  - rewrite (map_fold_delete_L _ _ l c sums); [|intros; lia|exact E].
    rewrite <- (insert_delete_eq sums l (c + f r)).
    rewrite map_fold_insert_L; [lia|intros; lia|apply lookup_delete_eq].
  - rewrite map_fold_insert_L; [lia|intros; lia|exact E].
Qed.

Lemma total_of_fold_add (f : reply -> Z) (df : list reply) (acc : gmap string Z) :
  total_of (fold_left (add f) df acc) = total_of acc + sum f df.
Proof.
  revert acc. induction df as [|r df IH]; intros acc; cbn [fold_left].
  - unfold sum. cbn. lia.
  - rewrite IH, total_of_add. unfold sum. cbn. lia.
Qed.

Lemma lookup_fold_add (f : reply -> Z) (df : list reply) (acc : gmap string Z)
      (l : string) :
  default 0 (fold_left (add f) df acc !! l)
  = default 0 (acc !! l)
    + sum f (List.filter (fun r => bool_decide (reply_label r = l)) df).
Proof.
  revert acc. induction df as [|r df IH]; intros acc; cbn [fold_left List.filter].
  - unfold sum. cbn. lia.
  - rewrite IH. unfold add.
    destruct (bool_decide_reflect (reply_label r = l)) as [E|E].
    + rewrite E, lookup_insert_eq. unfold sum. cbn. lia.
    + rewrite lookup_insert_ne by exact E. lia.
Qed.

Lemma keys_fold_add (f : reply -> Z) (df : list reply) (acc : gmap string Z)
      (l : string) :
  fold_left (add f) df acc !! l <> None
  <-> acc !! l <> None \/ In l (List.map reply_label df).
Proof.
  revert acc. induction df as [|r df IH]; intros acc; cbn [fold_left List.map In].
  - tauto.
  - rewrite IH. unfold add.
    destruct (decide (reply_label r = l)) as [E|E].
    + rewrite E, lookup_insert_eq. split; [intros _; right; now left|].
      intros _. left. discriminate.
    + rewrite lookup_insert_ne by exact E. tauto.
Qed.

(** The squares of the counts. *)
Let squares (counts : list (Z * Z)) : Z := sum (fun cn => snd cn * snd cn) counts.

Lemma count_of_cons (k : Z) (n : Z) (rest : list (Z * Z)) (x : Z) :
  count_of ((k, n) :: rest) x
  = (if bool_decide (k = x) then n else 0) + count_of rest x.
Proof. unfold count_of. cbn. destruct (bool_decide (k = x)); lia. Qed.

Lemma squares_count_key (x : Z) (counts : list (Z * Z)) :
  List.NoDup (List.map fst counts) ->
  squares (count_key x counts) = squares counts + 2 * count_of counts x + 1.
Proof.
  unfold squares, sum. induction counts as [|[k n] rest IH]; intros Hnd.
  - cbn. lia.
  - cbn [List.map fst] in Hnd. apply List.NoDup_cons_iff in Hnd as [Hk Hnd].
    cbn [count_key]. rewrite count_of_cons.
    destruct (bool_decide_reflect (x = k)) as [->|Hne].
    + rewrite bool_decide_eq_true_2 by reflexivity.
      rewrite (count_of_absent rest k Hk). cbn. lia.
    + rewrite bool_decide_eq_false_2 by congruence.
      cbn [List.map fold_right snd]. rewrite (IH Hnd). lia.
Qed.

Lemma occurrences_sum (ids : list Z) (x : Z) :
  sum (fun c => if bool_decide (x = c) then 1 else 0) ids = occurrences ids x.
Proof.
  unfold sum, occurrences. induction ids as [|c ids IH]; [reflexivity|].
  cbn [List.map fold_right List.filter]. rewrite IH.
  destruct (bool_decide_reflect (x = c)) as [->|Hne].
  - rewrite bool_decide_eq_true_2 by reflexivity. cbn [length]. lia.
  - rewrite bool_decide_eq_false_2 by congruence. lia.
Qed.

Lemma sum_ext {A : Type} (f g : A -> Z) (l : list A) :
  (forall a, In a l -> f a = g a) -> sum f l = sum g l.
Proof.
  unfold sum. induction l as [|a l IH]; intros H; [reflexivity|].
  cbn. rewrite (H a) by now left. rewrite IH; [reflexivity|].
  intros b Hb. apply H. now right.
Qed.

Lemma sum_plus {A : Type} (f g : A -> Z) (l : list A) :
  sum (fun a => f a + g a) l = sum f l + sum g l.
Proof. unfold sum. induction l as [|a l IH]; cbn; lia. Qed.

Lemma sum_app {A : Type} (f : A -> Z) (l l' : list A) :
  sum f (l ++ l') = sum f l + sum f l'.
Proof. unfold sum. induction l as [|a l IH]; cbn; lia. Qed.

Lemma sum_zero {A : Type} (l : list A) : sum (fun _ : A => 0) l = 0.
Proof. unfold sum. induction l as [|a l IH]; [reflexivity|]. cbn. exact IH. Qed.

(** Every row of a conversation counts the whole conversation. *)
Lemma conversation_squares (ids : list Z) :
  sum (occurrences ids) ids = squares (Counter ids).
Proof.
  induction ids as [|x ids IH] using rev_ind; [reflexivity|].
  rewrite Counter_snoc.
  destruct (Counter_spec ids) as (Hnd & _ & Hst & _).
  rewrite squares_count_key by exact Hnd. rewrite <- IH, Hst.
  rewrite sum_app.
  assert (E1 : sum (occurrences (ids ++ [x])) ids
               = sum (occurrences ids) ids + occurrences ids x).
  { rewrite (sum_ext (occurrences (ids ++ [x]))
                     (fun c => occurrences ids c
                               + (if bool_decide (x = c) then 1 else 0)) ids)
      by (intros c _; apply occurrences_snoc).
    now rewrite sum_plus, occurrences_sum. }
  assert (E2 : sum (occurrences (ids ++ [x])) [x] = occurrences ids x + 1).
  { unfold sum. cbn [List.map fold_right].
    rewrite occurrences_snoc, bool_decide_eq_true_2 by reflexivity. lia. }
  rewrite E1, E2. lia.
Qed.

Lemma sum_omap (f : Z -> Z) (df : list reply) :
  sum (fun r => match conversation_id_str r with
                | Some c => f c
                | None => 0
                end) df
  = sum f (omap conversation_id_str df).
Proof.
  unfold sum. induction df as [|r df IH]; [reflexivity|].
  cbn. cbn in IH. destruct (conversation_id_str r); cbn; rewrite IH; reflexivity.
Qed.

Lemma conversation_reply_count_sum (df : list reply) :
  sum (conversation_reply_count (reply_counts df)) df
  = squares (reply_counts df).
Proof.
  unfold conversation_reply_count, reply_counts.
  rewrite (sum_omap (count_of (Counter (omap conversation_id_str df)))).
  rewrite <- conversation_squares. apply sum_ext. intros c _.
  now destruct (Counter_spec (omap conversation_id_str df)) as (_ & _ & -> & _).
Qed.

(** X15: the dictionary of engagement per label has exactly the labels
    that occur; the value of a label is the sum of the engagement of its
    rows; and the values add up to the likes plus the retweets (missing
    values counting 0) plus, for every conversation, the square of the
    number of its rows: each reply adds the size of its whole conversation. *)
Theorem engagement_by_label_totals (cols : columns) (df : list reply) :
  let sum := fun (f : reply -> Z) (rows : list reply) =>
               fold_right Z.add 0 (List.map f rows) in
  let by_label := by_engagement cols df in
  (forall l, by_label !! l <> None <-> In l (List.map reply_label df))
  /\ (forall l v, by_label !! l = Some v ->
        v = sum (engagement cols (reply_counts df))
                (List.filter (fun r => bool_decide (reply_label r = l)) df))
  /\ map_fold (fun _ v acc => v + acc) 0 by_label
     = (if has_favorite_count cols
        then sum (fun r => default 0 (favorite_count r)) df else 0)
       + (if has_retweet_count cols
          then sum (fun r => default 0 (retweet_count r)) df else 0)
       + (if has_conversation_id_str cols
          then fold_right Z.add 0
                 (List.map (fun cn => snd cn * snd cn) (reply_counts df))
          else 0).
Proof.
  intros sum' by_label. change sum' with (@sum reply). clear sum'.
  subst by_label. unfold by_engagement.
  set (counts := reply_counts df).
  change (fold_left _ df ∅) with (fold_left (add (engagement cols counts)) df ∅).
  split; [|split].
  - intros l. rewrite keys_fold_add, lookup_empty. tauto.
  - intros l v Hv.
    pose proof (lookup_fold_add (engagement cols counts) df ∅ l) as E.
    rewrite Hv, lookup_empty in E.
    change (default 0 (Some v)) with v in E.
    change (default 0 (@None Z)) with 0 in E. lia.
  - fold (total_of (fold_left (add (engagement cols counts)) df ∅)).
    rewrite total_of_fold_add. unfold total_of at 1. rewrite map_fold_empty.
    unfold engagement.
    rewrite !sum_plus.
    pose proof (sum_zero df) as H0. rewrite H0.
    assert (Hif : forall (b : bool) (f : reply -> Z),
               sum (fun r => if b then f r else 0) df
               = if b then sum f df else 0).
    { intros [] f; [reflexivity|exact H0]. }
    rewrite !Hif. subst counts. rewrite conversation_reply_count_sum.
    reflexivity.
Qed.

End EngagementSums.

(** ** Matches of a pattern *)

Section FindAll.

Import Posts.

Variable m : pystr -> option (nat * pystr).

Lemma findall_from_skip (k : nat) (t : pystr) :
  findall_from m k t = findall_from m O (skipn k t).
Proof.
  revert k. induction t as [|c r IH]; intros k.
  - now destruct k.
  - destruct k as [|k]; [reflexivity|]. cbn [findall_from skipn]. apply IH.
Qed.

Lemma findall_cons (c : Z) (r : pystr) :
  findall m (c :: r)
  = match m (c :: r) with
    | Some (S n, _) => firstn (S n) (c :: r) :: findall m (skipn n r)
    | _ => findall m r
    end.
Proof.
  unfold findall. cbn [findall_from].
  destruct (m (c :: r)) as [[[|n] repl]|]; try reflexivity.
  now rewrite findall_from_skip.
Qed.

(** Every match is a part of the text that the pattern accepts. *)
Lemma findall_In (t g : pystr) :
  In g (findall m t) ->
  exists a b n repl, t = a ++ g ++ b /\ m (g ++ b) = Some (n, repl)
                     /\ g = firstn n (g ++ b) /\ (0 < n)%nat.
Proof.
  induction t as [t IH] using pystr_length_ind. intros Hin.
  destruct t as [|c r]; [contradiction|]. rewrite findall_cons in Hin.
  destruct (m (c :: r)) as [[[|n] repl]|] eqn:E.
  - destruct (IH r) as (a & b & n' & repl' & -> & H); [cbn; lia|exact Hin|].
    now exists (c :: a), b, n', repl'.
  - destruct Hin as [<-|Hin].
    + exists [], (skipn (S n) (c :: r)), (S n), repl.
      rewrite firstn_skipn. cbn [app]. repeat split; [exact E|lia].
    + destruct (IH (skipn n r)) as (a & b & n' & repl' & E' & H);
        [rewrite length_skipn; cbn; lia|exact Hin|].
      exists (c :: firstn n r ++ a), b, n', repl'. split; [|exact H].
      cbn [app]. f_equal. rewrite <- app_assoc, <- E'.
      symmetry. apply firstn_skipn.
  - destruct (IH r) as (a & b & n' & repl' & -> & H); [cbn; lia|exact Hin|].
    now exists (c :: a), b, n', repl'.
Qed.

(** No match at all: the pattern fails at every position. *)
Lemma findall_nil (t : pystr) :
  (forall u n repl, m u = Some (n, repl) -> (0 < n)%nat) ->
  findall m t = [] <-> forall a u, t = a ++ u -> m u = None \/ u = [].
Proof.
  intros Hpos. induction t as [|c r IH].
  - split; [|reflexivity]. intros _ a u E. right.
    symmetry in E. now apply app_eq_nil in E.
  - rewrite findall_cons. destruct (m (c :: r)) as [[[|n] repl]|] eqn:E.
    + apply Hpos in E. lia.
    + split; [discriminate|]. intros H.
      destruct (H [] (c :: r) eq_refl) as [H'|H']; congruence.
    + rewrite IH. split.
      * intros H a u Eu. destruct a as [|x a].
        -- cbn in Eu. subst u. now left.
        -- injection Eu as _ Eu. now apply (H a).
      * intros H a u Eu. apply (H (c :: a)). cbn. now rewrite Eu.
Qed.

End FindAll.

(** ** Hashtags *)

Section Hashtags.

Import Posts Collections.

Variable db : ucd.

Lemma run_len_firstn (p : Z -> bool) (t : pystr) :
  Forall (fun c => p c = true) (firstn (run_len p t) t).
Proof.
  induction t as [|c r IH]; [constructor|]. cbn [run_len].
  destruct (p c) eqn:E; [|constructor]. cbn [firstn]. now constructor.
Qed.

Lemma run_len_le (p : Z -> bool) (t : pystr) : (run_len p t <= length t)%nat.
Proof.
  induction t as [|c r IH]; [reflexivity|]. cbn [run_len length].
  destruct (p c); lia.
Qed.

(** What the pattern [#\w+] matches at the start of a text. *)
Lemma hashtag_match (u : pystr) (n : nat) (repl : pystr) :
  hashtag db u = Some (n, repl) ->
  exists w, firstn n u = 35 :: w /\ w <> []
            /\ Forall (fun c => is_word db c = true) w.
Proof.
  unfold hashtag, lit_then_run.
  destruct u as [|c r]; [discriminate|].
  change (starts_with (py "#") (c :: r)) with ((35 =? c) && true).
  destruct (Z.eqb_spec 35 c) as [<-|]; [|discriminate]. cbn [andb].
  change (skipn (length (py "#")) (35 :: r)) with r.
  destruct (run_len (is_word db) r) as [|k] eqn:E; [discriminate|].
  intros [= <- _]. change (length (py "#") + S k)%nat with (S (S k)).
  exists (firstn (S k) r). split; [reflexivity|]. split.
  - pose proof (run_len_le (is_word db) r) as Hle. rewrite E in Hle.
    destruct r; [cbn in Hle; lia|discriminate].
  - rewrite <- E. apply run_len_firstn.
Qed.

Lemma hashtag_none (u : pystr) :
  hashtag db u = None \/ u = []
  <-> forall c b, u = 35 :: c :: b -> is_word db c = false.
Proof.
  unfold hashtag, lit_then_run. destruct u as [|x r].
  { split; [discriminate|now right]. }
  change (starts_with (py "#") (x :: r)) with ((35 =? x) && true).
  destruct (Z.eqb_spec 35 x) as [<-|Hne]; cbn [andb].
  - change (skipn (length (py "#")) (35 :: r)) with r.
    destruct r as [|c b].
    + cbn. split; [discriminate|now left].
    + cbn [run_len]. destruct (is_word db c) eqn:Ec.
      * split; [intros [H|H]; discriminate H|].
        intros H. specialize (H c b eq_refl). congruence.
      * split; [|now left]. intros _ c' b' [= <- <-]. exact Ec.
  - split; [|now left]. intros _ c b [= E]. congruence.
Qed.

(** X16: every hashtag that [extract_hashtags] returns is a [#] followed
    by one or more word characters, and occurs in the text; the result is
    empty exactly when the value is missing or no [#] of the text is
    followed by a word character. *)
Theorem extract_hashtags_finds_the_tags (text : pyval) :
  (forall tag, In tag (extract_hashtags db text) ->
     exists w a b,
       tag = 35 :: w /\ w <> [] /\ Forall (fun c => is_word db c = true) w
       /\ str text = a ++ tag ++ b)
  /\ (extract_hashtags db text = []
      <-> isna text = true
          \/ forall a c b, str text = a ++ 35 :: c :: b -> is_word db c = false).
Proof.
  unfold extract_hashtags. destruct (isna text) eqn:En.
  { split; [contradiction|]. split; [now left|reflexivity]. }
  split.
  - intros tag Hin.
    apply findall_In in Hin as (a & b & n & repl & E & Hm & Hg & _).
    apply hashtag_match in Hm as (w & Hw & Hne & Hall).
    exists w, a, b. rewrite Hg at 1. rewrite Hw. now repeat split.
  - rewrite findall_nil.
    + split.
      * intros H. right. intros a c b E.
        apply (proj1 (hashtag_none (35 :: c :: b)) (H a _ E) c b eq_refl).
      * intros [H|H]; [discriminate|]. intros a u E.
        apply hashtag_none. intros c b ->. now apply (H a c b).
    + intros u n repl Hm. apply hashtag_match in Hm as (w & Hw & _).
      destruct n; [discriminate Hw|lia].
Qed.

(** X17: [get_top_hashtags] lists at most [limit] distinct hashtags with
    non-increasing counts, each with the number of its occurrences in the
    captions; a hashtag of the captions that is not listed occurs no more
    often than any listed one. *)
Theorem top_hashtags_are_the_most_used (captions : list pyval) (limit : Z) :
  let tags := flat_map (extract_hashtags db) captions in
  let out := get_top_hashtags db captions limit in
  (length out <= Z.to_nat limit)%nat
  /\ List.NoDup (List.map fst out)
  /\ StronglySorted (fun a b => snd b <= snd a) out
  /\ (forall tag v, In (tag, v) out ->
        In tag tags /\ v = occurrences tags tag /\ 1 <= v)
  /\ (forall tag, In tag tags -> ~ In tag (List.map fst out) ->
        forall tag' v', In (tag', v') out -> occurrences tags tag <= v').
Proof.
  intros tags out. subst out. unfold get_top_hashtags.
  destruct captions as [|c cs].
  { cbn. repeat split; try constructor; try contradiction. lia. }
  fold tags.
  destruct (most_common_spec tags limit) as (H1 & _ & H3 & H4 & H5 & H6).
  repeat split; try assumption; now apply (H5 tag v).
Qed.

End Hashtags.

(** ** Permalinks *)

Section Permalinks.

Import Posts.

Variable sep : Z.

Lemma split_on_nonempty (t : pystr) : split_on sep t <> [].
Proof.
  destruct t as [|c r]; [discriminate|]. cbn [split_on].
  destruct (c =? sep); [discriminate|]. destruct (split_on sep r); discriminate.
Qed.

(** [sep.join(t.split(sep)) == t], and no part holds the separator. *)
Lemma split_on_join (t : pystr) :
  match split_on sep t with
  | [] => False
  | p :: ps =>
    t = p ++ concat (List.map (cons sep) ps)
    /\ Forall (Forall (fun c => c <> sep)) (p :: ps)
  end.
Proof.
  induction t as [|c r IH]; [cbn; repeat constructor|].
  cbn [split_on]. destruct (split_on sep r) as [|p ps]; [contradiction|].
  destruct IH as [E Hall]. destruct (Z.eqb_spec c sep) as [->|Hne].
  - split; [cbn; now rewrite <- E|]. constructor; [constructor|exact Hall].
  - split; [cbn; now rewrite <- E|].
    inversion Hall; subst. constructor; [|assumption]. now constructor.
Qed.

Lemma last_part (p : pystr) (ps : list pystr) :
  exists a, p ++ concat (List.map (cons sep) ps) = a ++ List.last (p :: ps) []
            /\ (a = [] \/ exists a', a = a' ++ [sep]).
Proof.
  revert p. induction ps as [|q ps IH]; intros p.
  - exists []. cbn. rewrite app_nil_r. split; [reflexivity|now left].
  - destruct (IH q) as (a & E & Ha).
    change (List.last (p :: q :: ps) []) with (List.last (q :: ps) []).
    exists (p ++ sep :: a). split.
    + cbn [List.map concat]. cbn [app]. rewrite E. now rewrite <- app_assoc.
    + right. destruct Ha as [->|[a' ->]].
      * now exists p.
      * exists (p ++ sep :: a'). now rewrite <- app_assoc.
Qed.

Lemma last_segment (t : pystr) :
  exists a, t = a ++ List.last (split_on sep t) []
            /\ Forall (fun c => c <> sep) (List.last (split_on sep t) [])
            /\ (a = [] \/ exists a', a = a' ++ [sep]).
Proof.
  pose proof (split_on_join t) as H.
  destruct (split_on sep t) as [|p ps] eqn:E; [contradiction|].
  destruct H as [Et Hall]. destruct (last_part p ps) as (a & Ea & Ha).
  exists a. split; [now rewrite <- Ea|]. split; [|exact Ha].
  rewrite List.Forall_forall in Hall. apply Hall.
  destruct (exists_last (l := p :: ps)) as (l' & x & El); [discriminate|].
  rewrite El, last_last. apply in_or_app. right. now left.
Qed.

(** The part behind the last separator is determined by the text. *)
Lemma segment_unique (a a' r r' : pystr) :
  a ++ r = a' ++ r' ->
  Forall (fun c => c <> sep) r -> Forall (fun c => c <> sep) r' ->
  (a = [] \/ exists b, a = b ++ [sep]) ->
  (a' = [] \/ exists b, a' = b ++ [sep]) ->
  r = r'.
Proof.
  intros E Hr Hr' Ha Ha'.
  assert (Hrev : rev r ++ rev a = rev r' ++ rev a').
  { rewrite <- !rev_app_distr. now rewrite E. }
  assert (Hgen : forall x y u v : pystr,
             x ++ u = y ++ v ->
             Forall (fun c => c <> sep) x -> Forall (fun c => c <> sep) y ->
             (u = [] \/ exists b, u = sep :: b) ->
             (v = [] \/ exists b, v = sep :: b) -> x = y).
  { clear. induction x as [|c x IH]; intros y u v E Hx Hy Hu Hv.
    - destruct y as [|d y]; [reflexivity|]. exfalso. cbn in E.
      destruct Hu as [Hu|[b Hu]]; rewrite Hu in E; [discriminate|].
      injection E as E _. inversion Hy as [|? ? Hd _]. congruence.
    - destruct y as [|d y].
      + exfalso. cbn in E.
        destruct Hv as [Hv|[b Hv]]; rewrite Hv in E; [discriminate|].
        injection E as E _. inversion Hx as [|? ? Hc _]. congruence.
      + injection E as Ec E. subst d. inversion Hx; subst. inversion Hy; subst.
        f_equal. now apply (IH y u v). }
  apply (f_equal (@rev Z)) in Hrev.
  assert (Hx : rev r = rev r').
  { apply (Hgen (rev r) (rev r') (rev a) (rev a')).
    - rewrite <- !rev_app_distr. now rewrite E.
    - now apply Forall_rev.
    - now apply Forall_rev.
    - destruct Ha as [->|[b ->]]; [now left|right].
      exists (rev b). now rewrite rev_app_distr.
    - destruct Ha' as [->|[b ->]]; [now left|right].
      exists (rev b). now rewrite rev_app_distr. }
  apply (f_equal (@rev Z)) in Hx. now rewrite !rev_involutive in Hx.
Qed.

End Permalinks.

(** X18: the tweet id taken from a permalink is the part behind its last
    slash: it holds no slash, the permalink ends with it, and what stands
    before it is empty or ends with a slash; so [base/id] gives back [id]
    for an id without a slash. A missing permalink gives [None]. *)
Theorem tweet_id_is_the_last_segment :
  (forall s : pystr,
      exists a id,
        s = a ++ id
        /\ Posts.get_tweet_id_from_permalink (PyStr s) = Some id
        /\ Forall (fun c => c <> 47) id
        /\ (a = [] \/ exists a', a = a' ++ [47]))
  /\ (forall base id : pystr,
        Forall (fun c => c <> 47) id ->
        Posts.get_tweet_id_from_permalink (PyStr (base ++ 47 :: id)) = Some id)
  /\ Posts.get_tweet_id_from_permalink PyNaN = None
  /\ Posts.get_tweet_id_from_permalink PyNone = None.
Proof.
  assert (Hget : forall s, Posts.get_tweet_id_from_permalink (PyStr s)
                           = Some (List.last (Posts.split_on 47 s) [])).
  { intros s. unfold Posts.get_tweet_id_from_permalink. cbn [isna str].
    pose proof (split_on_nonempty 47 s) as Hne.
    destruct (Posts.split_on 47 s); [congruence|reflexivity]. }
  split; [|split; [|split; reflexivity]].
  - intros s. destruct (last_segment 47 s) as (a & E & Hid & Ha).
    exists a, (List.last (Posts.split_on 47 s) []). now rewrite Hget.
  - intros base id Hid. rewrite Hget. f_equal.
    destruct (last_segment 47 (base ++ 47 :: id)) as (a & E & Hid' & Ha).
    symmetry. apply (segment_unique 47 (base ++ [47]) a); try assumption.
    + now rewrite <- app_assoc.
    + right. now exists base.
Qed.

Lemma tweet_id_is_the_last_segment_witness :
  Posts.get_tweet_id_from_permalink
    (PyStr (py "https://x.com/IndiHome/status" ++ 47 :: py "1989677741894246514"))
  = Some (py "1989677741894246514").
Proof.
  destruct tweet_id_is_the_last_segment as (_ & H & _).
  apply (H (py "https://x.com/IndiHome/status") (py "1989677741894246514")).
  apply List.Forall_forall. intros c Hc Ec. subst c.
  vm_compute in Hc. intuition discriminate.
Defined.

(** ** The basic statistics *)

Section Statistics.

Import Posts.

Variable py_int : pystr -> option Z.
Variable reply_counts : gmap Z Z.

(** What one row adds to the replies, [None] when it raises. *)
Let row_replies (row : post) : option Z :=
  match get_tweet_id_from_permalink (Permalink row) with
  | Some ((_ :: _) as tweet_id) =>
    match py_int tweet_id with
    | Some i => Some (default 0 (reply_counts !! i))
    | None => None
    end
  | _ => Some 0
  end.

Let step (acc : option Z) (row : post) : option Z :=
  match acc with
  | None => None
  | Some total =>
    match row_replies row with
    | Some n => Some (total + n)
    | None => None
    end
  end.

Lemma replies_from_csv_fold (df : list post) :
  replies_from_csv py_int reply_counts df = fold_left step df (Some 0).
Proof.
  unfold replies_from_csv. generalize (Some 0).
  induction df as [|row df IH]; intros acc; [reflexivity|].
  cbn [fold_left]. rewrite <- IH. f_equal.
  unfold step, row_replies. destruct acc as [total|]; [|reflexivity].
  destruct (get_tweet_id_from_permalink (Permalink row)) as [[|c id]|];
    try (f_equal; lia).
  destruct (py_int (c :: id)); reflexivity.
Qed.

Lemma fold_step_None (df : list post) : fold_left step df None = None.
Proof. induction df as [|row df IH]; [reflexivity|exact IH]. Qed.

Lemma fold_step_spec (df : list post) (total : Z) :
  match fold_left step df (Some total) with
  | Some t => Forall (fun row => row_replies row <> None) df
              /\ t = total + fold_right Z.add 0
                                        (List.map (fun row => default 0 (row_replies row)) df)
  | None => exists row, In row df /\ row_replies row = None
  end.
Proof.
  revert total. induction df as [|row df IH]; intros total.
  - cbn. split; [constructor|lia].
  - cbn [fold_left]. unfold step at 2.
    destruct (row_replies row) as [n|] eqn:E.
    + specialize (IH (total + n)).
      destruct (fold_left step df (Some (total + n))) as [t|].
      * destruct IH as [Hall ->]. split; [constructor; [congruence|exact Hall]|].
        cbn [List.map fold_right]. rewrite E. cbn. lia.
      * destruct IH as (r & Hr & Hn). exists r. split; [now right|exact Hn].
    + rewrite fold_step_None. exists row. split; [now left|exact E].
Qed.

Lemma row_replies_None (row : post) :
  row_replies row = None
  <-> exists id, get_tweet_id_from_permalink (Permalink row) = Some id
                 /\ id <> [] /\ py_int id = None.
Proof.
  unfold row_replies.
  destruct (get_tweet_id_from_permalink (Permalink row)) as [[|c id]|].
  - split; [discriminate|]. intros (id & [= <-] & H & _). congruence.
  - destruct (py_int (c :: id)) eqn:E.
    + split; [discriminate|]. intros (id' & [= <-] & _ & H). congruence.
    + split; [|reflexivity]. intros _. now exists (c :: id).
  - split; [discriminate|]. intros (id & H & _). discriminate.
Qed.

(** X19: [get_basic_statistics] returns the empty dictionary exactly when
    the sheet has no row or some row's permalink ends in a non-empty
    segment that [int] rejects: one such row empties the statistics.
    Otherwise [total_posts] is the number of rows, the likes and retweets
    are the column sums without the missing values, and [total_engagement]
    is likes plus replies plus retweets. *)
Theorem basic_statistics_need_numeric_ids (df : list post) :
  (get_basic_statistics py_int reply_counts df = None
   <-> df = []
       \/ exists row id,
            In row df
            /\ get_tweet_id_from_permalink (Permalink row) = Some id
            /\ id <> [] /\ py_int id = None)
  /\ (forall st, get_basic_statistics py_int reply_counts df = Some st ->
        total_posts st = Z.of_nat (length df)
        /\ total_likes st = fold_right Z.add 0 (omap Likes df)
        /\ total_retweets st = fold_right Z.add 0 (omap Retweets df)
        /\ total_engagement st
           = total_likes st + total_replies st + total_retweets st).
Proof.
  unfold get_basic_statistics. destruct df as [|row0 df0] eqn:Edf.
  { split; [split; [now left|reflexivity]|discriminate]. }
  rewrite <- Edf. rewrite replies_from_csv_fold.
  pose proof (fold_step_spec df 0) as H.
  destruct (fold_left step df (Some 0)) as [t|].
  - destruct H as [Hall _]. split.
    + split; [discriminate|]. intros [H|(row & id & Hin & Hid)].
      * rewrite Edf in H. discriminate.
      * exfalso. rewrite List.Forall_forall in Hall. apply (Hall row Hin).
        apply row_replies_None. now exists id.
    + intros st [= <-]. cbn. repeat split.
  - destruct H as (row & Hin & Hn). split; [|discriminate].
    split; [|reflexivity]. intros _. right.
    apply row_replies_None in Hn as (id & Hid). now exists row, id.
Qed.

End Statistics.

Lemma basic_statistics_need_numeric_ids_witness :
  let row := {| Posts.Permalink := PyStr (py "https://x.com/a/status/123?s=20");
                Posts.Likes := Some 5; Posts.Retweets := Some 1 |} in
  Posts.get_basic_statistics Posts.digits_int ∅ [row] = None.
Proof.
  intros row.
  apply (basic_statistics_need_numeric_ids Posts.digits_int ∅ [row]).
  right. exists row, (py "123?s=20"). split; [now left|].
  split; [reflexivity|]. split; [discriminate|reflexivity].
Defined.

(** ** The categories of the recommendations *)

Section Categories.

Import Reports Recommendation Activity Endpoint.

Let untimed (r : recommendation) : Prop := category r <> "Timing"%string.

Lemma analyze_sentiment_untimed sd : Forall untimed (_analyze_sentiment sd).
Proof.
  unfold _analyze_sentiment. destruct sd as [dist|]; [|constructor].
  apply Forall_app. split; [|apply Forall_app; split].
  - destruct (Qlt_bool 40 _); [repeat constructor; discriminate|].
    destruct (Qlt_bool 25 _); repeat constructor; discriminate.
  - destruct (Qlt_bool _ 30); repeat constructor; discriminate.
  - destruct (Qlt_bool 50 _); repeat constructor; discriminate.
Qed.

Lemma analyze_emotions_untimed ed : Forall untimed (_analyze_emotions ed).
Proof.
  unfold _analyze_emotions. destruct ed as [dist|]; [|constructor].
  apply Forall_app. split; [|apply Forall_app; split;
                              [|apply Forall_app; split;
                                [|apply Forall_app; split]]].
  - destruct (Qlt_bool 15 _); repeat constructor; discriminate.
  - destruct (Qlt_bool 5 _); repeat constructor; discriminate.
  - destruct (Qlt_bool 10 _); repeat constructor; discriminate.
  - destruct (Qlt_bool _ 25); repeat constructor; discriminate.
  - destruct (Qlt_bool 5 _); repeat constructor; discriminate.
Qed.

Lemma analyze_topics_untimed td : Forall untimed (_analyze_topics td).
Proof.
  unfold _analyze_topics. destruct td as [ts|]; [|constructor].
  destruct (sort_by _ ts) as [|top s]; [constructor|].
  constructor; [discriminate|].
  destruct (_ <? _)%nat; repeat constructor; discriminate.
Qed.

Lemma low_types_untimed (avg : Q) (types : list type_engagement) :
  Forall untimed
         (flat_map
            (fun eng_type =>
               if Qlt_bool (inject_Z (type_total eng_type)) (fmul avg 0.5)
               then [{| category := "Engagement"; prio := medium;
                        title := "Low Engagement for " +:+ type_name eng_type |}]
               else [])
            types).
Proof.
  induction types as [|t types IH]; [constructor|].
  cbn [flat_map]. apply Forall_app. split; [|exact IH].
  destruct (Qlt_bool _ _); repeat constructor; discriminate.
Qed.

Lemma analyze_engagement_untimed eng : Forall untimed (_analyze_engagement eng).
Proof.
  unfold _analyze_engagement. destruct eng as [data|]; [|constructor].
  apply Forall_app. split.
  - destruct (engagement_by_type data) as [types|]; [|constructor].
    apply low_types_untimed.
  - destruct (total_engagement data); [|constructor].
    destruct (Qlt_bool _ _); repeat constructor; discriminate.
Qed.

(** Whatever [get_peak_activity_hours] returns has no key [peak_hours]. *)
Lemma peak_dict_has_no_peak_hours (o : outcome) :
  peak_hours_of (peak_dict o) = None.
Proof. destruct o; reflexivity. Qed.

(** X20: the recommendations endpoint never returns a recommendation of
    the category [Timing], whatever the data: the dictionary it takes from
    [get_peak_activity_hours] has no key [peak_hours] in any of its three
    shapes. The processor itself, whenever it returns, emits the timing
    recommendation for a non-empty list of peak hours. *)
Theorem endpoint_never_recommends_timing
        (sentiment_data emotion_data : option (gmap string dist_entry))
        (topic_data : option (list topic))
        (engagement_data : option engagement)
        (sk : sklearn) (created_at : list (option Z)) :
  let timing := {| category := "Timing"; prio := medium;
                   title := "Optimize Posting Schedule" |} in
  (forall res,
      get_recommendations sentiment_data emotion_data topic_data
                          engagement_data sk created_at = Some res ->
      Forall (fun r => category r <> "Timing"%string) (recommendations res))
  /\ (forall h hs res,
        generate_recommendations sentiment_data emotion_data topic_data
                                 engagement_data (Some (h :: hs)) = Some res ->
        In timing (recommendations res)).
Proof.
  intros timing. split.
  - intros res. unfold get_recommendations.
    rewrite peak_dict_has_no_peak_hours. intros Hres.
    apply generate_recommendations_returns in Hres as (-> & _).
    eapply Permutation_Forall; [apply sort_by_perm|].
    unfold generated. repeat (apply Forall_app; split).
    + apply analyze_sentiment_untimed.
    + apply analyze_emotions_untimed.
    + apply analyze_topics_untimed.
    + apply analyze_engagement_untimed.
    + constructor.
  - intros h hs res Hres.
    apply generate_recommendations_returns in Hres as (-> & _).
    eapply Permutation_in; [apply sort_by_perm|].
    unfold generated. rewrite !in_app_iff. do 4 right. now left.
Qed.

(** Replies in four different hours, which yield an analysis with its six
    keys: the endpoint returns the sentiment warning and nothing on the
    timing; the processor handed the hours themselves adds the timing
    recommendation. *)
Lemma endpoint_never_recommends_timing_witness :
  let sd : gmap string dist_entry :=
    <["negative"%string := {| count := 1; percentage := 50%Q |}]> ∅ in
  let sk := {| fit_transform := fun X => List.map (fun _ => (0%Q, 0%Q)) X;
               fit_predict := fun X => List.map (fun _ => 0) X;
               pca := fun X => Some (X, [1%Q; 0%Q]) |} in
  let created_at := [Some 9; Some 10; Some 9; Some 11] in
  (exists res,
      get_recommendations (Some sd) None None None sk created_at = Some res
      /\ List.map category (recommendations res) = ["Sentiment"; "Sentiment"]%string
      /\ Forall (fun r => category r <> "Timing"%string) (recommendations res))
  /\ (exists res,
         generate_recommendations (Some sd) None None None (Some [9; 10])
         = Some res
         /\ In {| category := "Timing"; prio := medium;
                  title := "Optimize Posting Schedule" |}
               (recommendations res)).
Proof.
  intros sd sk created_at.
  pose proof (endpoint_never_recommends_timing
                (Some sd) None None None sk created_at) as [H1 _].
  pose proof (endpoint_never_recommends_timing
                (Some sd) None None None sk created_at) as [_ H2].
  split.
  - destruct (get_recommendations (Some sd) None None None sk created_at)
      as [res|] eqn:E; [|vm_compute in E; discriminate E].
    exists res. split; [reflexivity|]. split; [|now apply H1].
    vm_compute in E. injection E as <-. vm_compute. reflexivity.
  - destruct (generate_recommendations (Some sd) None None None (Some [9; 10]))
      as [res|] eqn:E; [|vm_compute in E; discriminate E].
    exists res. split; [reflexivity|]. now apply (H2 9 [10]).
Defined.

End Categories.

(** ** The engagement warning and the engagement score *)

Section EngagementWarning.

Import Reports Recommendation.

Lemma low_types_not_high (avg : Q) (types : list type_engagement)
      (r : recommendation) :
  In r (flat_map
          (fun eng_type =>
             if Qlt_bool (inject_Z (type_total eng_type)) (fmul avg 0.5)
             then [{| category := "Engagement"; prio := medium;
                      title := "Low Engagement for " +:+ type_name eng_type |}]
             else [])
          types) ->
  prio r = medium.
Proof.
  induction types as [|t types IH]; [contradiction|].
  cbn [flat_map]. intros H. apply in_app_or in H as [H|H]; [|now apply IH].
  destruct (Qlt_bool _ _); [|contradiction].
  destruct H as [<-|[]]. reflexivity.
Qed.

Lemma engagement_scale_low (avg : Q) :
  (avg < 100)%Q -> (engagement_scale avg <= 50)%Q.
Proof.
  intros H. unfold engagement_scale.
  rewrite !Qle_bool_false by lra.
  destruct (Qle_bool 50 avg) eqn:E; [lra|].
  apply Qle_bool_gt in E. apply linear_scale_le. lra.
Qed.

Lemma engagement_scale_high (avg : Q) :
  (100 <= avg)%Q -> (75 <= engagement_scale avg)%Q.
Proof.
  intros H. unfold engagement_scale.
  destruct (Qle_bool 200 avg); [lra|].
  rewrite Qle_bool_true by exact H. lra.
Qed.

(** X22: when the statistics hold a total engagement, the recommendation
    [Low Overall Engagement Rate] is emitted exactly when the engagement
    score is below 75: both are taken from the same average per post. *)
Theorem low_engagement_warning_matches_score
        (sd ed : option (gmap string dist_entry)) (data : engagement) (t : Z) :
  total_engagement data = Some t ->
  let r := _calculate_performance_score sd ed (Some data) in
  let warning := {| category := "Engagement"; prio := high;
                    title := "Low Overall Engagement Rate" |} in
  In warning (_analyze_engagement (Some data)) <-> (engagement_score r < 75)%Q.
Proof.
  intros Ht r warning. subst r.
  cbn [_calculate_performance_score engagement_score].
  unfold _analyze_engagement. rewrite Ht.
  change (default 0 (Some t)) with t.
  set (avg := per_post t (default 1 (total_posts data))).
  rewrite in_app_iff. split.
  - intros [H|H].
    + exfalso. destruct (engagement_by_type data) as [types|]; [|contradiction].
      apply low_types_not_high in H. discriminate H.
    + unfold Qlt_bool in H. destruct (Qle_bool 100 avg) eqn:E; [contradiction|].
      apply Qle_bool_gt in E. apply engagement_scale_low in E.
      apply (py_round_le _ 50 1) in E; [|float_const]. unfold inject_Z in E. lra.
  - intros H. right. unfold Qlt_bool.
    destruct (Qle_bool 100 avg) eqn:E; [|now left].
    exfalso. apply Qle_bool_iff in E. apply engagement_scale_high in E.
    apply (py_round_ge _ 75 1) in E; [|float_const]. unfold inject_Z in E. lra.
Qed.

Lemma low_engagement_warning_matches_score_witness :
  let data := {| engagement_by_type := None; total_engagement := Some 166;
                 total_posts := Some 5 |} in
  In {| category := "Engagement"; prio := high;
        title := "Low Overall Engagement Rate" |}
     (_analyze_engagement (Some data))
  <-> (engagement_score (_calculate_performance_score None None (Some data))
       < 75)%Q.
Proof.
  intros data.
  apply (low_engagement_warning_matches_score None None data 166). reflexivity.
Defined.

End EngagementWarning.

(** ** Conversion to native values *)

Section ConvertTypes.

Import Json.




End ConvertTypes.
